(** * VALORE NIL simulation: the dashboard's stream buffer, overlay ticker,
      mode loader and program selection

    Shallow embedding of the stateful parts of
    - [Simulation2/ui/components/AgentStream.tsx] (the bounded packet buffer),
    - [Simulation2/ui/components/ExperienceDashboard.tsx] (the emulation
      overlay ticker and [loadModeData]),
    - the static prototype's page script, the module that imports
      [./data-loader.js] ([selectProgram]),
    together with the pieces of the synthetic engine that the specification
    describes in words.

    JavaScript numbers are modelled as exact rationals ([Q]): rounding of
    IEEE doubles is not represented, [NaN] and infinities do not occur.
    [Math.random()] and [Date.now()] are ambient sources; they are made
    explicit as a stream of draws and a clock. *)

From Stdlib Require Import QArith Qminmax Qround Qabs Lqa.
From stdpp Require Import gmap strings list fin_maps pretty sorting.

Local Open Scope Q_scope.

(** ** JavaScript number helpers *)

Module Js.

(** [Math.min(1, Math.max(0, x))] *)
Definition clamp01 (x : Q) : Q := Qmin 1 (Qmax 0 x).

(** [Math.floor(r * n)] for an array length [n]. *)
Definition floorScale (r : Q) (n : nat) : Z :=
  Qfloor (r * inject_Z (Z.of_nat n)).

(** [xs[i]] for a number [i] that is an integer: [undefined] (here [None])
    below zero and past the end. *)
Definition index {A} (xs : list A) (i : Z) : option A :=
  if (i <? 0)%Z then None else xs !! Z.to_nat i.

(** A result of [Math.random()]: a number in [0, 1). *)
Definition unit_draw (r : Q) : Prop := 0 <= r /\ r < 1.

End Js.

(** ** AgentStream.tsx: the packet buffer *)

Module AgentStream.

Definition MAX_MESSAGES : nat := 120.

(** The five packet types of [AgentPacket]; [other_type] stands for a
    parsed value whose [type] is none of them. *)
Inductive PacketType :=
| evidence | consensus | insight | bias_alert | update | other_type.

(** [AgentPacket]: the payload is opaque to the buffer; it is kept as the
    raw text that [JSON.parse] accepted. *)
Record AgentPacket := {
  ptype : PacketType;
  payload : string;
}.

(** What [JSON.parse(event.data)] does with a frame: it throws, it yields
    [null], or it yields a value that is read as a packet. *)
Inductive Parsed :=
| Unparsable
| JsonNull
| Packet (p : AgentPacket).

(** The updater passed to [setMessages] in [socket.onmessage]:
    [next = [...prev, data]], then
    [next.splice(0, next.length - MAX_MESSAGES)] when it is too long. An
    element [None] is a stored [null]. *)
Definition appendMessage (prev : list (option AgentPacket))
    (data : option AgentPacket) : list (option AgentPacket) :=
  let next := prev ++ [data] in
  if (MAX_MESSAGES <? length next)%nat
  then drop (length next - MAX_MESSAGES) next
  else next.

(** What the stream consumer keeps: the messages and the console. *)
Record StreamState := {
  messages : list (option AgentPacket);
  console : list string;
}.

(** [setMessages([])] at the start of the effect. *)
Definition initialStream : StreamState :=
  {| messages := []; console := [] |}.

(** [socket.onmessage]. A frame that does not parse is caught before
    anything is stored; [null] is stored first and the read of [data.type]
    then throws; in both cases the [catch] branch warns on the console. The
    dashboard passes no [onUpdate] callback, and the pulse of an [update]
    packet is a display effect that is left out. *)
Definition onmessage (st : StreamState) (frame : Parsed) : StreamState :=
  match frame with
  | Packet data =>
      {| messages := appendMessage (messages st) (Some data);
         console := console st |}
  | JsonNull =>
      {| messages := appendMessage (messages st) None;
         console := console st ++ ["Invalid packet"%string] |}
  | Unparsable =>
      {| messages := messages st;
         console := console st ++ ["Invalid packet"%string] |}
  end.

Definition receiveAll (st : StreamState) (frames : list Parsed) : StreamState :=
  foldl onmessage st frames.

(** The values that reach the buffer, in order of arrival. *)
Definition accepted (frames : list Parsed) : list (option AgentPacket) :=
  omap (fun f => match f with
                 | Unparsable => None
                 | JsonNull => Some None
                 | Packet data => Some (Some data)
                 end) frames.

End AgentStream.

(** ** The synthetic engine's rolling series, as the specification words it *)

Module Series.

(** Modelled from the spec: the fixed length of the rolling window of a
    raw-signal series (section 3, "fixed-length rolling window (30
    entries)"); the generator itself (api/app/synthetic/engine.py) is not
    part of the sources. *)
Definition WINDOW : nat := 30.

(** Modelled from the spec: a clip of a value to its declared bound
    (section 4.2, "clipped to the declared bound", "saturating, not
    wrapping"); the generator is not part of the sources. *)
Definition clip (lo hi x : Q) : Q := Qmax lo (Qmin hi x).

(** Modelled from the spec: the append of [advance] on a rolling series
    (section 4.2): one new point is appended, and the generator "drops the
    oldest point if the window exceeds its fixed length". The generator is
    not part of the sources. *)
Definition appendPoint (series : list Q) (x : Q) : list Q :=
  let next := series ++ [x] in
  if (WINDOW <? length next)%nat then drop 1 next else next.

(** Modelled from the spec: [advance] on the sentiment series (section
    4.2, "previous + noise(volatility), clipped to the declared bound");
    the generator is not part of the sources. *)
Definition advanceSentiment (series : list Q) (noise : Q) : list Q :=
  let previous := default 0 (last series) in
  appendPoint series (clip (-1) 1 (previous + noise)).

End Series.

(** ** ExperienceDashboard.tsx: the emulation overlay ticker *)

Module Dashboard.

Inductive DataMode := simulation | emulation.

Definition modeName (m : DataMode) : string :=
  match m with simulation => "simulation" | emulation => "emulation" end.

Definition DataMode_eqb (a b : DataMode) : bool :=
  match a, b with
  | simulation, simulation | emulation, emulation => true
  | _, _ => false
  end.

Record MetricOption := { key : string; label : string }.

Record AgentConfig := {
  id : string;
  emphasis : string;
  metrics : list MetricOption;
}.

(** The constant table [agentConfigs] (names and descriptions are display
    text and are left out). *)
Definition agentConfigs : list AgentConfig := [
  {| id := "social_media"; emphasis := "engagement_authenticity";
     metrics := [
       {| key := "engagement_authenticity"; label := "Engagement Authenticity" |};
       {| key := "sentiment_intensity"; label := "Sentiment Intensity" |};
       {| key := "virality_potential"; label := "Virality Potential" |};
       {| key := "platform_fit"; label := "Platform Fit" |};
       {| key := "authenticity_detection"; label := "Authenticity Detection" |} ] |};
  {| id := "athletic_performance"; emphasis := "stat_efficiency";
     metrics := [
       {| key := "stat_efficiency"; label := "Stat Efficiency" |};
       {| key := "context_adjustment"; label := "Context Adjustment" |};
       {| key := "injury_risk"; label := "Injury Risk" |};
       {| key := "pro_projection"; label := "Pro Projection" |};
       {| key := "leadership_signal"; label := "Leadership Signal" |} ] |};
  {| id := "market_intelligence"; emphasis := "comp_deal_alignment";
     metrics := [
       {| key := "comp_deal_alignment"; label := "Comparable Deal Alignment" |};
       {| key := "market_timing"; label := "Market Timing" |};
       {| key := "brand_demand"; label := "Brand Demand" |};
       {| key := "economic_context"; label := "Economic Context" |};
       {| key := "competitive_position"; label := "Competitive Position" |} ] |};
  {| id := "brand_alignment"; emphasis := "values_match";
     metrics := [
       {| key := "values_match"; label := "Values Match" |};
       {| key := "story_resonance"; label := "Story Resonance" |};
       {| key := "activation_readiness"; label := "Activation Readiness" |} ] |};
  {| id := "psychology"; emphasis := "fan_identity_tie";
     metrics := [
       {| key := "fan_identity_tie"; label := "Fan Identity Tie" |};
       {| key := "influence_score"; label := "Influence Score" |};
       {| key := "trust_velocity"; label := "Trust Velocity" |} ] |};
  {| id := "risk_compliance"; emphasis := "regulatory_score";
     metrics := [
       {| key := "regulatory_score"; label := "Regulatory Score" |};
       {| key := "disclosure_health"; label := "Disclosure Health" |};
       {| key := "audit_risk"; label := "Audit Risk" |} ] |};
  {| id := "ethics"; emphasis := "ethics_confidence";
     metrics := [
       {| key := "bias_index"; label := "Bias Index" |};
       {| key := "fairness_drift"; label := "Fairness Drift" |};
       {| key := "ethics_confidence"; label := "Ethics Confidence" |} ] |}
].

Record Program := {
  program_id : string;
  program_name : string;
  conference : string;
  phase : string;
  nil_baseline : Q;
  community_highlights : list string;
}.

Record Scenario := {
  scenario_id : string;
  scenario_program_id : string;
  opponent : string;
  win_probability : Q;
  nil_uplift : Q;
  lineup : list string;
}.

Record Metrics := {
  valuation_accuracy : Q;
  demographic_parity : Q;
  athlete_earnings_lift : Q;
  compliance_cost_reduction : Q;
}.

Record Athlete := {
  athlete_id : string;
  athlete_name : string;
  position : string;
  archetype : string;
}.

(** [SyntheticAthleteSummary], with the fields the ticker reads.
    [agent_metrics] is an object of objects; [Object.entries] walks it in
    insertion order, so the outer level is an ordered list of pairs. *)
Record SyntheticAthleteSummary := {
  athlete : Athlete;
  agent_metrics : list (string * gmap string Q);
}.

Record SyntheticProgramSummary := {
  program : Program;
  athletes : list SyntheticAthleteSummary;
}.

Record SyntheticOverview := {
  seed : Z;
  generated_at : Z;
  overview_metrics : Metrics;
  programs : list SyntheticProgramSummary;
}.

(** An element of [agentEntriesByAgent[agentId]]. *)
Record AgentEntry := {
  athleteId : string;
  programName : string;
  entry_athlete : Athlete;
  entry_metrics : gmap string Q;
}.

(** [if (!map[agentId]) map[agentId] = []; map[agentId].push(entry)] on an
    object whose keys keep their insertion order (agent ids are names, not
    array indices, and none is the name of a property that every object
    inherits; [AgentMap.pushEntryJs] has the general case). *)
Fixpoint pushEntry (agentId : string) (e : AgentEntry)
    (map : list (string * list AgentEntry)) : list (string * list AgentEntry) :=
  match map with
  | [] => [(agentId, [e])]
  | (k, es) :: rest =>
      if String.eqb k agentId then (k, es ++ [e]) :: rest
      else (k, es) :: pushEntry agentId e rest
  end.

(** The [useMemo] that builds [agentEntriesByAgent]. *)
Definition agentEntriesByAgent (syntheticOverview : option SyntheticOverview)
  : list (string * list AgentEntry) :=
  match syntheticOverview with
  | None => []
  | Some ov =>
      foldl (fun map programSummary =>
        foldl (fun map athleteSummary =>
          foldl (fun map (am : string * gmap string Q) =>
            pushEntry am.1
              {| athleteId := athlete_id (athlete athleteSummary);
                 programName := program_name (program programSummary);
                 entry_athlete := athlete athleteSummary;
                 entry_metrics := am.2 |} map)
            map (agent_metrics athleteSummary))
          map (athletes programSummary))
        [] (programs ov)
  end.

Record Overlay := { value : Q; expiresAt : Z }.

Record Highlight := {
  highlight_athleteId : string;
  metricKey : string;
  timestamp : Z;
}.

Record TickerState := {
  agentOverlays : gmap string Overlay;
  agentHighlights : gmap string Highlight;
}.

(** The effect on [dataMode, syntheticOverview?.seed] empties both maps. *)
Definition resetTicker : TickerState :=
  {| agentOverlays := ∅; agentHighlights := ∅ |}.

(** What one firing of the update interval did. *)
Record OverlayEvent := {
  ev_agentId : string;
  ev_athleteId : string;
  ev_metricKey : string;
  ev_value : Q;
  ev_now : Z;
}.

Inductive TickOutcome :=
| Skipped                       (* one of the early [return]s *)
| Updated (ev : OverlayEvent)   (* both maps were written *)
| Threw.                        (* a TypeError on an [undefined] element *)

Definition overlayKeyOf (agentId athleteId metric : string) : string :=
  (agentId +:+ "::" +:+ athleteId +:+ "::" +:+ metric)%string.

Definition findConfig (agentId : string) : option AgentConfig :=
  List.find (fun cfg => String.eqb (id cfg) agentId) agentConfigs.

Definition playable (p : string * list AgentEntry) : bool :=
  (0 <? length p.2)%nat.

(** The callback of the update interval. [random] is the stream of
    [Math.random()] results and [c] the number of draws made so far;
    [now] is the reading of [Date.now()]. *)
Definition tick (entriesByAgent : list (string * list AgentEntry))
    (random : nat -> Q) (now : Z) (st : TickerState) (c : nat)
  : TickOutcome * TickerState * nat :=
  let playableAgents := List.filter playable entriesByAgent in
  if (length playableAgents =? 0)%nat then (Skipped, st, c) else
  match Js.index playableAgents
          (Js.floorScale (random c) (length playableAgents)) with
  | None => (Threw, st, S c)
  | Some (agentId, entries) =>
    match findConfig agentId with
    | None => (Skipped, st, S c)
    | Some config =>
      if (length entries =? 0)%nat then (Skipped, st, S c) else
      match Js.index entries
              (Js.floorScale (random (c + 1)%nat) (length entries)) with
      | None => (Skipped, st, (c + 2)%nat)
      | Some chosenEntry =>
        let metricOptions := metrics config in
        if (length metricOptions =? 0)%nat then (Skipped, st, (c + 2)%nat) else
        match Js.index metricOptions
                (Js.floorScale (random (c + 2)%nat) (length metricOptions)) with
        | None => (Threw, st, (c + 3)%nat)
        | Some chosenMetric =>
          let baseValue :=
            default 0 (entry_metrics chosenEntry !! key chosenMetric) in
          let delta := (random (c + 3)%nat - (1 # 2)) * (8 # 100) in
          let newValue := Js.clamp01 (baseValue + delta) in
          let overlayKey :=
            overlayKeyOf agentId (athleteId chosenEntry) (key chosenMetric) in
          (Updated {| ev_agentId := agentId;
                      ev_athleteId := athleteId chosenEntry;
                      ev_metricKey := key chosenMetric;
                      ev_value := newValue;
                      ev_now := now |},
           {| agentOverlays :=
                <[overlayKey := {| value := newValue;
                                   expiresAt := (now + 20000)%Z |}]>
                  (agentOverlays st);
              agentHighlights :=
                <[agentId := {| highlight_athleteId := athleteId chosenEntry;
                                metricKey := key chosenMetric;
                                timestamp := now |}]>
                  (agentHighlights st) |},
           (c + 4)%nat)
        end
      end
    end
  end.

(** The callback of the cleanup interval: expired overlays and highlights
    older than eight seconds are dropped. *)
Definition cleanup (now : Z) (st : TickerState) : TickerState :=
  {| agentOverlays :=
       filter (fun kv => (now < expiresAt kv.2)%Z) (agentOverlays st);
     agentHighlights :=
       filter (fun kv => (now - timestamp kv.2 < 8000)%Z) (agentHighlights st) |}.

Inductive Timer := UpdateTimer | CleanupTimer.

(** One timer firing, at clock reading [firing.2]. *)
Definition fire (entriesByAgent : list (string * list AgentEntry))
    (random : nat -> Q) (firing : Timer * Z) (st : TickerState) (c : nat)
  : TickOutcome * TickerState * nat :=
  match firing.1 with
  | UpdateTimer => tick entriesByAgent random firing.2 st c
  | CleanupTimer => (Skipped, cleanup firing.2 st, c)
  end.

Fixpoint fireAll (entriesByAgent : list (string * list AgentEntry))
    (random : nat -> Q) (schedule : list (Timer * Z))
    (st : TickerState) (c : nat)
  : list TickOutcome * TickerState * nat :=
  match schedule with
  | [] => ([], st, c)
  | firing :: rest =>
      let '(o, st1, c1) := fire entriesByAgent random firing st c in
      let '(os, st2, c2) := fireAll entriesByAgent random rest st1 c1 in
      (o :: os, st2, c2)
  end.

(** The effect that installs the update interval, from the maps [start]:
    nothing outside emulation mode or without an overview; otherwise the
    period [14000 + Math.random() * 4000] takes the first draw, and the
    firings of [schedule] follow. *)
Definition runTickerFrom (start : TickerState) (dataMode : DataMode)
    (syntheticOverview : option SyntheticOverview)
    (random : nat -> Q) (schedule : list (Timer * Z))
  : list TickOutcome * TickerState * nat :=
  match dataMode, syntheticOverview with
  | emulation, Some ov =>
      fireAll (agentEntriesByAgent (Some ov)) random schedule start 1
  | _, _ => ([], start, 0%nat)
  end.

(** A run that begins with a change of mode or seed, which resets the maps. *)
Definition runTicker : DataMode -> option SyntheticOverview -> (nat -> Q)
    -> list (Timer * Z) -> list TickOutcome * TickerState * nat :=
  runTickerFrom resetTicker.

Definition period (random : nat -> Q) : Q := 14000 + random 0%nat * 4000.

Definition eventOf (o : TickOutcome) : option OverlayEvent :=
  match o with Updated ev => Some ev | _ => None end.

(** The sequence of overlay updates a run emits. *)
Definition events (run : list TickOutcome * TickerState * nat)
  : list OverlayEvent :=
  omap eventOf run.1.1.

Definition updateTicks (n : nat) (clock : nat -> Z) : list (Timer * Z) :=
  map (fun t => (UpdateTimer, clock t)) (seq 0 n).

End Dashboard.

(** ** ExperienceDashboard.tsx: [loadModeData] *)

Module ModeLoader.
Import Dashboard.

Record DashboardState := {
  dataMode : DataMode;
  modeLoading : bool;
  modeError : option string;
  programData : list Program;
  scenarioData : list Scenario;
  metricsData : option Metrics;
  syntheticOverview : option SyntheticOverview;
  selectedProgram : string;
}.

(** How a [fetch(...)] ended: a response with its [res.ok] flag and the
    result of [res.json()] (a rejection message or a value), or a rejection
    of the fetch itself. *)
Inductive Fetched (A : Type) :=
| Responded (ok : bool) (body : string + A)
| Failed (message : string).
Arguments Responded {A} ok body.
Arguments Failed {A} message.

(** A request with the instant at which its promise settled. *)
Record Settled (A : Type) := {
  outcome : Fetched A;
  settledAt : nat;
}.
Arguments outcome {A} s.
Arguments settledAt {A} s.

Record Responses := {
  programsFetch : Settled (list Program);
  scenariosFetch : Settled (list Scenario);
  metricsFetch : Settled Metrics;
  syntheticFetch : Settled SyntheticOverview;
}.

(** [.then(res => { if (!res.ok) throw new Error(failure); return res.json(); })] *)
Definition required {A} (failure : string) (f : Fetched A) : string + A :=
  match f with
  | Failed m => inl m
  | Responded false _ => inl failure
  | Responded true body => body
  end.

(** [.then(res => (res.ok ? res.json() : null)).catch(() => null)] *)
Definition optional {A} (f : Fetched A) : option A :=
  match f with
  | Responded true (inr v) => Some v
  | _ => None
  end.

Definition programRequest (r : Responses) : string + list Program :=
  required "Programs request failed" (outcome (programsFetch r)).

Definition scenarioRequest (r : Responses) : string + list Scenario :=
  required "Scenarios request failed" (outcome (scenariosFetch r)).

Definition metricsRequest (r : Responses) : option Metrics :=
  optional (outcome (metricsFetch r)).

(** Only fetched in emulation mode; [Promise.resolve(null)] otherwise. *)
Definition syntheticRequest (mode : DataMode) (r : Responses)
  : string + option SyntheticOverview :=
  match mode with
  | emulation =>
      match required "Synthetic overview request failed"
              (outcome (syntheticFetch r)) with
      | inl m => inl m
      | inr ov => inr (Some ov)
      end
  | simulation => inr None
  end.

Definition rejectionOf {A} (at_ : nat) (p : string + A) : option (nat * string) :=
  match p with inl m => Some (at_, m) | inr _ => None end.

(** The rejections among the requests given to [Promise.all], in array
    order, each with the instant it happened. *)
Definition rejections (mode : DataMode) (r : Responses) : list (nat * string) :=
  omap (fun x : option (nat * string) => x)
    [ rejectionOf (settledAt (programsFetch r)) (programRequest r);
      rejectionOf (settledAt (scenariosFetch r)) (scenarioRequest r);
      rejectionOf (settledAt (syntheticFetch r)) (syntheticRequest mode r) ].

(** [Promise.all] rejects with the reason of the rejection that happened
    first. *)
Fixpoint earliest (best : nat * string) (rest : list (nat * string)) : string :=
  match rest with
  | [] => best.2
  | x :: rest' => earliest (if (x.1 <? best.1)%nat then x else best) rest'
  end.

Definition earliestRejection (l : list (nat * string)) : string :=
  match l with
  | [] => EmptyString
  | first :: rest => earliest first rest
  end.

(** [await Promise.all([programRequest, scenarioRequest, metricsRequest,
    syntheticRequest])]: the four values, or the first rejection. *)
Definition promiseAll (mode : DataMode) (r : Responses)
  : string + (list Program * list Scenario * option Metrics
              * option SyntheticOverview) :=
  match programRequest r, scenarioRequest r, syntheticRequest mode r with
  | inr p, inr s, inr syn => inr (p, s, metricsRequest r, syn)
  | _, _, _ => inl (earliestRejection (rejections mode r))
  end.

(** The two state updates before the [try]. *)
Definition beginLoad (s : DashboardState) : DashboardState :=
  {| dataMode := dataMode s;
     modeLoading := true;
     modeError := None;
     programData := programData s;
     scenarioData := scenarioData s;
     metricsData := metricsData s;
     syntheticOverview := syntheticOverview s;
     selectedProgram := selectedProgram s |}.

(** [loadModeData(mode)], from the state in which it is called to the
    state after its [finally]. [dataMode s] is the [dataMode] of the
    closure, the mode on display when the load was started. *)
Definition loadModeData (mode : DataMode) (r : Responses)
    (s : DashboardState) : DashboardState :=
  let s1 := beginLoad s in
  match promiseAll mode r with
  | inr (programResponse, scenarioResponse, metricsResponse, syntheticResponse) =>
      {| dataMode := mode;
         modeLoading := false;
         modeError := modeError s1;
         programData := programResponse;
         scenarioData := scenarioResponse;
         metricsData := metricsResponse;
         syntheticOverview := syntheticResponse;
         selectedProgram := selectedProgram s1 |}
  | inl message =>
      {| dataMode :=
           if DataMode_eqb mode (dataMode s) then dataMode s1 else mode;
         modeLoading := false;
         modeError :=
           Some ("Unable to load " +:+ modeName mode +:+ " data: " +:+ message)%string;
         programData := programData s1;
         scenarioData := scenarioData s1;
         metricsData := metricsData s1;
         syntheticOverview := syntheticOverview s1;
         selectedProgram := selectedProgram s1 |}
  end.

(** [handleModeSwitch]: nothing to do when the mode is already shown
    without an error. *)
Definition handleModeSwitch (mode : DataMode) (r : Responses)
    (s : DashboardState) : DashboardState :=
  if DataMode_eqb mode (dataMode s) && negb (bool_decide (is_Some (modeError s)))
  then s else loadModeData mode r s.

(** The effect on [programData, selectedProgram]: an id that is not among
    the programs is replaced by the first program's id, or by the empty
    string when there is no program. *)
Definition reconcileSelection (s : DashboardState) : DashboardState :=
  let chosen :=
    match programData s with
    | [] => EmptyString
    | first :: _ =>
        if existsb (fun p => String.eqb (program_id p) (selectedProgram s))
             (programData s)
        then selectedProgram s else program_id first
    end in
  {| dataMode := dataMode s;
     modeLoading := modeLoading s;
     modeError := modeError s;
     programData := programData s;
     scenarioData := scenarioData s;
     metricsData := metricsData s;
     syntheticOverview := syntheticOverview s;
     selectedProgram := chosen |}.

(** Which of the requests of a load ended in a rejection. *)
Definition requiredFailed (mode : DataMode) (r : Responses) : bool :=
  negb (bool_decide (rejections mode r = [])).

End ModeLoader.

(** ** The static prototype's page script: [selectProgram] *)

Module Prototype.

Record Program := {
  program_id : string;
  program_name : string;
  nilBaseline : Q;
}.

Record Athlete := {
  athlete_id : string;
  athlete_programId : string;
  behaviorId : string;
  athlete_name : string;
}.

Record Behavior := { behavior_id : string }.

Record ComplianceItem := { compliance_athleteId : string; riskLevel : string }.

Record Scenario := {
  scenario_programId : string;
  opponent : string;
  lineup : list string;
}.

Record AgentPacketSet := { agents_programId : string; finalValue : Q }.

(** [state.data], as [loadSimulationData] assembles it (leadership and
    revenue are rendered once and play no part in a selection). *)
Record SimulationData := {
  programs : list Program;
  athletes : list Athlete;
  behaviors : list Behavior;
  compliance : list ComplianceItem;
  agents : list AgentPacketSet;
  scenarios : list Scenario;
}.

(** The containers the script looks up with [document.querySelector]. *)
Inductive Selector :=
| constellation | constellationDetail | athleteCard | behaviorRings
| compliancePanel | agentArena | agentTranscript | court | scenarioControls
| momentumWave | revenueStreams | expansionHorizon.

(** Which containers the page has. *)
Definition Document := Selector -> bool.

(** What the page shows, each container named by the object its markup was
    rendered from. [constellationItems] and [revenueCards] tell whether
    the program buttons and the revenue cards have been created; the
    [active...] fields hold the id last given to [highlightProgram] and to
    [updateRevenueFocus] while buttons or cards existed: the class
    [is-active] is carried by exactly the buttons or cards whose
    [data-program] is that id, by none when no button or card has it, and
    by none at all when the field is [None]. *)
Record Views := {
  programDetailView : option Program;
  athleteCardView : option Athlete;
  behaviorRingsView : option Behavior;
  compliancePanelView : option ComplianceItem;
  scenarioView : option Scenario;
  agentsView : option AgentPacketSet;
  constellationItems : bool;
  activeConstellationItem : option string;
  revenueCards : bool;
  activeRevenueCard : option string;
}.

Record State := {
  data : SimulationData;
  selectedProgram : option Program;
  selectedAthlete : option Athlete;
  selectedScenario : option Scenario;
  views : Views;
}.

(** How a call ends for its caller: with [undefined], with a value, or
    with an exception. [Lookup] is the kind of value the specification
    asks of a query by id (section 4.6). *)
Inductive Lookup :=
| NotFound (id : string)
| Found (p : Program).

Inductive Completion :=
| ReturnsUndefined
| ReturnsValue (v : Lookup)
| Throws (error : string).

Definition updateProgramDetail (doc : Document) (program : Program)
    (v : Views) : Views :=
  if doc constellationDetail then
    {| programDetailView := Some program;
       athleteCardView := athleteCardView v;
       behaviorRingsView := behaviorRingsView v;
       compliancePanelView := compliancePanelView v;
       scenarioView := scenarioView v;
       agentsView := agentsView v;
       constellationItems := constellationItems v;
       activeConstellationItem := activeConstellationItem v;
       revenueCards := revenueCards v;
       activeRevenueCard := activeRevenueCard v |}
  else v.

Definition updateAthleteView (doc : Document) (d : SimulationData)
    (athlete : Athlete) (v : Views) : Views :=
  if doc athleteCard && doc behaviorRings && doc compliancePanel then
    let behavior :=
      List.find (fun b => String.eqb (behavior_id b) (behaviorId athlete))
        (behaviors d) in
    let complianceItem :=
      List.find (fun c => String.eqb (compliance_athleteId c) (athlete_id athlete))
        (compliance d) in
    {| programDetailView := programDetailView v;
       athleteCardView := Some athlete;
       behaviorRingsView :=
         match behavior with Some b => Some b | None => behaviorRingsView v end;
       compliancePanelView :=
         match complianceItem with
         | Some c => Some c
         | None => compliancePanelView v
         end;
       scenarioView := scenarioView v;
       agentsView := agentsView v;
       constellationItems := constellationItems v;
       activeConstellationItem := activeConstellationItem v;
       revenueCards := revenueCards v;
       activeRevenueCard := activeRevenueCard v |}
  else v.

Definition updateScenario (doc : Document) (scenario : Scenario)
    (v : Views) : Views :=
  if doc court && doc scenarioControls && doc momentumWave then
    {| programDetailView := programDetailView v;
       athleteCardView := athleteCardView v;
       behaviorRingsView := behaviorRingsView v;
       compliancePanelView := compliancePanelView v;
       scenarioView := Some scenario;
       agentsView := agentsView v;
       constellationItems := constellationItems v;
       activeConstellationItem := activeConstellationItem v;
       revenueCards := revenueCards v;
       activeRevenueCard := activeRevenueCard v |}
  else v.

(** [highlightProgram(id); updateAgents(id); updateRevenueFocus(id)]. *)
Definition focusProgram (doc : Document) (d : SimulationData)
    (programId : string) (v : Views) : Views :=
  {| programDetailView := programDetailView v;
     athleteCardView := athleteCardView v;
     behaviorRingsView := behaviorRingsView v;
     compliancePanelView := compliancePanelView v;
     scenarioView := scenarioView v;
     agentsView :=
       if doc agentArena && doc agentTranscript
       then List.find (fun set => String.eqb (agents_programId set) programId)
              (agents d)
       else agentsView v;
     constellationItems := constellationItems v;
     activeConstellationItem :=
       if constellationItems v then Some programId
       else activeConstellationItem v;
     revenueCards := revenueCards v;
     activeRevenueCard :=
       if revenueCards v then Some programId else activeRevenueCard v |}.

(** [selectProgram(programId)]: the new state and how the call ends. The
    records are well formed (every field the templates read is present),
    so rendering raises nothing. *)
Definition selectProgram (doc : Document) (programId : string) (st : State)
  : State * Completion :=
  match List.find (fun p => String.eqb (program_id p) programId)
          (programs (data st)) with
  | None => (st, ReturnsUndefined)
  | Some program =>
      let v1 := updateProgramDetail doc program (views st) in
      let athlete :=
        head (List.filter
                (fun a => String.eqb (athlete_programId a) (program_id program))
                (athletes (data st))) in
      let '(selAthlete, v2) :=
        match athlete with
        | Some a => (Some a, updateAthleteView doc (data st) a v1)
        | None => (selectedAthlete st, v1)
        end in
      let scenario :=
        List.find (fun s => String.eqb (scenario_programId s) (program_id program))
          (scenarios (data st)) in
      let '(selScenario, v3) :=
        match scenario with
        | Some s => (Some s, updateScenario doc s v2)
        | None => (selectedScenario st, v2)
        end in
      ({| data := data st;
          selectedProgram := Some program;
          selectedAthlete := selAthlete;
          selectedScenario := selScenario;
          views := focusProgram doc (data st) (program_id program) v3 |},
       ReturnsUndefined)
  end.

(** [renderPrograms]: the program buttons are created and the detail
    container shows its placeholder. *)
Definition renderPrograms (doc : Document) (v : Views) : Views :=
  if doc constellation && doc constellationDetail then
    {| programDetailView := None;
       athleteCardView := athleteCardView v;
       behaviorRingsView := behaviorRingsView v;
       compliancePanelView := compliancePanelView v;
       scenarioView := scenarioView v;
       agentsView := agentsView v;
       constellationItems := true;
       activeConstellationItem := None;
       revenueCards := revenueCards v;
       activeRevenueCard := activeRevenueCard v |}
  else v.

(** [renderRevenue]: the revenue cards are created anew, none active. *)
Definition renderRevenue (doc : Document) (v : Views) : Views :=
  if doc revenueStreams && doc expansionHorizon then
    {| programDetailView := programDetailView v;
       athleteCardView := athleteCardView v;
       behaviorRingsView := behaviorRingsView v;
       compliancePanelView := compliancePanelView v;
       scenarioView := scenarioView v;
       agentsView := agentsView v;
       constellationItems := constellationItems v;
       activeConstellationItem := activeConstellationItem v;
       revenueCards := true;
       activeRevenueCard := None |}
  else v.

Definition blankViews : Views :=
  {| programDetailView := None; athleteCardView := None;
     behaviorRingsView := None; compliancePanelView := None;
     scenarioView := None; agentsView := None;
     constellationItems := false; activeConstellationItem := None;
     revenueCards := false; activeRevenueCard := None |}.

(** The state once [loadSimulationData] has resolved, and [renderAll]. *)
Definition loaded (d : SimulationData) : State :=
  {| data := d; selectedProgram := None; selectedAthlete := None;
     selectedScenario := None; views := blankViews |}.

Definition withViews (st : State) (v : Views) : State :=
  {| data := data st; selectedProgram := selectedProgram st;
     selectedAthlete := selectedAthlete st;
     selectedScenario := selectedScenario st; views := v |}.

Definition renderAll (doc : Document) (st : State) : State :=
  let st1 := withViews st (renderPrograms doc (views st)) in
  let st2 :=
    match programs (data st1) with
    | firstProgram :: _ => (selectProgram doc (program_id firstProgram) st1).1
    | [] => st1
    end in
  withViews st2 (renderRevenue doc (views st2)).

(** The ids of the roster. *)
Definition roster (st : State) : list string :=
  map program_id (programs (data st)).

End Prototype.

(** ** The valuation formula, as the specification words it *)

Module Engine.

Section Valuation.

(** Modelled from the spec: the fixed weight table of the uplift
    (section 4.3, "weighted uplift from the three scores"; section 9
    leaves the constants to configuration). The calculator
    (api/app/synthetic/engine.py) is not part of the sources. *)
Variables wRelationship wAuthenticity wFairness : Q.

(** Modelled from the spec: the weighted uplift from the three scores
    (section 4.3); the calculator is not part of the sources. *)
Definition uplift (relationshipScore authenticityScore fairnessIndex : Q) : Q :=
  wRelationship * relationshipScore
  + wAuthenticity * authenticityScore
  + wFairness * fairnessIndex.

(** Modelled from the spec: [computeValuation] (section 4.3, "baseline x
    (1 + weighted uplift from the three scores), floored at zero"); the
    calculator is not part of the sources. *)
Definition computeValuation
    (relationshipScore authenticityScore fairnessIndex staticBaseline : Q) : Q :=
  Qmax 0 (staticBaseline
          * (1 + uplift relationshipScore authenticityScore fairnessIndex)).

End Valuation.

(** Modelled from the spec: a top-level score as the fixed-weight linear
    combination of its five sub-scores (section 3, "relationshipScore =
    weighted sum (weights sum to 1)"; section 4.3, "fixed-weight linear
    combination"); the calculator is not part of the sources. *)
Fixpoint weightedSum (weights subscores : list Q) : Q :=
  match weights, subscores with
  | w :: ws, x :: xs => w * x + weightedSum ws xs
  | _, _ => 0
  end.

(** Modelled from the spec: a score-type value as the engine hands it on.
    Sections 3 and 8 declare the range [0, 1] for the sub-scores, for
    [fairnessIndex] and [complianceRisk] and for every agent metric; the
    mechanism that keeps a value there is the clip (section 4.2, "clipped
    to the declared bound", "saturating, not wrapping"; section 4.3,
    "normalized", "capped at 1"; section 4.4, "Each metric clipped to
    [0,1]"). The formulas that produce the raw value are given neither by
    the sources nor by the specification: the raw value is the argument.
    The calculator and the projector are not part of the sources. *)
Definition scoreValue (raw : Q) : Q := Series.clip 0 1 raw.

End Engine.

(** ** Notions used in the statements *)

Module Notions.

(** The last [n] elements of a list. *)
Definition keepLast {A} (n : nat) (l : list A) : list A :=
  drop (length l - n) l.

(** Membership of a closed interval. *)
Definition within (lo hi x : Q) : Prop := lo <= x /\ x <= hi.

(** Every stored overlay carries a value in [0, 1]. *)
Definition overlaysBounded (st : Dashboard.TickerState) : Prop :=
  map_Forall (fun (_ : string) o => within 0 1 (Dashboard.value o))
    (Dashboard.agentOverlays st).

(** The sum of a weight table. *)
Definition total (weights : list Q) : Q := foldr Qplus 0 weights.

(** What is kept while the entries of the agents are collected: no agent
    twice, no agent without an entry. *)
Definition wellFormedEntries
    (m : list (string * list Dashboard.AgentEntry)) : Prop :=
  NoDup (map fst m) /\ Forall (fun p => p.2 <> []) m.

(** Descending order of a score. *)
Definition descending {A} (score : A -> Q) (a b : A) : Prop :=
  score b <= score a.

(** The value of an overlay that is live at [now]. *)
Definition liveValue (agentOverlays : gmap string Dashboard.Overlay) (now : Z)
    (overlayKey : string) : option Q :=
  match agentOverlays !! overlayKey with
  | Some overlay =>
      if (now <? Dashboard.expiresAt overlay)%Z
      then Some (Dashboard.value overlay) else None
  | None => None
  end.

End Notions.

(** ** Concrete data used by the examples below *)

Module Samples.

Definition packet (text : string) : AgentStream.AgentPacket :=
  {| AgentStream.ptype := AgentStream.evidence; AgentStream.payload := text |}.


Section DashboardSamples.
Import Dashboard.

Definition guard : Athlete :=
  {| athlete_id := "ath-1"; athlete_name := "Guard"; position := "G";
     archetype := "Floor General" |}.

Definition forward : Athlete :=
  {| athlete_id := "ath-2"; athlete_name := "Forward"; position := "F";
     archetype := "Two-Way Wing" |}.

Definition socialMetrics (v : Q) : gmap string Q :=
  {[ "engagement_authenticity"%string := v ]}.

Definition auburn : Program :=
  {| program_id := "auburn"; program_name := "Auburn"; conference := "SEC";
     phase := "Phase 1"; nil_baseline := 4200000;
     community_highlights := [] |}.

Definition sampleMetrics : Metrics :=
  {| valuation_accuracy := 9 # 10; demographic_parity := 9 # 10;
     athlete_earnings_lift := 1 # 10; compliance_cost_reduction := 1 # 10 |}.

(** One program with two athletes, each carrying metrics of the
    social-media agent. *)
Definition overview0 : SyntheticOverview :=
  {| seed := 4242; generated_at := 0; overview_metrics := sampleMetrics;
     programs := [
       {| program := auburn;
          athletes := [
            {| athlete := guard;
               agent_metrics := [("social_media"%string, socialMetrics (1 # 2))] |};
            {| athlete := forward;
               agent_metrics := [("social_media"%string, socialMetrics (1 # 2))] |} ] |} ] |}.

Definition drawsLow : nat -> Q := fun _ => 0.
Definition drawsHigh : nat -> Q := fun _ => 9 # 10.

(** Draws that agree with [drawsLow] on the first nine and differ after. *)
Definition drawsLowThenHigh : nat -> Q :=
  fun i => if (i <? 9)%nat then 0 else 9 # 10.

Definition clock0 : nat -> Z := fun t => (1000 + 15000 * Z.of_nat t)%Z.

Definition entries0 : list (string * list AgentEntry) :=
  agentEntriesByAgent (Some overview0).

End DashboardSamples.

Section LoaderSamples.
Import Dashboard ModeLoader.

Definition gonzaga : Program :=
  {| program_id := "gonzaga"; program_name := "Gonzaga"; conference := "WCC";
     phase := "Phase 1"; nil_baseline := 3100000;
     community_highlights := [] |}.

(** The dashboard showing simulation data for one program. *)
Definition state0 : DashboardState :=
  {| dataMode := simulation; modeLoading := false; modeError := None;
     programData := [auburn]; scenarioData := []; metricsData := None;
     syntheticOverview := None; selectedProgram := "auburn" |}.

Definition answered {A} (v : A) (at_ : nat) : Settled A :=
  {| outcome := Responded true (inr v); settledAt := at_ |}.

Definition refused {A} (at_ : nat) : Settled A :=
  {| outcome := Responded false (inl "not read"%string); settledAt := at_ |}.

(** The programs and metrics requests succeed, the scenarios request is
    answered with an error status. *)
Definition scenariosDown : Responses :=
  {| programsFetch := answered [gonzaga] 1;
     scenariosFetch := refused 2;
     metricsFetch := answered sampleMetrics 3;
     syntheticFetch := answered overview0 4 |}.

(** Only the metrics request fails. *)
Definition metricsDown : Responses :=
  {| programsFetch := answered [gonzaga] 1;
     scenariosFetch := answered [] 2;
     metricsFetch := refused 3;
     syntheticFetch := answered overview0 4 |}.

Definition allUp : Responses :=
  {| programsFetch := answered [gonzaga] 1;
     scenariosFetch := answered [] 2;
     metricsFetch := answered sampleMetrics 3;
     syntheticFetch := answered overview0 4 |}.

End LoaderSamples.

Section PrototypeSamples.
Import Prototype.

Definition kansas : Prototype.Program :=
  {| Prototype.program_id := "kansas"; Prototype.program_name := "Kansas";
     nilBaseline := 5000000 |}.

Definition stanford : Prototype.Program :=
  {| Prototype.program_id := "stanford"; Prototype.program_name := "Stanford";
     nilBaseline := 2500000 |}.

Definition center : Prototype.Athlete :=
  {| Prototype.athlete_id := "ks-5"; athlete_programId := "kansas";
     behaviorId := "b-1"; Prototype.athlete_name := "Center" |}.

Definition homeGame : Prototype.Scenario :=
  {| scenario_programId := "kansas"; Prototype.opponent := "Baylor";
     Prototype.lineup := ["ks-5"%string] |}.

(** Two programs; every athlete and scenario belongs to the first. *)
Definition data0 : SimulationData :=
  {| Prototype.programs := [kansas; stanford];
     Prototype.athletes := [center];
     behaviors := [ {| behavior_id := "b-1" |} ];
     compliance := [];
     agents := [];
     scenarios := [homeGame] |}.

Definition fullPage : Document := fun _ => true.

(** The page after its first render: the first program is selected. *)
Definition rendered0 : State := renderAll fullPage (loaded data0).

End PrototypeSamples.

End Samples.

(** ** AgentStream.tsx: the connection status *)

Module Socket.
Import AgentStream.

Inductive Status := connecting | opened | complete | error.

(** The state of the component: the status beside the buffer. *)
Record Connection := {
  status : Status;
  stream : StreamState;
}.

(** What the socket reports to its four handlers. *)
Inductive SocketEvent :=
| Opened
| Closed
| Errored
| Message (frame : Parsed).

(** The start of the effect, also run again when the program, the mode or
    the callback changes: [setMessages([]); setStatus('connecting')]. *)
Definition connect (c : Connection) : Connection :=
  {| status := connecting;
     stream := {| messages := []; console := console (stream c) |} |}.

(** [onopen], [onclose], [onerror] and [onmessage]. *)
Definition handle (c : Connection) (e : SocketEvent) : Connection :=
  match e with
  | Opened => {| status := opened; stream := stream c |}
  | Closed =>
      {| status := match status c with error => error | _ => complete end;
         stream := stream c |}
  | Errored => {| status := error; stream := stream c |}
  | Message frame => {| status := status c; stream := onmessage (stream c) frame |}
  end.

Definition handleAll (c : Connection) (events : list SocketEvent) : Connection :=
  foldl handle c events.

(** The frames among the events, in order. *)
Definition framesOf (events : list SocketEvent) : list Parsed :=
  omap (fun e => match e with Message f => Some f | _ => None end) events.

Definition isOpened (e : SocketEvent) : bool :=
  match e with Opened => true | _ => false end.

End Socket.

(** ** Number and time formatting *)

Module Format.

Definition Qltb (x y : Q) : bool := negb (Qle_bool y x).

Fixpoint zeros (n : nat) : string :=
  match n with
  | O => EmptyString
  | S n' => ("0" +:+ zeros n')%string
  end.

(** The integer [n] of [Number.prototype.toFixed]: the one for which
    [n / 10^digits] is closest to the magnitude of [x], the larger one on a
    tie. *)
Definition toFixedUnits (digits : nat) (x : Q) : Z :=
  Qfloor (Qabs x * inject_Z (10 ^ Z.of_nat digits) + (1 # 2)).

(** [x.toFixed(digits)] for a number below 10^21 in magnitude: the sign,
    the decimal digits of [n] padded with zeros to [digits + 1] places, and
    a point before the last [digits] of them. *)
Definition toFixed (digits : nat) (x : Q) : string :=
  let m0 := pretty (Z.to_N (toFixedUnits digits x)) in
  let m := (zeros (digits + 1 - String.length m0) +:+ m0)%string in
  let k := String.length m in
  let a := String.substring 0 (k - digits) m in
  let b := String.substring (k - digits) digits m in
  ((if Qltb x 0 then "-" else EmptyString)
   +:+ a +:+ (if (digits =? 0)%nat then EmptyString else "." +:+ b))%string.

(** [formatDiff(value, isPercent)] of AgentStream.tsx. *)
Definition formatDiff (value : Q) (isPercent : bool) : string :=
  let scaled := if isPercent then value * 100 else value in
  if Qltb (Qabs scaled) (if isPercent then 5 # 100 else 5 # 10000)
  then "±0"%string
  else
    let formatted := if isPercent then toFixed 1 scaled else toFixed 3 scaled in
    ((if Qle_bool 0 scaled then "+" else EmptyString)
     +:+ formatted +:+ (if isPercent then "%" else EmptyString))%string.

(** The number and the unit that [formatTimeAgo] prints. *)
Definition timeAgoParts (nowMs : Z) (timestamp : Q) : Z * string :=
  let now := inject_Z nowMs / 1000 in
  let diff := Qmax 1 (now - timestamp) in
  if Qltb diff 60 then (Qfloor diff, "s"%string)
  else if Qltb diff 3600 then (Qfloor (diff / 60), "m"%string)
  else if Qltb diff 86400 then (Qfloor (diff / 3600), "h"%string)
  else (Qfloor (diff / 86400), "d"%string).

(** [formatTimeAgo(timestamp)] of ExperienceDashboard.tsx, at the reading
    [nowMs] of [Date.now()]. *)
Definition formatTimeAgo (nowMs : Z) (timestamp : Q) : string :=
  let parts := timeAgoParts nowMs timestamp in
  (pretty parts.1 +:+ parts.2 +:+ " ago")%string.

End Format.

(** ** ExperienceDashboard.tsx: the agent cards *)

Module AgentCards.
Import Dashboard.

(** [agentEntriesByAgent[config.id] ?? []] *)
Definition entriesOf (entriesByAgent : list (string * list AgentEntry))
    (agentId : string) : list AgentEntry :=
  match List.find (fun p => String.eqb p.1 agentId) entriesByAgent with
  | Some p => p.2
  | None => []
  end.

(** One step of the [config.metrics.forEach]: an overlay that exists and
    has not expired replaces the metric. *)
Definition applyOverlay (agentId athlete : string)
    (agentOverlays : gmap string Overlay) (now : Z)
    (metricsWithOverlay : gmap string Q) (metric : MetricOption)
  : gmap string Q :=
  match agentOverlays !! overlayKeyOf agentId athlete (key metric) with
  | Some overlay =>
      if (now <? expiresAt overlay)%Z
      then <[key metric := value overlay]> metricsWithOverlay
      else metricsWithOverlay
  | None => metricsWithOverlay
  end.

(** The metrics an entry is shown with. *)
Definition metricsWithOverlay (config : AgentConfig)
    (agentOverlays : gmap string Overlay) (now : Z) (entry : AgentEntry)
  : gmap string Q :=
  foldl (applyOverlay (id config) (athleteId entry) agentOverlays now)
    (entry_metrics entry) (metrics config).

Definition enrich (config : AgentConfig) (agentOverlays : gmap string Overlay)
    (now : Z) (entry : AgentEntry) : AgentEntry :=
  {| athleteId := athleteId entry;
     programName := programName entry;
     entry_athlete := entry_athlete entry;
     entry_metrics := metricsWithOverlay config agentOverlays now entry |}.

(** [entry.metrics[config.emphasis] ?? 0] *)
Definition emphasisOf (config : AgentConfig) (entry : AgentEntry) : Q :=
  default 0 (entry_metrics entry !! emphasis config).

(** [Array.prototype.sort] with the comparator [(a, b) => score(b) -
    score(a)]: descending, and stable, so an element goes behind every
    element that is not smaller. *)
Fixpoint insertDesc {A} (score : A -> Q) (x : A) (sorted : list A) : list A :=
  match sorted with
  | [] => [x]
  | y :: rest =>
      if Qle_bool (score x) (score y) then y :: insertDesc score x rest
      else x :: y :: rest
  end.

Definition sortDesc {A} (score : A -> Q) (l : list A) : list A :=
  foldl (fun acc x => insertDesc score x acc) [] l.

(** [enrichedEntries.filter(entry => Object.keys(entry.metrics).length > 0)] *)
Definition candidates (config : AgentConfig)
    (entriesByAgent : list (string * list AgentEntry))
    (agentOverlays : gmap string Overlay) (now : Z) : list AgentEntry :=
  List.filter (fun entry => (0 <? size (entry_metrics entry))%nat)
    (map (enrich config agentOverlays now)
       (entriesOf entriesByAgent (id config))).

(** [enrichedEntries.filter(...).sort(...).slice(0, 4)] *)
Definition ranked (config : AgentConfig)
    (entriesByAgent : list (string * list AgentEntry))
    (agentOverlays : gmap string Overlay) (now : Z) : list AgentEntry :=
  take 4
    (sortDesc (emphasisOf config)
       (candidates config entriesByAgent agentOverlays now)).

(** [activeHighlight && now - activeHighlight.timestamp < 6000] *)
Definition highlightActive (agentHighlights : gmap string Highlight)
    (now : Z) (agentId : string) : bool :=
  match agentHighlights !! agentId with
  | Some h => (now - timestamp h <? 6000)%Z
  | None => false
  end.

(** [highlightActive && activeHighlight?.athleteId === entry.athleteId] *)
Definition isHighlighted (agentHighlights : gmap string Highlight)
    (now : Z) (agentId : string) (entry : AgentEntry) : bool :=
  highlightActive agentHighlights now agentId
  && match agentHighlights !! agentId with
     | Some h => String.eqb (highlight_athleteId h) (athleteId entry)
     | None => false
     end.

(** The [useMemo] of [highlightAthleteIds]: the athletes of all stored
    highlights, whatever their age; an empty id is not added. *)
Definition highlightAthleteIds (agentHighlights : gmap string Highlight)
  : gset string :=
  list_to_set
    (List.filter (fun a => negb (String.eqb a EmptyString))
       (map (fun kv : string * Highlight => highlight_athleteId kv.2)
          (map_to_list agentHighlights))).

End AgentCards.

(** ** ExperienceDashboard.tsx: the live feeds *)

Module Feeds.

Record FeedItem := {
  feed_id : string;
  category : string;
  source : string;
  headline : string;
  snippet : string;
  sentiment : Q;
  impact_score : Q;
  feed_timestamp : Q;
  tags : list string;
  athlete_id : option string;
  athlete_name : option string;
}.

(** [FeedDisplayItem]: the item with the names it is shown under. *)
Record FeedDisplayItem := {
  item : FeedItem;
  programName : string;
  athleteName : string;
}.

(** What the two nested [forEach] of [feedBuckets] visit, in order: one
    athlete summary of one program, with its feed items. *)
Record AthleteFeed := {
  feed_program : string;
  feed_athlete : string;
  feed_items : list FeedItem;
}.

(** The keys the [buckets] object is created with. *)
Definition bucketNames : list string :=
  ["social"; "news"; "performance"; "community"; "compliance"; "signal";
   "other"]%string.

(** The property names every object inherits from [Object.prototype]: for
    these [buckets[name]] is truthy although [buckets] has no such bucket. *)
Definition objectPrototypeNames : list string :=
  ["constructor"; "hasOwnProperty"; "isPrototypeOf"; "propertyIsEnumerable";
   "toLocaleString"; "toString"; "valueOf"; "__proto__"; "__defineGetter__";
   "__defineSetter__"; "__lookupGetter__"; "__lookupSetter__"]%string.

Definition emptyBuckets : gmap string (list FeedDisplayItem) :=
  list_to_map (map (fun name => (name, [])) bucketNames).

Definition display (feed : AthleteFeed) (it : FeedItem) : FeedDisplayItem :=
  {| item := it;
     programName := feed_program feed;
     athleteName := default (feed_athlete feed) (athlete_name it) |}.

(** [const category = buckets[item.category] ? item.category : 'other';
    buckets[category].push(...)]. [None] is the TypeError of a [push] on an
    inherited property. *)
Definition place (buckets : gmap string (list FeedDisplayItem))
    (d : FeedDisplayItem) : option (gmap string (list FeedDisplayItem)) :=
  match buckets !! category (item d) with
  | Some bucket => Some (<[category (item d) := bucket ++ [d]]> buckets)
  | None =>
      if bool_decide (category (item d) ∈ objectPrototypeNames) then None
      else Some (<["other"%string
                   := default [] (buckets !! "other"%string) ++ [d]]> buckets)
  end.

(** The bucket that receives an item whose category names no inherited
    property: its own category when that is one of the seven keys,
    ['other'] otherwise. *)
Definition bucketOf (d : FeedDisplayItem) : string :=
  if bool_decide (category (item d) ∈ bucketNames) then category (item d)
  else "other"%string.

Fixpoint placeAll (buckets : gmap string (list FeedDisplayItem))
    (ds : list FeedDisplayItem) : option (gmap string (list FeedDisplayItem)) :=
  match ds with
  | [] => Some buckets
  | d :: rest =>
      match place buckets d with
      | Some buckets' => placeAll buckets' rest
      | None => None
      end
  end.

(** Every item of every athlete, in the order the loops visit them. *)
Definition displayItems (feeds : list AthleteFeed) : list FeedDisplayItem :=
  flat_map (fun feed => map (display feed) (feed_items feed)) feeds.

Definition newestFirst (l : list FeedDisplayItem) : list FeedDisplayItem :=
  AgentCards.sortDesc (fun d => feed_timestamp (item d)) l.

(** The [useMemo] of [feedBuckets] for an overview that is present: fill the
    buckets, then sort each one by descending timestamp. *)
Definition feedBuckets (feeds : list AthleteFeed)
  : option (gmap string (list FeedDisplayItem)) :=
  match placeAll emptyBuckets (displayItems feeds) with
  | Some buckets => Some (newestFirst <$> buckets)
  | None => None
  end.

Record FeedSection := { title : string; categories : list string }.

(** The constant table [feedSections] (descriptions are display text). *)
Definition feedSections : list FeedSection := [
  {| title := "Social & Community"; categories := ["social"; "community"]%string |};
  {| title := "News & Market Signals"; categories := ["news"; "signal"]%string |};
  {| title := "Performance & Compliance";
     categories := ["performance"; "compliance"]%string |}
].

(** [section.categories.flatMap(category => feedBuckets[category] ?? [])] *)
Definition sectionItems (buckets : gmap string (list FeedDisplayItem))
    (section : FeedSection) : list FeedDisplayItem :=
  flat_map (fun c => default [] (buckets !! c)) (categories section).

(** [items.slice(0, 6)] *)
Definition topItems (buckets : gmap string (list FeedDisplayItem))
    (section : FeedSection) : list FeedDisplayItem :=
  take 6 (sectionItems buckets section).

(** [item.athlete_id ? highlightAthleteIds.has(item.athlete_id) : false] *)
Definition feedHighlighted (ids : gset string) (d : FeedDisplayItem) : bool :=
  match athlete_id (item d) with
  | Some a => negb (String.eqb a EmptyString) && bool_decide (a ∈ ids)
  | None => false
  end.

End Feeds.

(** ** ExperienceDashboard.tsx: the entry map as a JavaScript object *)

Module AgentMap.
Import Dashboard.

(** The value of a string of decimal digits. *)
Fixpoint digitsValue (s : string) (acc : N) : option N :=
  match s with
  | EmptyString => Some acc
  | String a rest =>
      if (48 <=? Ascii.N_of_ascii a)%N && (Ascii.N_of_ascii a <=? 57)%N
      then digitsValue rest (acc * 10 + (Ascii.N_of_ascii a - 48))%N
      else None
  end.

(** A property name that is an array index: a decimal numeral without a
    leading zero, below 2^32 - 1. *)
Definition arrayIndex (s : string) : option N :=
  match s with
  | EmptyString => None
  | String a rest =>
      if (Ascii.N_of_ascii a =? 48)%N && negb (String.eqb rest EmptyString)
      then None
      else
        match digitsValue s 0 with
        | Some n => if (n <? 4294967295)%N then Some n else None
        | None => None
        end
  end.

(** Where [Object.entries] lists a property that is new to the object:
    array indices come first, in ascending order, and every other name
    follows in order of creation. *)
Fixpoint insertIndex (n : N) (k : string) (v : list AgentEntry)
    (m : list (string * list AgentEntry)) : list (string * list AgentEntry) :=
  match m with
  | [] => [(k, v)]
  | (k', v') :: rest =>
      match arrayIndex k' with
      | Some n' =>
          if (n' <? n)%N then (k', v') :: insertIndex n k v rest
          else (k, v) :: m
      | None => (k, v) :: m
      end
  end.

Definition insertKey (k : string) (v : list AgentEntry)
    (m : list (string * list AgentEntry)) : list (string * list AgentEntry) :=
  match arrayIndex k with
  | Some n => insertIndex n k v m
  | None => m ++ [(k, v)]
  end.

Definition hasKey (k : string) (m : list (string * list AgentEntry)) : bool :=
  existsb (fun p => String.eqb p.1 k) m.

(** [if (!map[agentId]) map[agentId] = []; map[agentId].push(entry)] on the
    object [map], listed as [Object.entries] lists it. An own property holds
    an array, which is truthy. A name that [map] only inherits from
    [Object.prototype] reads as a function or an object, which is truthy
    too: nothing is assigned, and [push] is not a function - the TypeError
    is [None]. *)
Definition pushEntryJs (agentId : string) (e : AgentEntry)
    (m : list (string * list AgentEntry))
  : option (list (string * list AgentEntry)) :=
  if hasKey agentId m then Some (pushEntry agentId e m)
  else if bool_decide (agentId ∈ Feeds.objectPrototypeNames) then None
  else Some (insertKey agentId [e] m).

(** The [useMemo] that builds [agentEntriesByAgent], with the exception its
    innermost statement can throw. *)
Definition agentEntriesByAgentJs (syntheticOverview : option SyntheticOverview)
  : option (list (string * list AgentEntry)) :=
  match syntheticOverview with
  | None => Some []
  | Some ov =>
      foldl (fun map programSummary =>
        foldl (fun map athleteSummary =>
          foldl (fun map (am : string * gmap string Q) =>
            map ≫= pushEntryJs am.1
                     {| athleteId := athlete_id (athlete athleteSummary);
                        programName := program_name (program programSummary);
                        entry_athlete := athlete athleteSummary;
                        entry_metrics := am.2 |})
            map (agent_metrics athleteSummary))
          map (athletes programSummary))
        (Some []) (programs ov)
  end.

(** The agent and the entry of every [push] the three loops reach, in
    order. *)
Definition pushes (syntheticOverview : option SyntheticOverview)
  : list (string * AgentEntry) :=
  match syntheticOverview with
  | None => []
  | Some ov =>
      flat_map (fun programSummary =>
        flat_map (fun athleteSummary =>
          map (fun am : string * gmap string Q =>
                 (am.1,
                  {| athleteId := athlete_id (athlete athleteSummary);
                     programName := program_name (program programSummary);
                     entry_athlete := athlete athleteSummary;
                     entry_metrics := am.2 |}))
            (agent_metrics athleteSummary))
          (athletes programSummary))
        (programs ov)
  end.

End AgentMap.

(** ** NarrativePanel.tsx *)

Module Narrative.
Import ModeLoader.

(** [narrative] is [None] when the answer had no [narrative] field and
    [undefined] was stored. *)
Record PanelState := {
  loading : bool;
  error : option string;
  narrative : option string;
}.

Definition initialPanel : PanelState :=
  {| loading := false; error := None; narrative := Some EmptyString |}.

(** The effect on [persona, mode]. *)
Definition resetPanel (s : PanelState) : PanelState :=
  {| loading := loading s; error := None; narrative := Some EmptyString |}.

(** [fetchNarrative], from the click to the state after its [finally]. The
    body of the answer is the value of [data.narrative], or the message of
    whatever [response.json()] or the field access threw. *)
Definition fetchNarrative (answer : Fetched (option string)) (s : PanelState)
  : PanelState :=
  match required "Failed to generate narrative" answer with
  | inr story => {| loading := false; error := None; narrative := story |}
  | inl message =>
      {| loading := false; error := Some message; narrative := narrative s |}
  end.

Definition fetchAll (s : PanelState) (answers : list (Fetched (option string)))
  : PanelState :=
  foldl (fun s answer => fetchNarrative answer s) s answers.

(** The stories of the answers that succeeded, in order. *)
Definition stories (answers : list (Fetched (option string)))
  : list (option string) :=
  omap (fun answer =>
          match required "Failed to generate narrative" answer with
          | inr story => Some story
          | inl _ => None
          end) answers.

(** The message of an answer that failed. *)
Definition failure (answer : Fetched (option string)) : option string :=
  match required "Failed to generate narrative" answer with
  | inl message => Some message
  | inr _ => None
  end.

End Narrative.

(** ** The static prototype: loading the data and the first render *)

Module Boot.
Import ModeLoader Prototype.

(** How the [fetch] of each of the eight files ended. The leadership and
    revenue files are kept as their text: they are rendered once and play no
    part in a selection. *)
Record Files := {
  leadershipFile : Settled string;
  programsFile : Settled (list Program);
  athletesFile : Settled (list Athlete);
  behaviorsFile : Settled (list Behavior);
  complianceFile : Settled (list ComplianceItem);
  agentsFile : Settled (list AgentPacketSet);
  scenariosFile : Settled (list Scenario);
  revenueFile : Settled string;
}.

(** [loadJSON(path)] *)
Definition loadJSON {A} (path : string) (f : Settled A) : string + A :=
  required ("Failed to load " +:+ path)%string (outcome f).

(** The rejections among the eight requests, in array order. *)
Definition fileRejections (files : Files) : list (nat * string) :=
  omap (fun x : option (nat * string) => x)
    [ rejectionOf (settledAt (leadershipFile files))
        (loadJSON "./data/leadership.json" (leadershipFile files));
      rejectionOf (settledAt (programsFile files))
        (loadJSON "./data/programs.json" (programsFile files));
      rejectionOf (settledAt (athletesFile files))
        (loadJSON "./data/athletes.json" (athletesFile files));
      rejectionOf (settledAt (behaviorsFile files))
        (loadJSON "./data/behaviors.json" (behaviorsFile files));
      rejectionOf (settledAt (complianceFile files))
        (loadJSON "./data/compliance.json" (complianceFile files));
      rejectionOf (settledAt (agentsFile files))
        (loadJSON "./data/agent-evidence.json" (agentsFile files));
      rejectionOf (settledAt (scenariosFile files))
        (loadJSON "./data/scenarios.json" (scenariosFile files));
      rejectionOf (settledAt (revenueFile files))
        (loadJSON "./data/revenue.json" (revenueFile files)) ].

(** [loadSimulationData()]: the assembled data, or the first rejection. *)
Definition loadSimulationData (files : Files) : string + SimulationData :=
  match loadJSON "./data/leadership.json" (leadershipFile files),
        loadJSON "./data/programs.json" (programsFile files),
        loadJSON "./data/athletes.json" (athletesFile files),
        loadJSON "./data/behaviors.json" (behaviorsFile files),
        loadJSON "./data/compliance.json" (complianceFile files),
        loadJSON "./data/agent-evidence.json" (agentsFile files),
        loadJSON "./data/scenarios.json" (scenariosFile files),
        loadJSON "./data/revenue.json" (revenueFile files) with
  | inr _, inr p, inr a, inr b, inr c, inr ag, inr sc, inr _ =>
      inr {| programs := p; athletes := a; behaviors := b; compliance := c;
             agents := ag; scenarios := sc |}
  | _, _, _, _, _, _, _, _ => inl (earliestRejection (fileRejections files))
  end.

(** The page after the [DOMContentLoaded] handler: [pageState] is [None]
    while [state.data] is still null. *)
Record Page := {
  pageState : option State;
  notice : bool;
  errors : list string;
}.

(** The [DOMContentLoaded] handler; [hasApp] tells whether the element
    [app] exists. *)
Definition boot (doc : Document) (hasApp : bool) (files : Files) : Page :=
  match loadSimulationData files with
  | inr d =>
      {| pageState := Some (renderAll doc (loaded d)); notice := false;
         errors := [] |}
  | inl message =>
      {| pageState := None; notice := hasApp; errors := [message] |}
  end.

End Boot.

(** ** Sample feeds *)

Module FeedSamples.
Import Feeds.

Definition post (name cat : string) (time : Q) : FeedItem :=
  {| feed_id := name; category := cat; source := "wire"; headline := name;
     snippet := name; sentiment := 0; impact_score := 0;
     feed_timestamp := time; tags := [];
     athlete_id := Some "ath-1"%string; athlete_name := None |}.

(** Six social posts of one athlete and a newer community post. *)
Definition busyFeed : list AthleteFeed :=
  [ {| feed_program := "Auburn"; feed_athlete := "Guard";
       feed_items := [ post "s1" "social" 1; post "s2" "social" 2;
                       post "s3" "social" 3; post "s4" "social" 4;
                       post "s5" "social" 5; post "s6" "social" 6;
                       post "c1" "community" 100 ] |} ].

Definition socialSection : FeedSection :=
  {| title := "Social & Community"; categories := ["social"; "community"]%string |}.

End FeedSamples.

(** ** A sample page with a complete program *)

Module PageSamples.
Import Prototype.

(** The data of [Samples.data0] with a compliance item for the athlete of
    the first program, which makes that program complete. *)
Definition data1 : SimulationData :=
  {| programs := programs Samples.data0;
     athletes := athletes Samples.data0;
     behaviors := behaviors Samples.data0;
     compliance := [ {| compliance_athleteId := "ks-5"; riskLevel := "low" |} ];
     agents := agents Samples.data0;
     scenarios := scenarios Samples.data0 |}.

End PageSamples.

(** * Properties *)

(** ** Clamping and index arithmetic *)

Section JsFacts.
Import Js.

Lemma clamp01_range x : 0 <= clamp01 x /\ clamp01 x <= 1.
Proof.
  unfold clamp01. split.
  - apply Q.min_glb; [lra | apply Q.le_max_l].
  - apply Q.le_min_l.
Qed.

Lemma clamp01_high x : 1 <= x -> clamp01 x == 1.
Proof.
  intros H. unfold clamp01. apply Q.min_l.
  apply Qle_trans with x; [exact H | apply Q.le_max_r].
Qed.

Lemma clamp01_low x : x <= 0 -> clamp01 x == 0.
Proof.
  intros H. unfold clamp01. rewrite (Q.max_l 0 x H). apply Q.min_r. lra.
Qed.

Lemma clamp01_mid x : 0 <= x -> x <= 1 -> clamp01 x == x.
Proof.
  intros H0 H1. unfold clamp01. rewrite (Q.max_r 0 x H0).
  apply Q.min_r. exact H1.
Qed.

Lemma floorScale_range r n :
  unit_draw r -> (0 < n)%nat -> (0 <= floorScale r n < Z.of_nat n)%Z.
Proof.
  intros [H0 H1] Hn. unfold floorScale.
  assert (Hn' : 0 < inject_Z (Z.of_nat n)).
  { change 0 with (inject_Z 0). rewrite <- Zlt_Qlt. lia. }
  split.
  - change 0%Z with (Qfloor 0). apply Qfloor_resp_le. nra.
  - rewrite Zlt_Qlt. eapply Qle_lt_trans; [apply Qfloor_le |]. nra.
Qed.

(** The draw [i / n] lands on index [i]. *)
Lemma floorScale_exact i n :
  (0 < n)%nat ->
  floorScale (Z.of_nat i # Pos.of_nat n) n = Z.of_nat i.
Proof.
  intros Hn. unfold floorScale.
  assert (E : (Z.of_nat i # Pos.of_nat n) * inject_Z (Z.of_nat n)
              == inject_Z (Z.of_nat i)).
  { unfold Qeq, Qmult, inject_Z. simpl.
    rewrite Pos.mul_1_r, Z.mul_1_r. f_equal.
    rewrite <- (Nat2Pos.id n) at 1 by lia. apply Znat.positive_nat_Z. }
  rewrite E. apply Qfloor_Z.
Qed.

Lemma ratio_unit_draw i n :
  (i < n)%nat -> unit_draw (Z.of_nat i # Pos.of_nat n).
Proof.
  intros Hi. unfold unit_draw, Qle, Qlt. simpl.
  rewrite Z.mul_1_r.
  assert (Z.pos (Pos.of_nat n) = Z.of_nat n) as ->.
  { rewrite <- (Nat2Pos.id n) at 2 by lia. symmetry. apply Znat.positive_nat_Z. }
  lia.
Qed.

Lemma index_in_range {A} (xs : list A) (z : Z) :
  (0 <= z < Z.of_nat (length xs))%Z -> is_Some (index xs z).
Proof.
  intros Hz. unfold index.
  destruct (Z.ltb_spec z 0); [lia |].
  apply lookup_lt_is_Some. lia.
Qed.

Lemma index_of_nat {A} (xs : list A) (i : nat) :
  index xs (Z.of_nat i) = xs !! i.
Proof.
  unfold index. destruct (Z.ltb_spec (Z.of_nat i) 0); [lia |].
  by rewrite Nat2Z.id.
Qed.

End JsFacts.

(** ** The packet buffer and the rolling series *)

Section Windows.
Import AgentStream Series Notions Samples.

Lemma appendMessage_keepLast prev data :
  appendMessage prev data = keepLast MAX_MESSAGES (prev ++ [data]).
Proof.
  unfold appendMessage, keepLast.
  destruct (Nat.ltb_spec MAX_MESSAGES (length (prev ++ [data]))) as [H | H].
  - reflexivity.
  - replace (length (prev ++ [data]) - MAX_MESSAGES)%nat with 0%nat by lia.
    reflexivity.
Qed.

Lemma keepLast_length {A} n (l : list A) : (length (keepLast n l) <= n)%nat.
Proof. unfold keepLast. rewrite length_drop. lia. Qed.

Lemma keepLast_snoc {A} n (l : list A) x :
  keepLast n (keepLast n l ++ [x]) = keepLast n (l ++ [x]).
Proof.
  unfold keepLast.
  rewrite <- (drop_app_le l [x]) by lia.
  rewrite drop_drop. f_equal.
  rewrite length_drop, !length_app. simpl. lia.
Qed.

Lemma appendMessage_length prev data :
  (length (appendMessage prev data) <= MAX_MESSAGES)%nat.
Proof. rewrite appendMessage_keepLast. apply keepLast_length. Qed.

Lemma appendMessage_at_capacity prev data :
  length prev = MAX_MESSAGES ->
  appendMessage prev data = drop 1 prev ++ [data].
Proof.
  intros H. rewrite appendMessage_keepLast. unfold keepLast.
  rewrite length_app, H. simpl.
  replace (MAX_MESSAGES + 1 - MAX_MESSAGES)%nat with 1%nat by lia.
  apply drop_app_le. rewrite H. unfold MAX_MESSAGES. lia.
Qed.

Lemma keepLast_idem {A} n (l : list A) : keepLast n (keepLast n l) = keepLast n l.
Proof.
  unfold keepLast. rewrite length_drop.
  replace (length l - (length l - n) - n)%nat with 0%nat by lia.
  reflexivity.
Qed.

Lemma keepLast_app {A} n (l ys : list A) :
  keepLast n (keepLast n l ++ ys) = keepLast n (l ++ ys).
Proof.
  induction ys as [| y ys IH] using rev_ind.
  - rewrite !app_nil_r. apply keepLast_idem.
  - rewrite !app_assoc.
    rewrite <- (keepLast_snoc n (keepLast n l ++ ys)), IH.
    apply keepLast_snoc.
Qed.

Lemma keepLast_short {A} n (l : list A) :
  (length l <= n)%nat -> keepLast n l = l.
Proof.
  intros H. unfold keepLast.
  replace (length l - n)%nat with 0%nat by lia. reflexivity.
Qed.

Lemma receiveAll_messages frames : forall st,
  (length (messages st) <= MAX_MESSAGES)%nat ->
  messages (receiveAll st frames)
  = keepLast MAX_MESSAGES (messages st ++ accepted frames).
Proof.
  unfold receiveAll.
  induction frames as [| f frames IH]; intros st Hst; simpl.
  - rewrite app_nil_r. symmetry. by apply keepLast_short.
  - destruct f as [| | data]; simpl.
    + rewrite IH; simpl; [reflexivity | exact Hst].
    + rewrite IH; simpl; [| apply appendMessage_length].
      rewrite appendMessage_keepLast, keepLast_app.
      by rewrite <- app_assoc.
    + rewrite IH; simpl; [| apply appendMessage_length].
      rewrite appendMessage_keepLast, keepLast_app.
      by rewrite <- app_assoc.
Qed.

Lemma appendPoint_length series x :
  (length series <= WINDOW)%nat -> (length (appendPoint series x) <= WINDOW)%nat.
Proof.
  intros H. unfold appendPoint.
  destruct (Nat.ltb_spec WINDOW (length (series ++ [x]))) as [Hlt | Hge].
  - rewrite length_drop, length_app. simpl. lia.
  - exact Hge.
Qed.

Lemma advanceSentiment_length noises : forall series,
  (length series <= WINDOW)%nat ->
  (length (foldl advanceSentiment series noises) <= WINDOW)%nat.
Proof.
  induction noises as [| n noises IH]; intros series H; simpl; [exact H |].
  apply IH. unfold advanceSentiment. by apply appendPoint_length.
Qed.

Lemma appendPoint_at_capacity series x :
  length series = WINDOW -> appendPoint series x = drop 1 series ++ [x].
Proof.
  intros H. unfold appendPoint. rewrite length_app, H. simpl.
  apply drop_app_le. rewrite H. unfold WINDOW. lia.
Qed.

(** X24. A frame that does not parse is warned about and skipped: the
    buffer ends as if the frame had never arrived, whatever came before and
    whatever comes after, and the console holds one warning more. *)
Lemma unparsable_frame_is_skipped before after st :
  messages (receiveAll st (before ++ Unparsable :: after))
  = messages (receiveAll st (before ++ after))
  /\ length (console (receiveAll st (before ++ Unparsable :: after)))
     = S (length (console (receiveAll st (before ++ after)))).
Proof.
  unfold receiveAll. rewrite !foldl_app. simpl.
  set (mid := foldl onmessage st before).
  assert (Hgen : forall frames a b,
             messages a = messages b ->
             length (console a) = S (length (console b)) ->
             messages (foldl onmessage a frames) = messages (foldl onmessage b frames)
             /\ length (console (foldl onmessage a frames))
                = S (length (console (foldl onmessage b frames)))).
  { induction frames as [| f frames IH]; intros a b Hm Hc; simpl; [by split |].
    apply IH; destruct f; simpl; rewrite ?Hm, ?length_app; simpl; lia || reflexivity. }
  apply Hgen; simpl; [reflexivity |]. rewrite length_app. simpl. lia.
Qed.

(** C3 (window invariant). The packet buffer of the stream consumer never
    holds more than [MAX_MESSAGES] packets: after any sequence of frames it
    holds exactly the last [MAX_MESSAGES] accepted packets, and an append at
    capacity drops the oldest packet (first in, first out). The rolling
    series of the generator, started within its window, never grows past
    [WINDOW] points, and an append at capacity drops its oldest point. *)
Theorem window_invariant :
  (forall frames,
      (length (messages (receiveAll initialStream frames)) <= MAX_MESSAGES)%nat
      /\ messages (receiveAll initialStream frames)
         = keepLast MAX_MESSAGES (accepted frames))
  /\ (forall prev data, (length (appendMessage prev data) <= MAX_MESSAGES)%nat)
  /\ (forall prev data,
        length prev = MAX_MESSAGES ->
        appendMessage prev data = drop 1 prev ++ [data])
  /\ (forall series noises,
        (length series <= WINDOW)%nat ->
        (length (foldl advanceSentiment series noises) <= WINDOW)%nat)
  /\ (forall series x,
        length series = WINDOW -> appendPoint series x = drop 1 series ++ [x]).
Proof.
  repeat split.
  - rewrite receiveAll_messages by (simpl; lia). apply keepLast_length.
  - rewrite receiveAll_messages by (simpl; lia). reflexivity.
  - apply appendMessage_length.
  - apply appendMessage_at_capacity.
  - intros series noises. apply advanceSentiment_length.
  - apply appendPoint_at_capacity.
Qed.

(** A full buffer of 120 packets receives one more: the oldest leaves. *)
Lemma window_invariant_witness :
  length (replicate 120 (Some (packet "old"))) = MAX_MESSAGES
  /\ appendMessage (replicate 120 (Some (packet "old"))) (Some (packet "new"))
     = replicate 119 (Some (packet "old")) ++ [Some (packet "new")].
Proof.
  split; [reflexivity |].
  destruct window_invariant as (_ & _ & Hfifo & _).
  rewrite (Hfifo (replicate 120 (Some (packet "old"))) (Some (packet "new")));
    reflexivity.
Defined.

End Windows.

(** ** The overlay ticker *)

Section Ticker.
Import Js Dashboard Notions Samples.

(** What an update did, read back from its outcome. *)
Lemma tick_updated entriesByAgent random now st c ev st' c' :
  tick entriesByAgent random now st c = (Updated ev, st', c') ->
  exists entries config chosenEntry chosenMetric,
    index (List.filter playable entriesByAgent)
      (floorScale (random c) (length (List.filter playable entriesByAgent)))
    = Some (ev_agentId ev, entries)
    /\ findConfig (ev_agentId ev) = Some config
    /\ index entries (floorScale (random (c + 1)%nat) (length entries))
       = Some chosenEntry
    /\ index (metrics config)
         (floorScale (random (c + 2)%nat) (length (metrics config)))
       = Some chosenMetric
    /\ ev_athleteId ev = athleteId chosenEntry
    /\ ev_metricKey ev = key chosenMetric
    /\ ev_value ev
       = clamp01 (default 0 (entry_metrics chosenEntry !! key chosenMetric)
                  + (random (c + 3)%nat - (1 # 2)) * (8 # 100))
    /\ ev_now ev = now
    /\ st' = {| agentOverlays :=
                  <[overlayKeyOf (ev_agentId ev) (ev_athleteId ev) (ev_metricKey ev)
                    := {| value := ev_value ev; expiresAt := (now + 20000)%Z |}]>
                    (agentOverlays st);
                agentHighlights :=
                  <[ev_agentId ev
                    := {| highlight_athleteId := ev_athleteId ev;
                          metricKey := ev_metricKey ev;
                          timestamp := now |}]>
                    (agentHighlights st) |}
    /\ c' = (c + 4)%nat.
Proof.
  unfold tick. intros H.
  repeat case_match; simplify_eq.
  simpl. eexists _, _, _, _. repeat split; eauto.
Qed.

(** A firing that is skipped or throws leaves both maps as they were. *)
Lemma tick_not_updated entriesByAgent random now st c o st' c' :
  tick entriesByAgent random now st c = (o, st', c') ->
  eventOf o = None -> st' = st.
Proof.
  unfold tick. intros H Ho.
  repeat case_match; simplify_eq; try reflexivity; discriminate.
Qed.

Lemma tick_cursor entriesByAgent random now st c :
  (c <= (tick entriesByAgent random now st c).2 <= c + 4)%nat.
Proof. unfold tick. repeat case_match; simpl; lia. Qed.

(** Every firing of a timer yields an outcome: a skipped or throwing tick
    does not end the run. *)
Lemma fireAll_outcomes entriesByAgent random schedule : forall st c,
  length (fireAll entriesByAgent random schedule st c).1.1 = length schedule.
Proof.
  induction schedule as [| firing rest IH]; intros st c; simpl; [reflexivity |].
  destruct (fire entriesByAgent random firing st c) as [[o st1] c1].
  specialize (IH st1 c1).
  destruct (fireAll entriesByAgent random rest st1 c1) as [[os st2] c2].
  simpl in *. by rewrite IH.
Qed.

Lemma tick_bounded entriesByAgent random now st c o st' c' :
  tick entriesByAgent random now st c = (o, st', c') ->
  overlaysBounded st ->
  overlaysBounded st'
  /\ (forall ev, o = Updated ev -> within 0 1 (ev_value ev)).
Proof.
  intros H Hst. destruct (eventOf o) as [ev |] eqn:Ho.
  - destruct o; simplify_eq/=.
    apply tick_updated in H
      as (entries & config & e & m & _ & _ & _ & _ & _ & _ & Hv & _ & -> & _).
    assert (Hin : within 0 1 (ev_value ev)).
    { rewrite Hv. apply clamp01_range. }
    split.
    + unfold overlaysBounded. simpl. apply map_Forall_insert_2; [exact Hin | exact Hst].
    + intros ev' [= <-]. exact Hin.
  - rewrite (tick_not_updated _ _ _ _ _ _ _ _ H Ho). split; [exact Hst |].
    intros ev ->. discriminate.
Qed.

Lemma cleanup_bounded now st : overlaysBounded st -> overlaysBounded (cleanup now st).
Proof.
  unfold overlaysBounded, cleanup. simpl. intros H k o Hk.
  apply map_lookup_filter_Some in Hk as [Hk _]. exact (H k o Hk).
Qed.

Lemma fireAll_bounded entriesByAgent random schedule : forall st c,
  overlaysBounded st ->
  overlaysBounded (fireAll entriesByAgent random schedule st c).1.2
  /\ Forall (fun ev => within 0 1 (ev_value ev))
       (events (fireAll entriesByAgent random schedule st c)).
Proof.
  induction schedule as [| [timer now] rest IH]; intros st c Hst; simpl.
  - split; [exact Hst | constructor].
  - destruct (fire entriesByAgent random (timer, now) st c) as [[o st1] c1] eqn:Hf.
    assert (Hst1 : overlaysBounded st1
                   /\ (forall ev, o = Updated ev -> within 0 1 (ev_value ev))).
    { unfold fire in Hf. simpl in Hf. destruct timer.
      - eapply tick_bounded; eauto.
      - simplify_eq. split; [by apply cleanup_bounded | discriminate]. }
    destruct Hst1 as [Hst1 Ho].
    specialize (IH st1 c1 Hst1).
    destruct (fireAll entriesByAgent random rest st1 c1) as [[os st2] c2] eqn:Hr.
    simpl in *. destruct IH as [IH1 IH2]. split; [exact IH1 |].
    unfold events in *. simpl in *.
    destruct o as [| ev |]; simpl; try exact IH2.
    constructor; [by apply Ho | exact IH2].
Qed.

Lemma resetTicker_bounded : overlaysBounded resetTicker.
Proof. unfold overlaysBounded. simpl. apply map_Forall_empty. Qed.

Lemma runTickerFrom_bounded start dataMode syntheticOverview random schedule :
  overlaysBounded start ->
  overlaysBounded
    (runTickerFrom start dataMode syntheticOverview random schedule).1.2
  /\ Forall (fun ev => within 0 1 (ev_value ev))
       (events (runTickerFrom start dataMode syntheticOverview random schedule)).
Proof.
  intros Hstart. unfold runTickerFrom.
  destruct dataMode, syntheticOverview;
    try (split; [exact Hstart | constructor]).
  by apply fireAll_bounded.
Qed.

End Ticker.

(** ** Ranges of the generated values *)

Section Ranges.
Import Js Dashboard Series Engine Notions Samples.

Lemma clip_range lo hi x : lo <= hi -> within lo hi (clip lo hi x).
Proof.
  intros H. unfold within, clip. split.
  - apply Q.le_max_l.
  - apply Q.max_lub; [exact H | apply Q.le_min_l].
Qed.

Lemma clip_above lo hi x : lo <= hi -> hi <= x -> clip lo hi x == hi.
Proof.
  intros H Hx. unfold clip. rewrite (Q.min_l hi x Hx). by apply Q.max_r.
Qed.

Lemma clip_below lo hi x : lo <= hi -> x <= lo -> clip lo hi x == lo.
Proof.
  intros H Hx. unfold clip. apply Q.max_l.
  apply Qle_trans with x; [apply Q.le_min_r | exact Hx].
Qed.

Lemma clip_inside lo hi x : lo <= x -> x <= hi -> clip lo hi x == x.
Proof.
  intros H1 H2. unfold clip. rewrite (Q.min_r hi x H2). by apply Q.max_r.
Qed.

Lemma appendPoint_within lo hi series x :
  Forall (within lo hi) series -> within lo hi x ->
  Forall (within lo hi) (appendPoint series x).
Proof.
  intros Hs Hx. unfold appendPoint.
  assert (Hall : Forall (within lo hi) (series ++ [x])).
  { apply Forall_app. split; [exact Hs | by constructor]. }
  case_match; [by apply Forall_drop | exact Hall].
Qed.

Lemma advanceSentiment_within noises : forall series,
  Forall (within (-1) 1) series ->
  Forall (within (-1) 1) (foldl advanceSentiment series noises).
Proof.
  induction noises as [| n noises IH]; intros series H; simpl; [exact H |].
  apply IH. unfold advanceSentiment.
  apply appendPoint_within; [exact H |]. apply clip_range. lra.
Qed.

Lemma weightedSum_between weights : forall subscores,
  Forall (Qle 0) weights ->
  Forall (within 0 1) subscores ->
  0 <= weightedSum weights subscores
  /\ weightedSum weights subscores <= total weights.
Proof.
  induction weights as [| w ws IH]; intros subscores Hw Hx; simpl.
  - split; lra.
  - inversion Hw as [| ? ? Hw0 Hws]; subst.
    destruct subscores as [| x xs]; simpl.
    + assert (0 <= total ws).
      { clear -Hws. induction ws as [| v vs IHv]; simpl; [lra |].
        inversion Hws; subst. specialize (IHv ltac:(assumption)). lra. }
      split; lra.
    + inversion Hx as [| ? ? [Hx0 Hx1] Hxs]; subst.
      destruct (IH xs Hws Hxs) as [IH0 IH1].
      split; nra.
Qed.

Lemma computeValuation_nonneg wR wA wF r a f baseline :
  0 <= computeValuation wR wA wF r a f baseline.
Proof. unfold computeValuation. apply Q.le_max_l. Qed.

(** C6 (valuation formula). [computeValuation] is the static baseline times
    one plus the weighted uplift of the three scores whenever that product
    is not negative, and zero otherwise; in every case it is a
    non-negative number. *)
Theorem valuation_formula wR wA wF r a f baseline :
  0 <= computeValuation wR wA wF r a f baseline
  /\ (0 <= baseline * (1 + (wR * r + wA * a + wF * f)) ->
      computeValuation wR wA wF r a f baseline
      == baseline * (1 + (wR * r + wA * a + wF * f)))
  /\ (baseline * (1 + (wR * r + wA * a + wF * f)) <= 0 ->
      computeValuation wR wA wF r a f baseline == 0).
Proof.
  split; [apply computeValuation_nonneg |].
  unfold computeValuation, uplift. split; intros H.
  - by apply Q.max_r.
  - by apply Q.max_l.
Qed.

(** With weights 0.10, 0.10 and 0.05 and scores 0.8, 0.7 and 0.9 a
    baseline of 4,200,000 projects to 5,019,000; a negative baseline
    projects to zero. *)
Lemma valuation_formula_witness :
  computeValuation (1 # 10) (1 # 10) (1 # 20) (4 # 5) (7 # 10) (9 # 10) 4200000
  == 5019000
  /\ computeValuation (1 # 10) (1 # 10) (1 # 20) (4 # 5) (7 # 10) (9 # 10) (-100)
     == 0.
Proof.
  destruct (valuation_formula (1 # 10) (1 # 10) (1 # 20) (4 # 5) (7 # 10) (9 # 10)
              4200000) as (_ & Hpos & _).
  destruct (valuation_formula (1 # 10) (1 # 10) (1 # 20) (4 # 5) (7 # 10) (9 # 10)
              (-100)) as (_ & _ & Hneg).
  split.
  - rewrite Hpos; [reflexivity | discriminate].
  - apply Hneg. discriminate.
Defined.

End Ranges.

(** ** What a run of the ticker depends on *)

Section Runs.
Import Js Dashboard Notions Samples.

Lemma tick_agree entriesByAgent random1 random2 now st c :
  (forall i, (c <= i < c + 4)%nat -> random1 i = random2 i) ->
  tick entriesByAgent random1 now st c = tick entriesByAgent random2 now st c.
Proof.
  intros H. unfold tick.
  rewrite (H c), (H (c + 1)%nat), (H (c + 2)%nat), (H (c + 3)%nat) by lia.
  reflexivity.
Qed.

Lemma fire_cursor entriesByAgent random firing st c :
  (c <= (fire entriesByAgent random firing st c).2 <= c + 4)%nat.
Proof.
  unfold fire. destruct firing.1; [apply tick_cursor | simpl; lia].
Qed.

Lemma fire_agree entriesByAgent random1 random2 firing st c :
  (forall i, (c <= i < c + 4)%nat -> random1 i = random2 i) ->
  fire entriesByAgent random1 firing st c = fire entriesByAgent random2 firing st c.
Proof.
  intros H. unfold fire. destruct firing.1; [by apply tick_agree | reflexivity].
Qed.

Lemma fireAll_agree entriesByAgent random1 random2 schedule : forall st c,
  (forall i, (c <= i < c + 4 * length schedule)%nat -> random1 i = random2 i) ->
  fireAll entriesByAgent random1 schedule st c
  = fireAll entriesByAgent random2 schedule st c.
Proof.
  induction schedule as [| firing rest IH]; intros st c H; simpl; [reflexivity |].
  rewrite <- (fire_agree entriesByAgent random1 random2 firing st c)
    by (intros i Hi; apply H; simpl; lia).
  pose proof (fire_cursor entriesByAgent random1 firing st c) as Hc.
  destruct (fire entriesByAgent random1 firing st c) as [[o st1] c1].
  simpl in Hc.
  rewrite (IH st1 c1) by (intros i Hi; apply H; simpl; lia).
  reflexivity.
Qed.

(** C1 (determinism), as the ticker has it. Two runs of the ticker from the
    same maps, on the same overview (hence the same seed) and the same
    schedule of timer firings and clock readings, produce the same outcomes,
    the same final maps and the same interval period whenever
    [Math.random()] hands them
    the same draws: the first one for the period and at most four per
    firing. The overview's seed takes no part in it. *)
Theorem run_fixed_by_draws start dataMode syntheticOverview
      random1 random2 schedule :
  (forall i, (i < 1 + 4 * length schedule)%nat -> random1 i = random2 i) ->
  runTickerFrom start dataMode syntheticOverview random1 schedule
  = runTickerFrom start dataMode syntheticOverview random2 schedule
  /\ period random1 = period random2.
Proof.
  intros H. split.
  - unfold runTickerFrom. destruct dataMode, syntheticOverview; try reflexivity.
    apply fireAll_agree. intros i Hi. apply H. lia.
  - unfold period. rewrite (H 0%nat) by lia. reflexivity.
Qed.

(** Two streams of draws that agree on the first nine give the same two
    ticks. *)
Lemma run_fixed_by_draws_witness :
  (forall i, (i < 1 + 4 * length (updateTicks 2 clock0))%nat ->
             drawsLow i = drawsLowThenHigh i)
  /\ runTicker emulation (Some overview0) drawsLow (updateTicks 2 clock0)
     = runTicker emulation (Some overview0) drawsLowThenHigh (updateTicks 2 clock0).
Proof.
  assert (H : forall i, (i < 1 + 4 * length (updateTicks 2 clock0))%nat ->
                        drawsLow i = drawsLowThenHigh i).
  { intros i Hi. simpl in Hi. unfold drawsLow, drawsLowThenHigh.
    destruct (Nat.ltb_spec i 9); [reflexivity | lia]. }
  split; [exact H |].
  exact (proj1 (run_fixed_by_draws resetTicker emulation (Some overview0)
                  drawsLow drawsLowThenHigh (updateTicks 2 clock0) H)).
Defined.

(** C1, as stated, fails: the seed does not fix the run. With the overview
    of seed 4242 and the same clock, one tick under draws that are all 0
    updates the first athlete, and one tick under draws that are all 0.9
    updates the second. *)
Lemma same_seed_different_runs :
  seed overview0 = 4242%Z
  /\ map ev_athleteId
       (events (runTicker emulation (Some overview0) drawsLow
                  (updateTicks 1 clock0)))
     = ["ath-1"%string]
  /\ map ev_athleteId
       (events (runTicker emulation (Some overview0) drawsHigh
                  (updateTicks 1 clock0)))
     = ["ath-2"%string]
  /\ events (runTicker emulation (Some overview0) drawsLow (updateTicks 1 clock0))
     <> events (runTicker emulation (Some overview0) drawsHigh (updateTicks 1 clock0)).
Proof.
  split; [reflexivity |].
  assert (H1 : map ev_athleteId
                 (events (runTicker emulation (Some overview0) drawsLow
                            (updateTicks 1 clock0))) = ["ath-1"%string])
    by (vm_compute; reflexivity).
  assert (H2 : map ev_athleteId
                 (events (runTicker emulation (Some overview0) drawsHigh
                            (updateTicks 1 clock0))) = ["ath-2"%string])
    by (vm_compute; reflexivity).
  split; [exact H1 |]. split; [exact H2 |].
  intros E. rewrite E in H1. rewrite H1 in H2. discriminate.
Qed.

End Runs.

(** ** Which entity a tick updates *)

Section Selection.
Import Js Dashboard Notions Samples.

Lemma index_Some_nonempty {A} (xs : list A) z x :
  index xs z = Some x -> (length xs =? 0)%nat = false.
Proof.
  unfold index. case_match; [discriminate |].
  intros Hx%lookup_lt_Some. apply Nat.eqb_neq. lia.
Qed.

(** The forward reading of [tick]: once the three picks succeed, the
    maps are written. *)
Lemma tick_selects entriesByAgent random now st c
      agentId entries config chosenEntry chosenMetric :
  index (List.filter playable entriesByAgent)
    (floorScale (random c) (length (List.filter playable entriesByAgent)))
  = Some (agentId, entries) ->
  findConfig agentId = Some config ->
  index entries (floorScale (random (c + 1)%nat) (length entries))
  = Some chosenEntry ->
  index (metrics config)
    (floorScale (random (c + 2)%nat) (length (metrics config)))
  = Some chosenMetric ->
  exists ev st',
    tick entriesByAgent random now st c = (Updated ev, st', (c + 4)%nat)
    /\ ev_agentId ev = agentId
    /\ ev_athleteId ev = athleteId chosenEntry
    /\ ev_metricKey ev = key chosenMetric.
Proof.
  intros Ha Hc He Hm. unfold tick.
  rewrite (index_Some_nonempty _ _ _ Ha), Ha, Hc.
  rewrite (index_Some_nonempty _ _ _ He), He.
  rewrite (index_Some_nonempty _ _ _ Hm), Hm.
  eexists _, _. split; [reflexivity |]. simpl. auto.
Qed.

(** Every agent of the table has at least one metric. *)
Lemma findConfig_metrics agentId config :
  findConfig agentId = Some config -> (0 < length (metrics config))%nat.
Proof.
  unfold findConfig. intros [Hin _]%List.find_some.
  assert (Hall : Forall (fun cfg => (0 < length (metrics cfg))%nat) agentConfigs)
    by (unfold agentConfigs; repeat constructor).
  rewrite Forall_forall in Hall. by apply Hall, list_elem_of_In.
Qed.

(** C4 (no starvation), as the ticker has it. The entity of a tick is
    picked by [Math.random()]: at every tick, for every athlete entry of
    every playable agent that has a configuration, there are draws in
    [0, 1) for the agent and the entry such that, whatever the draw for
    the metric, the tick updates that entry. No number of ticks is
    promised. *)
Theorem every_entity_selectable entriesByAgent now st c
      i j agentId entries config chosenEntry :
  List.filter playable entriesByAgent !! i = Some (agentId, entries) ->
  findConfig agentId = Some config ->
  entries !! j = Some chosenEntry ->
  exists r1 r2,
    unit_draw r1 /\ unit_draw r2
    /\ forall random,
         random c = r1 -> random (c + 1)%nat = r2 ->
         unit_draw (random (c + 2)%nat) ->
         exists ev st',
           tick entriesByAgent random now st c = (Updated ev, st', (c + 4)%nat)
           /\ ev_agentId ev = agentId
           /\ ev_athleteId ev = athleteId chosenEntry.
Proof.
  intros Ha Hc He.
  pose proof (lookup_lt_Some _ _ _ Ha) as Hi.
  pose proof (lookup_lt_Some _ _ _ He) as Hj.
  set (n := length (List.filter playable entriesByAgent)) in *.
  exists (Z.of_nat i # Pos.of_nat n), (Z.of_nat j # Pos.of_nat (length entries)).
  split; [by apply ratio_unit_draw |]. split; [by apply ratio_unit_draw |].
  intros random H1 H2 H3.
  destruct (index_in_range (metrics config)
              (floorScale (random (c + 2)%nat) (length (metrics config))))
    as [chosenMetric Hm].
  { apply floorScale_range; [exact H3 | by eapply findConfig_metrics]. }
  destruct (tick_selects entriesByAgent random now st c
              agentId entries config chosenEntry chosenMetric)
    as (ev & st' & Ht & Hag & Hath & _).
  - rewrite H1. fold n. rewrite floorScale_exact by lia.
    by rewrite index_of_nat.
  - exact Hc.
  - rewrite H2, floorScale_exact by lia. by rewrite index_of_nat.
  - exact Hm.
  - eauto.
Qed.

(** The second athlete of the sample overview can be picked at the first
    tick. *)
Lemma every_entity_selectable_witness :
  exists r1 r2,
    unit_draw r1 /\ unit_draw r2
    /\ forall random,
         random 1%nat = r1 -> random (1 + 1)%nat = r2 ->
         unit_draw (random (1 + 2)%nat) ->
         exists ev st',
           tick entries0 random (clock0 0) resetTicker 1
           = (Updated ev, st', (1 + 4)%nat)
           /\ ev_agentId ev = "social_media"%string
           /\ ev_athleteId ev = "ath-2"%string.
Proof.
  exact (every_entity_selectable entries0 (clock0 0) resetTicker 1 0 1
           "social_media"
           [ {| athleteId := "ath-1"; programName := "Auburn";
                entry_athlete := guard; entry_metrics := socialMetrics (1 # 2) |};
             {| athleteId := "ath-2"; programName := "Auburn";
                entry_athlete := forward; entry_metrics := socialMetrics (1 # 2) |} ]
           {| id := "social_media"; emphasis := "engagement_authenticity";
              metrics := [
                {| key := "engagement_authenticity"; label := "Engagement Authenticity" |};
                {| key := "sentiment_intensity"; label := "Sentiment Intensity" |};
                {| key := "virality_potential"; label := "Virality Potential" |};
                {| key := "platform_fit"; label := "Platform Fit" |};
                {| key := "authenticity_detection"; label := "Authenticity Detection" |} ] |}
           {| athleteId := "ath-2"; programName := "Auburn";
              entry_athlete := forward; entry_metrics := socialMetrics (1 # 2) |}
           eq_refl eq_refl eq_refl).
Defined.

Lemma drawsLow_first_entry schedule : forall st c,
  Forall (fun ev => ev_athleteId ev = "ath-1"%string)
    (events (fireAll entries0 drawsLow schedule st c)).
Proof.
  induction schedule as [| [timer now] rest IH]; intros st c; simpl.
  - constructor.
  - unfold fire. simpl. destruct timer.
    + destruct (tick_selects entries0 drawsLow now st c "social_media"
                  [ {| athleteId := "ath-1"; programName := "Auburn";
                       entry_athlete := guard;
                       entry_metrics := socialMetrics (1 # 2) |};
                    {| athleteId := "ath-2"; programName := "Auburn";
                       entry_athlete := forward;
                       entry_metrics := socialMetrics (1 # 2) |} ]
                  {| id := "social_media"; emphasis := "engagement_authenticity";
                     metrics := [
                       {| key := "engagement_authenticity"; label := "Engagement Authenticity" |};
                       {| key := "sentiment_intensity"; label := "Sentiment Intensity" |};
                       {| key := "virality_potential"; label := "Virality Potential" |};
                       {| key := "platform_fit"; label := "Platform Fit" |};
                       {| key := "authenticity_detection"; label := "Authenticity Detection" |} ] |}
                  {| athleteId := "ath-1"; programName := "Auburn";
                     entry_athlete := guard;
                     entry_metrics := socialMetrics (1 # 2) |}
                  {| key := "engagement_authenticity";
                     label := "Engagement Authenticity" |}
                  eq_refl eq_refl eq_refl eq_refl)
        as (ev & st' & -> & _ & Hath & _).
      specialize (IH st' (c + 4)%nat).
      destruct (fireAll entries0 drawsLow rest st' (c + 4)%nat) as [[os st2] c2].
      unfold events in *. simpl in *. constructor; [exact Hath | exact IH].
    + specialize (IH (cleanup now st) c).
      destruct (fireAll entries0 drawsLow rest (cleanup now st) c) as [[os st2] c2].
      unfold events in *. simpl in *. exact IH.
Qed.

(** C4, as stated, fails. The sample overview tracks two athletes under
    one agent; when every draw is 0 each tick updates the first athlete,
    so for every [k] the first [2 * k] ticks never update the second. *)
Lemma constant_draws_starve_an_entity :
  map (fun p => (p.1, map athleteId p.2)) entries0
  = [("social_media"%string, ["ath-1"%string; "ath-2"%string])]
  /\ forall k,
       ~ In "ath-2"%string
           (map ev_athleteId
              (events (runTicker emulation (Some overview0) drawsLow
                         (updateTicks (2 * k) clock0)))).
Proof.
  split; [vm_compute; reflexivity |].
  intros k Hin. apply in_map_iff in Hin as (ev & Hev & Hin).
  pose proof (drawsLow_first_entry (updateTicks (2 * k) clock0) resetTicker 1) as H.
  rewrite Forall_forall in H.
  apply list_elem_of_In, H in Hin.
  unfold runTicker, runTickerFrom, entries0 in *. rewrite Hin in Hev. discriminate.
Qed.

End Selection.

(** ** Loading a data mode *)

Section Loading.
Import Dashboard ModeLoader Samples.

Lemma promiseAll_resolved mode r :
  requiredFailed mode r = false ->
  exists p sc syn,
    programRequest r = inr p /\ scenarioRequest r = inr sc
    /\ syntheticRequest mode r = inr syn
    /\ promiseAll mode r = inr (p, sc, metricsRequest r, syn).
Proof.
  unfold requiredFailed, promiseAll, rejections.
  destruct (programRequest r) as [m1 | p], (scenarioRequest r) as [m2 | sc],
           (syntheticRequest mode r) as [m3 | syn]; simpl;
    intros H; try discriminate.
  eauto 10.
Qed.

Lemma promiseAll_rejected mode r :
  requiredFailed mode r = true ->
  promiseAll mode r = inl (earliestRejection (rejections mode r)).
Proof.
  unfold requiredFailed, promiseAll, rejections.
  destruct (programRequest r) as [m1 | p], (scenarioRequest r) as [m2 | sc],
           (syntheticRequest mode r) as [m3 | syn]; simpl;
    intros H; try discriminate; reflexivity.
Qed.

Lemma loadModeData_resolved mode r s :
  requiredFailed mode r = false ->
  exists p sc syn,
    programRequest r = inr p /\ scenarioRequest r = inr sc
    /\ syntheticRequest mode r = inr syn
    /\ loadModeData mode r s
       = {| dataMode := mode; modeLoading := false; modeError := None;
            programData := p; scenarioData := sc;
            metricsData := metricsRequest r; syntheticOverview := syn;
            selectedProgram := selectedProgram s |}.
Proof.
  intros H. destruct (promiseAll_resolved mode r H) as (p & sc & syn & Hp & Hs & Hy & Hall).
  exists p, sc, syn. repeat split; try assumption.
  unfold loadModeData. rewrite Hall. reflexivity.
Qed.

Lemma loadModeData_rejected mode r s :
  requiredFailed mode r = true ->
  loadModeData mode r s
  = {| dataMode := mode; modeLoading := false;
       modeError :=
         Some ("Unable to load " +:+ modeName mode +:+ " data: "
               +:+ earliestRejection (rejections mode r))%string;
       programData := programData s; scenarioData := scenarioData s;
       metricsData := metricsData s; syntheticOverview := syntheticOverview s;
       selectedProgram := selectedProgram s |}.
Proof.
  intros H. unfold loadModeData. rewrite (promiseAll_rejected mode r H). simpl.
  f_equal. by destruct mode, (dataMode s).
Qed.

(** C7 (partial-failure isolation), as the dashboard has it. In the ticker
    a tick that cannot update (its agent has no configuration, or a pick
    fails) is skipped without a trace: no map is written, and every later
    firing still yields its outcome. In [loadModeData] only the metrics
    request is isolated: when no required request fails, the programs,
    scenarios and overview answers are applied whether or not the metrics
    request failed ([metricsData] is then null). When a required request
    fails, the load is abandoned as a whole: no data state changes and the
    failure is reported in [modeError]. In every case [modeLoading] ends
    false, and a later load that succeeds leaves the same state as if the
    earlier load had not happened. *)
Theorem failure_containment :
  (forall entriesByAgent random now st c o st' c',
      tick entriesByAgent random now st c = (o, st', c') ->
      eventOf o = None -> st' = st)
  /\ (forall entriesByAgent random schedule st c,
        length (fireAll entriesByAgent random schedule st c).1.1
        = length schedule)
  /\ (forall mode r s, modeLoading (loadModeData mode r s) = false)
  /\ (forall mode r s,
        requiredFailed mode r = false ->
        exists p sc syn,
          programRequest r = inr p /\ scenarioRequest r = inr sc
          /\ syntheticRequest mode r = inr syn
          /\ loadModeData mode r s
             = {| dataMode := mode; modeLoading := false; modeError := None;
                  programData := p; scenarioData := sc;
                  metricsData := metricsRequest r; syntheticOverview := syn;
                  selectedProgram := selectedProgram s |})
  /\ (forall mode r s,
        requiredFailed mode r = true ->
        programData (loadModeData mode r s) = programData s
        /\ scenarioData (loadModeData mode r s) = scenarioData s
        /\ metricsData (loadModeData mode r s) = metricsData s
        /\ syntheticOverview (loadModeData mode r s) = syntheticOverview s
        /\ modeError (loadModeData mode r s)
           = Some ("Unable to load " +:+ modeName mode +:+ " data: "
                   +:+ earliestRejection (rejections mode r))%string)
  /\ (forall mode r s mode2 r2,
        requiredFailed mode2 r2 = false ->
        loadModeData mode2 r2 (loadModeData mode r s) = loadModeData mode2 r2 s).
Proof.
  split; [| split; [| split; [| split; [| split]]]].
  - intros *. apply tick_not_updated.
  - intros *. apply fireAll_outcomes.
  - intros mode r s. unfold loadModeData.
    destruct (promiseAll mode r) as [m | [[[p sc] me] syn]]; reflexivity.
  - apply loadModeData_resolved.
  - intros mode r s H. rewrite (loadModeData_rejected mode r s H). simpl. auto.
  - intros mode r s mode2 r2 H2.
    destruct (promiseAll_resolved mode2 r2 H2) as (p & sc & syn & _ & _ & _ & Hall).
    unfold loadModeData at 1 3. rewrite Hall. simpl. f_equal.
    unfold loadModeData.
    destruct (promiseAll mode r) as [m | [[[? ?] ?] ?]]; reflexivity.
Qed.

(** A load whose metrics request fails still applies the other answers; a
    load whose scenarios request fails applies none. *)
Lemma failure_containment_witness :
  requiredFailed simulation metricsDown = false
  /\ programData (loadModeData simulation metricsDown state0) = [gonzaga]
  /\ metricsData (loadModeData simulation metricsDown state0) = None
  /\ requiredFailed simulation scenariosDown = true
  /\ programData (loadModeData simulation scenariosDown state0) = [auburn].
Proof.
  destruct failure_containment as (_ & _ & _ & Hok & Hfail & _).
  destruct (Hok simulation metricsDown state0 eq_refl)
    as (p & sc & syn & Hp & _ & _ & ->).
  destruct (Hfail simulation scenariosDown state0 eq_refl) as (-> & _).
  simpl. injection Hp as <-. repeat split.
Defined.

(** C7, as stated, fails on [loadModeData]. The programs request resolves
    with a new roster and the metrics request with metrics, the scenarios
    request is answered with an error status: the load applies neither of
    the two good answers and leaves the old roster on display. *)
Lemma one_failed_fetch_discards_the_others :
  programRequest scenariosDown = inr [gonzaga]
  /\ metricsRequest scenariosDown = Some sampleMetrics
  /\ scenarioRequest scenariosDown = inl "Scenarios request failed"%string
  /\ programData (loadModeData simulation scenariosDown state0) = [auburn]
  /\ metricsData (loadModeData simulation scenariosDown state0) = None
  /\ modeError (loadModeData simulation scenariosDown state0)
     = Some "Unable to load simulation data: Scenarios request failed"%string
  /\ [auburn] <> [gonzaga].
Proof. repeat split. discriminate. Qed.

(** C9 (a failed mode switch is not atomic). When a required request of
    [loadModeData(mode)] fails, the dashboard ends in the requested mode
    while the programs, scenarios, metrics and synthetic overview keep the
    values they had before the call. *)
Theorem failed_switch_keeps_old_data mode r s :
  requiredFailed mode r = true ->
  dataMode (loadModeData mode r s) = mode
  /\ programData (loadModeData mode r s) = programData s
  /\ scenarioData (loadModeData mode r s) = scenarioData s
  /\ metricsData (loadModeData mode r s) = metricsData s
  /\ syntheticOverview (loadModeData mode r s) = syntheticOverview s
  /\ is_Some (modeError (loadModeData mode r s)).
Proof.
  intros H. rewrite (loadModeData_rejected mode r s H). simpl.
  repeat split. eauto.
Qed.

(** A switch from simulation to emulation whose scenarios request fails:
    the mode on display becomes emulation although no synthetic overview
    is loaded and the roster is still the simulation roster. *)
Lemma failed_switch_keeps_old_data_witness :
  requiredFailed emulation scenariosDown = true
  /\ dataMode state0 = simulation
  /\ dataMode (loadModeData emulation scenariosDown state0) = emulation
  /\ programData (loadModeData emulation scenariosDown state0) = [auburn]
  /\ syntheticOverview (loadModeData emulation scenariosDown state0) = None.
Proof.
  destruct (failed_switch_keeps_old_data emulation scenariosDown state0 eq_refl)
    as (Hm & Hp & _ & _ & Hs & _).
  split; [reflexivity |]. split; [reflexivity |].
  split; [exact Hm |]. split; [exact Hp | exact Hs].
Defined.

End Loading.

(** ** Selecting a program in the prototype *)

Section ProgramSelection.
Import Prototype Samples.

Lemma find_program_in_roster programId st program :
  List.find (fun p => String.eqb (program_id p) programId) (programs (data st))
  = Some program ->
  In programId (roster st) /\ program_id program = programId.
Proof.
  intros [Hin Heq]%List.find_some. apply String.eqb_eq in Heq.
  split; [| exact Heq]. unfold roster. rewrite <- Heq. by apply in_map.
Qed.

Lemma find_program_unknown programId st :
  ~ In programId (roster st) ->
  List.find (fun p => String.eqb (program_id p) programId) (programs (data st))
  = None.
Proof.
  intros Hnot.
  destruct (List.find _ _) as [program |] eqn:Hfind; [| reflexivity].
  destruct (find_program_in_roster _ _ _ Hfind) as [Hin _]. contradiction.
Qed.

Lemma find_program_known programId st :
  In programId (roster st) ->
  exists program,
    List.find (fun p => String.eqb (program_id p) programId) (programs (data st))
    = Some program.
Proof.
  unfold roster. intros (p & Hp & Hin)%in_map_iff.
  destruct (List.find _ (programs (data st))) as [program |] eqn:Hfind; [eauto |].
  pose proof (List.find_none _ _ Hfind p Hin) as Hno. simpl in Hno.
  rewrite Hp, String.eqb_refl in Hno. discriminate.
Qed.

Lemma no_athlete_of programId (l : list Athlete) :
  (forall a, In a l -> athlete_programId a <> programId) ->
  List.filter (fun a => String.eqb (athlete_programId a) programId) l = [].
Proof.
  induction l as [| a l IH]; intros H; simpl; [reflexivity |].
  destruct (String.eqb_spec (athlete_programId a) programId) as [E | _].
  - exfalso. apply (H a); [by left | exact E].
  - apply IH. intros b Hb. apply H. by right.
Qed.

Lemma no_scenario_of programId (l : list Scenario) :
  (forall s, In s l -> scenario_programId s <> programId) ->
  List.find (fun s => String.eqb (scenario_programId s) programId) l = None.
Proof.
  intros H. destruct (List.find _ l) as [s |] eqn:Hfind; [| reflexivity].
  apply List.find_some in Hfind as [Hin Heq]. apply String.eqb_eq in Heq.
  exfalso. exact (H s Hin Heq).
Qed.

(** The athlete containers are written by [updateAthleteView] alone, the
    scenario containers by [updateScenario] alone. *)
Lemma updateProgramDetail_frame doc program v :
  athleteCardView (updateProgramDetail doc program v) = athleteCardView v
  /\ behaviorRingsView (updateProgramDetail doc program v) = behaviorRingsView v
  /\ compliancePanelView (updateProgramDetail doc program v) = compliancePanelView v
  /\ scenarioView (updateProgramDetail doc program v) = scenarioView v.
Proof. unfold updateProgramDetail. by destruct (doc constellationDetail). Qed.

Lemma updateScenario_frame doc scenario v :
  athleteCardView (updateScenario doc scenario v) = athleteCardView v
  /\ behaviorRingsView (updateScenario doc scenario v) = behaviorRingsView v
  /\ compliancePanelView (updateScenario doc scenario v) = compliancePanelView v.
Proof. unfold updateScenario. by case_match. Qed.

Lemma updateAthleteView_frame doc d athlete v :
  scenarioView (updateAthleteView doc d athlete v) = scenarioView v.
Proof. unfold updateAthleteView. by case_match. Qed.

Lemma selectProgram_returns doc programId st :
  (selectProgram doc programId st).2 = ReturnsUndefined.
Proof. unfold selectProgram. by repeat case_match. Qed.

Lemma selectProgram_found doc programId st program :
  List.find (fun p => String.eqb (program_id p) programId) (programs (data st))
  = Some program ->
  selectedProgram (selectProgram doc programId st).1 = Some program.
Proof. unfold selectProgram. intros ->. by repeat case_match. Qed.

Lemma selectProgram_no_athlete doc programId st program :
  List.find (fun p => String.eqb (program_id p) programId) (programs (data st))
  = Some program ->
  (forall a, In a (athletes (data st)) ->
             athlete_programId a <> program_id program) ->
  selectedAthlete (selectProgram doc programId st).1 = selectedAthlete st
  /\ athleteCardView (views (selectProgram doc programId st).1)
     = athleteCardView (views st)
  /\ behaviorRingsView (views (selectProgram doc programId st).1)
     = behaviorRingsView (views st)
  /\ compliancePanelView (views (selectProgram doc programId st).1)
     = compliancePanelView (views st).
Proof.
  intros Hfind Hnone. unfold selectProgram. rewrite Hfind.
  rewrite (no_athlete_of _ _ Hnone). simpl.
  destruct (updateProgramDetail_frame doc program (views st)) as (E1 & E2 & E3 & _).
  destruct (List.find _ (scenarios (data st))) as [s |]; simpl.
  - destruct (updateScenario_frame doc s
                (updateProgramDetail doc program (views st))) as (F1 & F2 & F3).
    rewrite F1, F2, F3. auto.
  - auto.
Qed.

Lemma selectProgram_no_scenario doc programId st program :
  List.find (fun p => String.eqb (program_id p) programId) (programs (data st))
  = Some program ->
  (forall s, In s (scenarios (data st)) ->
             scenario_programId s <> program_id program) ->
  selectedScenario (selectProgram doc programId st).1 = selectedScenario st
  /\ scenarioView (views (selectProgram doc programId st).1)
     = scenarioView (views st).
Proof.
  intros Hfind Hnone. unfold selectProgram. rewrite Hfind.
  rewrite (no_scenario_of _ _ Hnone).
  destruct (updateProgramDetail_frame doc program (views st)) as (_ & _ & _ & E4).
  destruct (head _) as [a |]; simpl.
  - rewrite updateAthleteView_frame. auto.
  - auto.
Qed.

(** C8 (query for an unknown id), as [selectProgram] has it. Every call
    returns [undefined] and throws nothing. For an id that is not in the
    roster the call is a silent no-op: the selection and every view stay
    as they were. For an id of the roster the program is selected, and
    when no athlete (no scenario) belongs to it yet nothing is put in
    their place: the selected athlete (scenario) keeps its previous value. *)
Theorem unknown_program_is_silent doc programId st :
  (selectProgram doc programId st).2 = ReturnsUndefined
  /\ (~ In programId (roster st) -> (selectProgram doc programId st).1 = st)
  /\ (In programId (roster st) ->
      exists program,
        program_id program = programId
        /\ selectedProgram (selectProgram doc programId st).1 = Some program
        /\ ((forall a, In a (athletes (data st)) ->
                       athlete_programId a <> programId) ->
            selectedAthlete (selectProgram doc programId st).1 = selectedAthlete st)
        /\ ((forall s, In s (scenarios (data st)) ->
                       scenario_programId s <> programId) ->
            selectedScenario (selectProgram doc programId st).1
            = selectedScenario st)).
Proof.
  split; [apply selectProgram_returns |]. split.
  - intros Hnot. unfold selectProgram.
    by rewrite (find_program_unknown _ _ Hnot).
  - intros Hin. destruct (find_program_known _ _ Hin) as [program Hfind].
    destruct (find_program_in_roster _ _ _ Hfind) as [_ Hid].
    exists program. split; [exact Hid |].
    split; [by apply selectProgram_found |]. split; intros Hnone.
    + apply (selectProgram_no_athlete doc programId st program Hfind).
      by rewrite Hid.
    + apply (selectProgram_no_scenario doc programId st program Hfind).
      by rewrite Hid.
Qed.

(** On the freshly loaded sample data an unknown id changes nothing, and
    selecting the program without athletes leaves the athlete unset. *)
Lemma unknown_program_is_silent_witness :
  ~ In "nonexistent_id"%string (roster (loaded data0))
  /\ (selectProgram fullPage "nonexistent_id" (loaded data0)).1 = loaded data0
  /\ In "stanford"%string (roster (loaded data0))
  /\ selectedAthlete (selectProgram fullPage "stanford" (loaded data0)).1 = None.
Proof.
  assert (Hnot : ~ In "nonexistent_id"%string (roster (loaded data0))).
  { simpl. intros [H | [H | []]]; discriminate. }
  assert (Hin : In "stanford"%string (roster (loaded data0))).
  { simpl. right. by left. }
  destruct (unknown_program_is_silent fullPage "nonexistent_id" (loaded data0))
    as (_ & Hnoop & _).
  destruct (unknown_program_is_silent fullPage "stanford" (loaded data0))
    as (_ & _ & Hsel).
  destruct (Hsel Hin) as (program & _ & _ & Hath & _).
  split; [exact Hnot |]. split; [exact (Hnoop Hnot) |]. split; [exact Hin |].
  rewrite Hath; [reflexivity |].
  simpl. intros a [<- | []]. discriminate.
Defined.

(** C8, as stated, fails on [selectProgram]. The id ["nonexistent_id"] is
    not in the roster of the rendered sample page; the call returns
    [undefined], not a not-found value. The program ["stanford"] is in the
    roster and has no athlete yet; selecting it on the freshly loaded data
    yields no athlete at all, not a default one. *)
Lemma unknown_id_returns_undefined :
  roster rendered0 = ["kansas"%string; "stanford"%string]
  /\ (selectProgram fullPage "nonexistent_id" rendered0).2 = ReturnsUndefined
  /\ ReturnsUndefined <> ReturnsValue (NotFound "nonexistent_id")
  /\ selectedAthlete (selectProgram fullPage "stanford" (loaded data0)).1 = None
  /\ athleteCardView (views (selectProgram fullPage "stanford" (loaded data0)).1)
     = None.
Proof. repeat split. discriminate. Qed.

(** C10 (stale cross-entity selection). When [programId] names a program of
    the roster, [selectProgram] selects it; if no athlete belongs to that
    program, the selected athlete and the three athlete containers stay as
    the previous selection left them, and if no scenario belongs to it, the
    selected scenario and its containers stay as well. *)
Theorem stale_selection doc programId st program :
  List.find (fun p => String.eqb (program_id p) programId) (programs (data st))
  = Some program ->
  selectedProgram (selectProgram doc programId st).1 = Some program
  /\ ((forall a, In a (athletes (data st)) ->
                 athlete_programId a <> program_id program) ->
      selectedAthlete (selectProgram doc programId st).1 = selectedAthlete st
      /\ athleteCardView (views (selectProgram doc programId st).1)
         = athleteCardView (views st)
      /\ behaviorRingsView (views (selectProgram doc programId st).1)
         = behaviorRingsView (views st)
      /\ compliancePanelView (views (selectProgram doc programId st).1)
         = compliancePanelView (views st))
  /\ ((forall s, In s (scenarios (data st)) ->
                 scenario_programId s <> program_id program) ->
      selectedScenario (selectProgram doc programId st).1 = selectedScenario st
      /\ scenarioView (views (selectProgram doc programId st).1)
         = scenarioView (views st)).
Proof.
  intros Hfind. split; [by apply selectProgram_found |]. split.
  - by apply selectProgram_no_athlete.
  - by apply selectProgram_no_scenario.
Qed.

(** After the first render the first program, its athlete and its scenario
    are selected. Selecting the second program, which has neither, shows
    the second program next to the first program's athlete and scenario. *)
Lemma stale_selection_witness :
  List.find (fun p => String.eqb (program_id p) "stanford")
    (programs (data rendered0)) = Some stanford
  /\ selectedProgram (selectProgram fullPage "stanford" rendered0).1 = Some stanford
  /\ selectedAthlete (selectProgram fullPage "stanford" rendered0).1 = Some center
  /\ athleteCardView (views (selectProgram fullPage "stanford" rendered0).1)
     = Some center
  /\ selectedScenario (selectProgram fullPage "stanford" rendered0).1
     = Some homeGame
  /\ athlete_programId center = "kansas"%string.
Proof.
  destruct (stale_selection fullPage "stanford" rendered0 stanford eq_refl)
    as (Hp & Hath & Hsc).
  destruct Hath as (Ha & Hcard & _).
  { simpl. intros a [<- | []]. discriminate. }
  destruct Hsc as (Hs & _).
  { simpl. intros s [<- | []]. discriminate. }
  split; [reflexivity |]. split; [exact Hp |].
  split; [rewrite Ha; reflexivity |].
  split; [rewrite Hcard; reflexivity |].
  split; [rewrite Hs; reflexivity | reflexivity].
Defined.

End ProgramSelection.

(** ** The connection status and the buffer *)

Section Connections.
Import AgentStream Socket Notions Samples.

Lemma handleAll_stream events : forall c,
  stream (handleAll c events) = receiveAll (stream c) (framesOf events).
Proof.
  unfold handleAll, receiveAll.
  induction events as [| e events IH]; intros c; simpl; [reflexivity |].
  rewrite IH. by destruct e.
Qed.

Lemma handleAll_error events : forall c,
  status c = error ->
  Forall (fun e => isOpened e = false) events ->
  status (handleAll c events) = error.
Proof.
  unfold handleAll.
  induction events as [| e events IH]; intros c Hc Hno; simpl; [exact Hc |].
  inversion Hno as [| ? ? He Hrest]; subst.
  apply IH; [| exact Hrest].
  destruct e; simpl in *; try discriminate; try reflexivity; try exact Hc.
  by rewrite Hc.
Qed.

(** X1. Status events never touch the buffer: after any sequence of socket
    events the messages and the console are those of the frames alone.
    Once the status is [error], it stays [error] through every close and
    every frame: only a new [onopen] replaces it. In a connection started
    by [connect] the buffer never holds more than [MAX_MESSAGES] values. *)
Theorem socket_events c events :
  stream (handleAll c events) = receiveAll (stream c) (framesOf events)
  /\ (status c = error ->
      Forall (fun e => isOpened e = false) events ->
      status (handleAll c events) = error)
  /\ (length (messages (stream (handleAll (connect c) events)))
      <= MAX_MESSAGES)%nat.
Proof.
  split; [apply handleAll_stream |]. split; [apply handleAll_error |].
  rewrite handleAll_stream, receiveAll_messages by (simpl; lia).
  apply keepLast_length.
Qed.

(** An error followed by a frame and two closes still shows [error]. *)
Lemma socket_events_witness :
  status (handleAll {| status := error; stream := initialStream |}
            [Message (Packet (packet "late")); Closed; Closed])
  = error.
Proof.
  destruct (socket_events {| status := error; stream := initialStream |}
              [Message (Packet (packet "late")); Closed; Closed])
    as (_ & Hsticky & _).
  apply Hsticky; [reflexivity | repeat constructor].
Defined.

End Connections.

(** ** Formatting *)

Section Formatting.
Import Format.

Lemma Qltb_lt x y : Qltb x y = true <-> x < y.
Proof.
  unfold Qltb. rewrite negb_true_iff, <- not_true_iff_false, Qle_bool_iff.
  split; [apply Qnot_le_lt | apply Qlt_not_le].
Qed.

Lemma Qltb_ge x y : Qltb x y = false <-> y <= x.
Proof.
  unfold Qltb. rewrite negb_false_iff. apply Qle_bool_iff.
Qed.

Lemma Qfloor_zero_iff x : Qfloor x = 0%Z <-> 0 <= x /\ x < 1.
Proof.
  split.
  - intros H. pose proof (Qfloor_le x) as H1. pose proof (Qlt_floor x) as H2.
    rewrite H in H1, H2. simpl in *. split; [exact H1 | exact H2].
  - intros [H0 H1].
    assert (0 <= Qfloor x)%Z by (change 0%Z with (Qfloor 0); by apply Qfloor_resp_le).
    assert (Qfloor x < 1)%Z.
    { rewrite Zlt_Qlt. eapply Qle_lt_trans; [apply Qfloor_le | exact H1]. }
    lia.
Qed.

(** The printed magnitude is zero exactly below half a unit of the last
    printed place. *)
Lemma toFixedUnits_zero_iff digits x :
  toFixedUnits digits x = 0%Z
  <-> Qabs x * inject_Z (10 ^ Z.of_nat digits) < 1 # 2.
Proof.
  unfold toFixedUnits. rewrite Qfloor_zero_iff.
  assert (0 <= Qabs x * inject_Z (10 ^ Z.of_nat digits)).
  { apply Qmult_le_0_compat; [apply Qabs_nonneg |].
    change 0 with (inject_Z 0). rewrite <- Zle_Qle. lia. }
  split; [intros [_ H1] | intros H1; split]; lra.
Qed.

Lemma formatDiff_below value (isPercent : bool) :
  Qltb (Qabs (if isPercent then value * 100 else value))
       (if isPercent then 5 # 100 else 5 # 10000) = true
  <-> toFixedUnits (if isPercent then 1 else 3)%nat
        (if isPercent then value * 100 else value) = 0%Z.
Proof.
  rewrite Qltb_lt, toFixedUnits_zero_iff.
  destruct isPercent.
  - change (inject_Z (10 ^ Z.of_nat 1)) with 10. split; intros H; lra.
  - change (inject_Z (10 ^ Z.of_nat 3)) with 1000. split; intros H; lra.
Qed.

(** X2. [formatDiff] prints the marker [±0] exactly when the delta rounds
    to zero at the printed precision (three decimals, or one decimal of the
    percentage); every other delta is printed with its sign and a rounded
    magnitude that is not zero, so a signed zero such as [+0.000] or
    [-0.0%] never appears. *)
Theorem formatDiff_prints_no_zero value (isPercent : bool) :
  (formatDiff value isPercent = "±0"%string
   <-> toFixedUnits (if isPercent then 1 else 3)%nat
         (if isPercent then value * 100 else value) = 0%Z)
  /\ (formatDiff value isPercent = "±0"%string
      \/ formatDiff value isPercent
         = ((if Qle_bool 0 (if isPercent then value * 100 else value)
             then "+" else EmptyString)
            +:+ toFixed (if isPercent then 1 else 3)%nat
                  (if isPercent then value * 100 else value)
            +:+ (if isPercent then "%" else EmptyString))%string).
Proof.
  pose proof (formatDiff_below value isPercent) as Hiff.
  unfold formatDiff.
  destruct (Qltb (Qabs (if isPercent then value * 100 else value))
              (if isPercent then 5 # 100 else 5 # 10000)) eqn:Hlt.
  - split; [| by left]. split; intros _; [by apply Hiff | reflexivity].
  - split; [| right; by destruct isPercent].
    split.
    + intros Hstr. exfalso.
      destruct (Qle_bool 0 (if isPercent then value * 100 else value)) eqn:Hsign.
      * destruct isPercent; discriminate Hstr.
      * assert (Hneg : Qltb (if isPercent then value * 100 else value) 0 = true).
        { unfold Qltb. by rewrite Hsign. }
        destruct isPercent; unfold toFixed in Hstr; rewrite Hneg in Hstr;
          discriminate Hstr.
    + intros Hz. apply Hiff in Hz. discriminate.
Qed.

Lemma Qdiv_bounds x k lo hi :
  0 < k -> lo * k <= x -> x < hi * k -> lo <= x / k /\ x / k < hi.
Proof.
  intros Hk H1 H2. split.
  - apply Qle_shift_div_l; assumption.
  - apply Qlt_shift_div_r; assumption.
Qed.

Lemma Qfloor_between x lo hi :
  inject_Z lo <= x -> x < inject_Z hi -> (lo <= Qfloor x < hi)%Z.
Proof.
  intros H1 H2. split.
  - rewrite <- (Qfloor_Z lo). by apply Qfloor_resp_le.
  - rewrite Zlt_Qlt. eapply Qle_lt_trans; [apply Qfloor_le | exact H2].
Qed.

Lemma Qfloor_bounds x : inject_Z (Qfloor x) <= x /\ x < inject_Z (Qfloor x) + 1.
Proof.
  split; [apply Qfloor_le |].
  pose proof (Qlt_floor x) as H. by rewrite inject_Z_plus in H.
Qed.

Lemma Qfloor_div_bounds x k :
  0 < k ->
  inject_Z (Qfloor (x / k)) * k <= x /\ x < (inject_Z (Qfloor (x / k)) + 1) * k.
Proof.
  intros Hk. destruct (Qfloor_bounds (x / k)) as [H1 H2].
  assert (Hx : x == x / k * k) by (field; lra).
  split.
  - rewrite Hx at 2. apply Qmult_le_compat_r; [exact H1 | lra].
  - rewrite Hx at 1. apply Qmult_lt_compat_r; [exact Hk | exact H2].
Qed.

(** X3. [formatTimeAgo] prints the age in whole units of the largest of
    second, minute, hour and day that the age has reached. With the age
    [max(1, now/1000 - timestamp)] in seconds: below 60 it prints the whole
    seconds, from 60 and below 3600 the whole minutes, from 3600 and below
    86400 the whole hours, from 86400 the whole days. The count is at least
    one, and a timestamp of the same second, or one in the future, reads
    "1s ago". *)
Theorem formatTimeAgo_counts nowMs timestamp :
  exists n : Z,
    (1 <= n)%Z
    /\ ((formatTimeAgo nowMs timestamp = (pretty n +:+ "s ago")%string
         /\ Qmax 1 (inject_Z nowMs / 1000 - timestamp) < 60
         /\ inject_Z n <= Qmax 1 (inject_Z nowMs / 1000 - timestamp)
         /\ Qmax 1 (inject_Z nowMs / 1000 - timestamp) < inject_Z n + 1)
        \/ (formatTimeAgo nowMs timestamp = (pretty n +:+ "m ago")%string
            /\ 60 <= Qmax 1 (inject_Z nowMs / 1000 - timestamp)
            /\ Qmax 1 (inject_Z nowMs / 1000 - timestamp) < 3600
            /\ inject_Z n * 60 <= Qmax 1 (inject_Z nowMs / 1000 - timestamp)
            /\ Qmax 1 (inject_Z nowMs / 1000 - timestamp) < (inject_Z n + 1) * 60)
        \/ (formatTimeAgo nowMs timestamp = (pretty n +:+ "h ago")%string
            /\ 3600 <= Qmax 1 (inject_Z nowMs / 1000 - timestamp)
            /\ Qmax 1 (inject_Z nowMs / 1000 - timestamp) < 86400
            /\ inject_Z n * 3600 <= Qmax 1 (inject_Z nowMs / 1000 - timestamp)
            /\ Qmax 1 (inject_Z nowMs / 1000 - timestamp)
               < (inject_Z n + 1) * 3600)
        \/ (formatTimeAgo nowMs timestamp = (pretty n +:+ "d ago")%string
            /\ 86400 <= Qmax 1 (inject_Z nowMs / 1000 - timestamp)
            /\ inject_Z n * 86400 <= Qmax 1 (inject_Z nowMs / 1000 - timestamp)
            /\ Qmax 1 (inject_Z nowMs / 1000 - timestamp)
               < (inject_Z n + 1) * 86400))
    /\ (inject_Z nowMs / 1000 - timestamp < 2 ->
        formatTimeAgo nowMs timestamp = "1s ago"%string).
Proof.
  unfold formatTimeAgo, timeAgoParts.
  set (diff := Qmax 1 (inject_Z nowMs / 1000 - timestamp)).
  assert (H1 : 1 <= diff) by apply Q.le_max_l.
  assert (Hnear : inject_Z nowMs / 1000 - timestamp < 2 -> diff < 2).
  { intros H. unfold diff. apply Q.max_lub_lt; [lra | exact H]. }
  destruct (Qltb diff 60) eqn:Hs; [| destruct (Qltb diff 3600) eqn:Hm;
                                      [| destruct (Qltb diff 86400) eqn:Hh]];
    cbn [fst snd].
  - apply Qltb_lt in Hs. exists (Qfloor diff).
    destruct (Qfloor_between diff 1 60) as [Ha Hb]; [exact H1 | exact Hs |].
    destruct (Qfloor_bounds diff) as [Hlo Hhi].
    split; [lia |]. split.
    + left. split; [reflexivity |]. by repeat split.
    + intros Hd%Hnear.
      destruct (Qfloor_between diff 1 2) as [Hc Hd']; [exact H1 | exact Hd |].
      replace (Qfloor diff) with 1%Z by lia. reflexivity.
  - apply Qltb_ge in Hs. apply Qltb_lt in Hm. exists (Qfloor (diff / 60)).
    destruct (Qdiv_bounds diff 60 1 60) as [Ha Hb]; [lra | lra | lra |].
    destruct (Qfloor_between (diff / 60) 1 60) as [Hc Hd]; [exact Ha | exact Hb |].
    destruct (Qfloor_div_bounds diff 60) as [Hlo Hhi]; [lra |].
    split; [lia |]. split.
    + right; left. split; [reflexivity |]. by repeat split.
    + intros Hd'%Hnear. lra.
  - apply Qltb_ge in Hm. apply Qltb_lt in Hh. exists (Qfloor (diff / 3600)).
    destruct (Qdiv_bounds diff 3600 1 24) as [Ha Hb]; [lra | lra | lra |].
    destruct (Qfloor_between (diff / 3600) 1 24) as [Hc Hd]; [exact Ha | exact Hb |].
    destruct (Qfloor_div_bounds diff 3600) as [Hlo Hhi]; [lra |].
    split; [lia |]. split.
    + right; right; left. split; [reflexivity |]. by repeat split.
    + intros Hd'%Hnear. lra.
  - apply Qltb_ge in Hh. exists (Qfloor (diff / 86400)).
    assert (Ha : 1 <= diff / 86400) by (apply Qle_shift_div_l; lra).
    assert (Hc : (1 <= Qfloor (diff / 86400))%Z).
    { rewrite <- (Qfloor_Z 1). by apply Qfloor_resp_le. }
    destruct (Qfloor_div_bounds diff 86400) as [Hlo Hhi]; [lra |].
    split; [lia |]. split.
    + right; right; right. split; [reflexivity |]. by repeat split.
    + intros Hd'%Hnear. lra.
Qed.

(** A timestamp ten seconds in the future reads "1s ago". *)
Lemma formatTimeAgo_counts_witness :
  inject_Z 100000 / 1000 - 110 < 2
  /\ formatTimeAgo 100000 110 = "1s ago"%string.
Proof.
  destruct (formatTimeAgo_counts 100000 110) as (n & _ & _ & Hnear).
  split; [reflexivity |]. apply Hnear. reflexivity.
Defined.

End Formatting.

(** ** The selected program and the mode buttons *)

Section ModeButtons.
Import Dashboard ModeLoader Samples.

Lemma existsb_program_id id (l : list Program) :
  existsb (fun p => String.eqb (program_id p) id) l = true
  <-> In id (map program_id l).
Proof.
  rewrite existsb_exists, in_map_iff. split.
  - intros (p & Hin & Heq). apply String.eqb_eq in Heq. eauto.
  - intros (p & Heq & Hin). exists p. split; [exact Hin |].
    by apply String.eqb_eq.
Qed.

(** X4. After the effect that reconciles the selection, the selected
    program is the empty string when there is no program, and otherwise the
    id of a program on display; an id that is on display is kept, any other
    is replaced by the first program's id. Running the effect again changes
    nothing, and nothing but the selection is ever changed. *)
Theorem reconcileSelection_valid s :
  (programData s = [] -> selectedProgram (reconcileSelection s) = EmptyString)
  /\ (programData s <> [] ->
      In (selectedProgram (reconcileSelection s))
         (map program_id (programData s)))
  /\ (In (selectedProgram s) (map program_id (programData s)) ->
      reconcileSelection s = s)
  /\ (forall first rest,
        programData s = first :: rest ->
        ~ In (selectedProgram s) (map program_id (programData s)) ->
        selectedProgram (reconcileSelection s) = program_id first)
  /\ reconcileSelection (reconcileSelection s) = reconcileSelection s
  /\ programData (reconcileSelection s) = programData s
  /\ dataMode (reconcileSelection s) = dataMode s
  /\ modeError (reconcileSelection s) = modeError s.
Proof.
  assert (Hvalid : programData s <> [] ->
                   In (selectedProgram (reconcileSelection s))
                      (map program_id (programData s))).
  { intros Hne. unfold reconcileSelection. simpl.
    destruct (programData s) as [| first rest] eqn:Hp; [done |].
    destruct (existsb _ (first :: rest)) eqn:He.
    - by apply existsb_program_id.
    - simpl. by left. }
  assert (Hkeep : forall t, In (selectedProgram t) (map program_id (programData t)) ->
                            reconcileSelection t = t).
  { intros t Hin. unfold reconcileSelection.
    destruct (programData t) as [| first rest] eqn:Hp; [destruct Hin |].
    apply existsb_program_id in Hin. rewrite Hin.
    destruct t; simpl in *. by subst. }
  split; [| split; [exact Hvalid | split; [apply Hkeep | split; [| split]]]].
  - intros Hp. unfold reconcileSelection. by rewrite Hp.
  - intros first rest Hp Hnot. unfold reconcileSelection. simpl. rewrite Hp.
    destruct (existsb _ (first :: rest)) eqn:He; [| reflexivity].
    exfalso. apply Hnot. rewrite Hp. by apply existsb_program_id.
  - destruct (programData s) as [| first rest] eqn:Hp.
    + unfold reconcileSelection. simpl. by rewrite Hp.
    + apply Hkeep.
      assert (Hsame : programData (reconcileSelection s) = programData s)
        by reflexivity.
      rewrite Hsame, Hp. by apply Hvalid.
  - by repeat split.
Qed.

(** After a load that put a new roster on display, the stale selection is
    replaced by the first program of the new roster. *)
Lemma reconcileSelection_valid_witness :
  selectedProgram (loadModeData simulation allUp state0) = "auburn"%string
  /\ selectedProgram (reconcileSelection (loadModeData simulation allUp state0))
     = "gonzaga"%string.
Proof.
  destruct (reconcileSelection_valid (loadModeData simulation allUp state0))
    as (_ & _ & _ & Hfirst & _).
  split; [reflexivity |].
  rewrite (Hfirst gonzaga [] eq_refl); [reflexivity |].
  simpl. intros [H | []]. discriminate.
Defined.

(** X5. The mode buttons: a click on the mode that is on display without an
    error does nothing at all. After a load that failed, every click loads
    again, also a click on the mode now on display, so a failed switch can
    always be retried; after a load that succeeded, a click on the same mode
    is again a no-op. *)
Theorem handleModeSwitch_retries mode r s :
  (dataMode s = mode -> modeError s = None -> handleModeSwitch mode r s = s)
  /\ (forall mode0 r0,
        requiredFailed mode0 r0 = true ->
        handleModeSwitch mode r (loadModeData mode0 r0 s)
        = loadModeData mode r (loadModeData mode0 r0 s))
  /\ (forall r0,
        requiredFailed mode r0 = false ->
        handleModeSwitch mode r (loadModeData mode r0 s)
        = loadModeData mode r0 s)
  /\ (dataMode s <> mode -> handleModeSwitch mode r s = loadModeData mode r s).
Proof.
  split; [| split; [| split]].
  - intros Hm He. unfold handleModeSwitch. rewrite Hm, He.
    by destruct mode.
  - intros mode0 r0 Hfail. unfold handleModeSwitch.
    rewrite (loadModeData_rejected mode0 r0 s Hfail). simpl.
    by rewrite andb_false_r.
  - intros r0 Hok. unfold handleModeSwitch.
    destruct (loadModeData_resolved mode r0 s Hok) as (p & sc & syn & _ & _ & _ & ->).
    simpl. by destruct mode.
  - intros Hne. unfold handleModeSwitch.
    destruct mode, (dataMode s); try reflexivity; congruence.
Qed.

(** A switch to emulation failed; the click on "emulation", the mode now on
    display, loads again and succeeds. *)
Lemma handleModeSwitch_retries_witness :
  requiredFailed emulation scenariosDown = true
  /\ dataMode (loadModeData emulation scenariosDown state0) = emulation
  /\ syntheticOverview
       (handleModeSwitch emulation allUp
          (loadModeData emulation scenariosDown state0))
     = Some overview0.
Proof.
  destruct (handleModeSwitch_retries emulation allUp state0) as (_ & Hretry & _).
  rewrite (Hretry emulation scenariosDown eq_refl).
  repeat split.
Defined.

End ModeButtons.

(** ** The entries of the agents *)

Section AgentEntries.
Import Js Dashboard AgentCards AgentMap Notions Samples.

Lemma pushEntry_keys agentId e m :
  map fst (pushEntry agentId e m)
  = if bool_decide (agentId ∈ map fst m) then map fst m
    else map fst m ++ [agentId].
Proof.
  induction m as [| [k es] m IH]; cbn [pushEntry map fst].
  - rewrite bool_decide_eq_false_2; [reflexivity | apply not_elem_of_nil].
  - destruct (String.eqb_spec k agentId) as [-> | Hne]; cbn [map fst].
    + rewrite bool_decide_eq_true_2; [reflexivity | apply list_elem_of_here].
    + rewrite IH. destruct (decide (agentId ∈ map fst m)) as [Hin | Hin].
      * rewrite !bool_decide_eq_true_2;
          [reflexivity | by apply list_elem_of_further | exact Hin].
      * rewrite !bool_decide_eq_false_2; [reflexivity | | exact Hin].
        intros [E | H]%elem_of_cons; [by symmetry in E | done].
Qed.

Lemma pushEntry_wellFormed agentId e m :
  wellFormedEntries m -> wellFormedEntries (pushEntry agentId e m).
Proof.
  intros [Hnd Hne]. split.
  - rewrite pushEntry_keys. case_bool_decide as Hin; [exact Hnd |].
    apply NoDup_app. split; [exact Hnd |]. split; [| apply NoDup_singleton].
    intros x Hx Hx'%list_elem_of_singleton. by subst.
  - clear Hnd. induction m as [| [k es] m IH]; simpl.
    + repeat constructor. discriminate.
    + inversion Hne as [| ? ? Hes Hrest]; subst.
      destruct (String.eqb k agentId); constructor; simpl in *; auto.
      by destruct es.
Qed.

Lemma wellFormed_playable m :
  wellFormedEntries m -> List.filter playable m = m.
Proof.
  intros [_ Hne]. induction Hne as [| [k es] m Hes _ IH]; simpl; [reflexivity |].
  unfold playable at 1. simpl in *.
  destruct es; [done |]. simpl. by rewrite IH.
Qed.

Lemma hasKey_elem k (m : list (string * list AgentEntry)) :
  hasKey k m = true <-> k ∈ map fst m.
Proof.
  unfold hasKey. rewrite existsb_exists, list_elem_of_fmap. split.
  - intros ([k' v] & Hin & Heq). apply String.eqb_eq in Heq. simpl in Heq.
    subst. exists (k, v). split; [reflexivity | by apply list_elem_of_In].
  - intros ([k' v] & -> & Hin). exists (k', v).
    split; [by apply list_elem_of_In | apply String.eqb_refl].
Qed.

Lemma entriesOf_absent k (m : list (string * list AgentEntry)) :
  k ∉ map fst m -> entriesOf m k = [].
Proof.
  unfold entriesOf. intros Hk.
  destruct (List.find _ m) as [[k' v] |] eqn:Hfind; [| reflexivity].
  apply List.find_some in Hfind as [Hin Heq]. apply String.eqb_eq in Heq.
  simpl in Heq. subst. exfalso. apply Hk, list_elem_of_fmap.
  exists (k, v). split; [reflexivity | by apply list_elem_of_In].
Qed.

Lemma entriesOf_cons k' v m k :
  entriesOf ((k', v) :: m) k = if String.eqb k' k then v else entriesOf m k.
Proof. unfold entriesOf. cbn [List.find fst]. by destruct (String.eqb k' k). Qed.

(** [pushEntry] appends to the entries of its agent and to no other. *)
Lemma pushEntry_entriesOf agentId e m k :
  entriesOf (pushEntry agentId e m) k
  = if String.eqb agentId k then entriesOf m k ++ [e] else entriesOf m k.
Proof.
  induction m as [| [k' v] m IH]; cbn [pushEntry].
  - rewrite entriesOf_cons. by destruct (String.eqb agentId k).
  - destruct (String.eqb_spec k' agentId) as [-> | Hne];
      rewrite !entriesOf_cons.
    + by destruct (String.eqb agentId k).
    + rewrite IH. destruct (String.eqb_spec k' k) as [-> | _]; [| reflexivity].
      by destruct (String.eqb_spec agentId k) as [-> | _].
Qed.

Lemma pushEntry_absent agentId e m :
  hasKey agentId m = false -> pushEntry agentId e m = m ++ [(agentId, [e])].
Proof.
  unfold hasKey. induction m as [| [k v] m IH]; cbn [pushEntry existsb fst];
    [reflexivity |].
  intros [Hk Hm]%orb_false_iff. rewrite Hk, IH by exact Hm. reflexivity.
Qed.

Lemma insertIndex_perm n k v m : insertIndex n k v m ≡ₚ (k, v) :: m.
Proof.
  induction m as [| [k' v'] m IH]; cbn [insertIndex]; [reflexivity |].
  destruct (arrayIndex k') as [n' |]; [| reflexivity].
  destruct (n' <? n)%N; [| reflexivity].
  rewrite IH. apply Permutation_swap.
Qed.

Lemma insertKey_perm k v m : insertKey k v m ≡ₚ (k, v) :: m.
Proof.
  unfold insertKey. destruct (arrayIndex k).
  - apply insertIndex_perm.
  - symmetry. apply Permutation_cons_append.
Qed.

Lemma insertIndex_entriesOf n k v m k' :
  k ∉ map fst m ->
  entriesOf (insertIndex n k v m) k'
  = if String.eqb k k' then v else entriesOf m k'.
Proof.
  induction m as [| [k0 v0] m IH]; intros Hk; cbn [insertIndex].
  - rewrite entriesOf_cons. by destruct (String.eqb k k').
  - cbn [map fst] in Hk. apply not_elem_of_cons in Hk as [Hne Hk].
    destruct (arrayIndex k0) as [n0 |]; [| by rewrite entriesOf_cons].
    destruct (n0 <? n)%N; [| by rewrite entriesOf_cons].
    rewrite !entriesOf_cons, IH by exact Hk.
    destruct (String.eqb_spec k0 k') as [-> | _]; [| reflexivity].
    by destruct (String.eqb_spec k k') as [-> | _].
Qed.

Lemma append_entriesOf k v m k' :
  k ∉ map fst m ->
  entriesOf (m ++ [(k, v)]) k' = if String.eqb k k' then v else entriesOf m k'.
Proof.
  induction m as [| [k0 v0] m IH]; intros Hk; cbn [app].
  - rewrite entriesOf_cons. by destruct (String.eqb k k').
  - cbn [map fst] in Hk. apply not_elem_of_cons in Hk as [Hne Hk].
    rewrite !entriesOf_cons, IH by exact Hk.
    destruct (String.eqb_spec k0 k') as [-> | _]; [| reflexivity].
    by destruct (String.eqb_spec k k') as [-> | _].
Qed.

Lemma insertKey_entriesOf k v m k' :
  k ∉ map fst m ->
  entriesOf (insertKey k v m) k' = if String.eqb k k' then v else entriesOf m k'.
Proof.
  unfold insertKey. destruct (arrayIndex k).
  - apply insertIndex_entriesOf.
  - apply append_entriesOf.
Qed.

(** One [push] that does not throw keeps the map well formed, adds its
    entry behind those of its agent and touches no other agent. *)
Lemma pushEntryJs_Some agentId e m m' :
  wellFormedEntries m ->
  pushEntryJs agentId e m = Some m' ->
  wellFormedEntries m'
  /\ (forall k, k ∈ map fst m' <-> k = agentId \/ k ∈ map fst m)
  /\ (forall k, entriesOf m' k
                = if String.eqb agentId k then entriesOf m k ++ [e]
                  else entriesOf m k)
  /\ (hasKey agentId m = false -> agentId ∉ Feeds.objectPrototypeNames).
Proof.
  intros Hm. unfold pushEntryJs.
  destruct (hasKey agentId m) eqn:Hhas.
  - intros [= <-]. split; [by apply pushEntry_wellFormed |].
    apply hasKey_elem in Hhas. split; [| split; [| done]].
    + intros k. rewrite pushEntry_keys, bool_decide_eq_true_2 by exact Hhas.
      split; [by right |]. by intros [-> | H].
    + intros k. apply pushEntry_entriesOf.
  - case_bool_decide as Hproto; [discriminate |]. intros [= <-].
    assert (Hk : agentId ∉ map fst m).
    { intros H%hasKey_elem. congruence. }
    destruct Hm as [Hnd Hne]. split; [split |].
    + rewrite (insertKey_perm agentId [e] m). cbn [map fst].
      by apply NoDup_cons.
    + rewrite (insertKey_perm agentId [e] m). by constructor.
    + split; [| split; [| done]].
      * intros k. rewrite (insertKey_perm agentId [e] m). cbn [map fst].
        apply elem_of_cons.
      * intros k. rewrite insertKey_entriesOf by exact Hk.
        destruct (String.eqb_spec agentId k) as [<- | _]; [| reflexivity].
        by rewrite (entriesOf_absent agentId m Hk).
Qed.

Lemma pushEntryJs_None agentId e m :
  pushEntryJs agentId e m = None
  <-> hasKey agentId m = false /\ agentId ∈ Feeds.objectPrototypeNames.
Proof.
  unfold pushEntryJs. destruct (hasKey agentId m).
  - split; [discriminate | by intros [? _]].
  - case_bool_decide; split; try done. by intros [_ ?].
Qed.

Lemma foldl_thrown (l : list (string * AgentEntry)) :
  foldl (fun (acc : option (list (string * list AgentEntry))) p =>
           acc ≫= pushEntryJs p.1 p.2) None l = None.
Proof. induction l as [| p l IH]; [reflexivity | exact IH]. Qed.

(** All the pushes, from a well-formed map that holds no inherited name. *)
Lemma pushesJs_spec (l : list (string * AgentEntry)) : forall m,
  wellFormedEntries m ->
  (forall k, k ∈ map fst m -> k ∉ Feeds.objectPrototypeNames) ->
  (foldl (fun acc p => acc ≫= pushEntryJs p.1 p.2) (Some m) l = None
   <-> exists p, p ∈ l /\ p.1 ∈ Feeds.objectPrototypeNames)
  /\ forall m',
       foldl (fun acc p => acc ≫= pushEntryJs p.1 p.2) (Some m) l = Some m' ->
       wellFormedEntries m'
       /\ (forall k, k ∈ map fst m' <-> k ∈ map fst m \/ k ∈ map fst l)
       /\ (forall k,
             entriesOf m' k
             = entriesOf m k
               ++ map snd (List.filter (fun p => String.eqb p.1 k) l)).
Proof.
  induction l as [| [agentId e] l IH]; intros m Hm Hclean; cbn [foldl].
  - split.
    + split; [discriminate |]. intros (p & Hp & _). by apply not_elem_of_nil in Hp.
    + intros m' [= <-]. split; [exact Hm |]. split.
      * intros k. cbn [map]. split; [by left |].
        intros [H | H]; [exact H | by apply not_elem_of_nil in H].
      * intros k. by rewrite app_nil_r.
  - cbn [mbind option_bind fst snd].
    destruct (pushEntryJs agentId e m) as [m1 |] eqn:Hpush.
    + destruct (pushEntryJs_Some _ _ _ _ Hm Hpush)
        as (Hm1 & Hkeys1 & Hentries1 & Hnew).
      assert (Hid : agentId ∉ Feeds.objectPrototypeNames).
      { destruct (hasKey agentId m) eqn:Hhas; [| by apply Hnew].
        by apply Hclean, hasKey_elem. }
      assert (Hclean1 : forall k, k ∈ map fst m1 ->
                                  k ∉ Feeds.objectPrototypeNames).
      { intros k [-> | Hk]%Hkeys1; [exact Hid | by apply Hclean]. }
      destruct (IH m1 Hm1 Hclean1) as [IHnone IHsome]. split.
      * rewrite IHnone. split.
        -- intros (p & Hp & Hproto). exists p.
           split; [by apply list_elem_of_further | exact Hproto].
        -- intros (p & Hp & Hproto).
           apply elem_of_cons in Hp as [-> | Hp]; [done | by exists p].
      * intros m' Hm'. destruct (IHsome m' Hm') as (Hw & Hkeys & Hentries).
        split; [exact Hw |]. split.
        -- intros k. rewrite Hkeys, Hkeys1. cbn [map fst].
           rewrite elem_of_cons. tauto.
        -- intros k. rewrite Hentries, Hentries1. cbn [List.filter fst].
           destruct (String.eqb agentId k); [| reflexivity].
           cbn [map snd]. by rewrite <- app_assoc.
    + apply pushEntryJs_None in Hpush as [_ Hproto]. split.
      * split; [intros _ | intros _; apply foldl_thrown].
        exists (agentId, e). split; [apply list_elem_of_here | exact Hproto].
      * intros m'. by rewrite foldl_thrown.
Qed.

(** The three loops are one pass over the pushes. *)
Lemma agentEntriesByAgentJs_pushes syntheticOverview :
  agentEntriesByAgentJs syntheticOverview
  = foldl (fun acc p => acc ≫= pushEntryJs p.1 p.2) (Some [])
      (pushes syntheticOverview).
Proof.
  destruct syntheticOverview as [ov |]; [| reflexivity].
  unfold agentEntriesByAgentJs, pushes.
  generalize (Some [] : option (list (string * list AgentEntry))).
  induction (programs ov) as [| p ps IHp]; intros acc; [reflexivity |].
  cbn [foldl flat_map]. rewrite foldl_app, <- IHp. f_equal.
  generalize acc. clear.
  induction (athletes p) as [| a l IHa]; intros acc; [reflexivity |].
  cbn [foldl flat_map]. rewrite foldl_app, <- IHa. f_equal.
  generalize acc. clear.
  induction (agent_metrics a) as [| am ams IHm]; intros acc; [reflexivity |].
  cbn [foldl map]. by rewrite <- IHm.
Qed.

Lemma agentEntriesByAgent_pushes syntheticOverview :
  agentEntriesByAgent syntheticOverview
  = foldl (fun m p => pushEntry p.1 p.2 m) [] (pushes syntheticOverview).
Proof.
  destruct syntheticOverview as [ov |]; [| reflexivity].
  unfold agentEntriesByAgent, pushes.
  generalize ([] : list (string * list AgentEntry)).
  induction (programs ov) as [| p ps IHp]; intros acc; [reflexivity |].
  cbn [foldl flat_map]. rewrite foldl_app, <- IHp. f_equal.
  generalize acc. clear.
  induction (athletes p) as [| a l IHa]; intros acc; [reflexivity |].
  cbn [foldl flat_map]. rewrite foldl_app, <- IHa. f_equal.
  generalize acc. clear.
  induction (agent_metrics a) as [| am ams IHm]; intros acc; [reflexivity |].
  cbn [foldl map]. by rewrite <- IHm.
Qed.

(** With names that are neither inherited nor array indices, the object
    lists its keys in the order of their first push. *)
Lemma pushesJs_plain (l : list (string * AgentEntry)) : forall m,
  (forall p, p ∈ l ->
             (p.1 ∉ Feeds.objectPrototypeNames) /\ arrayIndex p.1 = None) ->
  foldl (fun acc p => acc ≫= pushEntryJs p.1 p.2) (Some m) l
  = Some (foldl (fun m p => pushEntry p.1 p.2 m) m l).
Proof.
  induction l as [| [agentId e] l IH]; intros m Hl; cbn [foldl]; [reflexivity |].
  cbn [mbind option_bind fst snd].
  destruct (Hl (agentId, e)) as [Hproto Hindex]; [apply list_elem_of_here |].
  cbn [fst] in Hproto, Hindex.
  assert (Hpush : pushEntryJs agentId e m = Some (pushEntry agentId e m)).
  { unfold pushEntryJs. destruct (hasKey agentId m) eqn:Hhas; [reflexivity |].
    rewrite bool_decide_eq_false_2 by exact Hproto.
    unfold insertKey. rewrite Hindex. by rewrite pushEntry_absent. }
  rewrite Hpush. apply IH. intros p Hp. apply Hl. by apply list_elem_of_further.
Qed.

(** X6. The map of entries that the dashboard builds from an overview.
    Building it throws exactly when some agent id of the overview is the
    name of a property every object inherits (such as [constructor]): the
    [push] then meets a function, not an array. Otherwise the map names no
    agent twice and lists at least one entry under every agent, so every
    agent in it is playable; its agents are exactly the agent ids of the
    overview; and under every agent stand exactly the entries of the
    athletes that have metrics for that agent, in the order of the
    overview. When no agent id is an array index either, the agents are
    listed in the order of their first entry. Without an overview the map
    is empty. *)
Theorem agentEntriesByAgent_shape syntheticOverview :
  (agentEntriesByAgentJs syntheticOverview = None
   <-> exists p, p ∈ pushes syntheticOverview
                 /\ p.1 ∈ Feeds.objectPrototypeNames)
  /\ (forall m,
        agentEntriesByAgentJs syntheticOverview = Some m ->
        NoDup (map fst m)
        /\ Forall (fun p => p.2 <> []) m
        /\ List.filter playable m = m
        /\ (forall agentId,
              agentId ∈ map fst m
              <-> agentId ∈ map fst (pushes syntheticOverview))
        /\ (forall agentId,
              entriesOf m agentId
              = map snd (List.filter (fun p => String.eqb p.1 agentId)
                           (pushes syntheticOverview))))
  /\ ((forall p, p ∈ pushes syntheticOverview ->
                 (p.1 ∉ Feeds.objectPrototypeNames) /\ arrayIndex p.1 = None) ->
      agentEntriesByAgentJs syntheticOverview
      = Some (agentEntriesByAgent syntheticOverview))
  /\ agentEntriesByAgentJs None = Some [].
Proof.
  assert (Hempty : wellFormedEntries []).
  { split; simpl; constructor. }
  assert (Hclean : forall k, k ∈ map fst ([] : list (string * list AgentEntry)) ->
                             k ∉ Feeds.objectPrototypeNames).
  { intros k Hk. by apply not_elem_of_nil in Hk. }
  destruct (pushesJs_spec (pushes syntheticOverview) [] Hempty Hclean)
    as [Hnone Hsome].
  rewrite agentEntriesByAgentJs_pushes.
  split; [exact Hnone |]. split; [| split; [| reflexivity]].
  - intros m Hm. destruct (Hsome m Hm) as (Hw & Hkeys & Hentries).
    destruct Hw as [Hnd Hne].
    split; [exact Hnd |]. split; [exact Hne |].
    split; [by apply wellFormed_playable |]. split.
    + intros k. rewrite Hkeys. cbn [map]. split; [| by right].
      intros [H | H]; [by apply not_elem_of_nil in H | exact H].
    + intros k. by rewrite Hentries.
  - intros Hplain. rewrite agentEntriesByAgent_pushes.
    by apply pushesJs_plain.
Qed.

End AgentEntries.

(** ** One tick, read closely *)

Section TickFacts.
Import Js Dashboard Notions Samples.

Lemma filter_playable_nonempty entriesByAgent agentId entries z :
  index (List.filter playable entriesByAgent) z = Some (agentId, entries) ->
  (0 < length entries)%nat.
Proof.
  unfold index. case_match; [discriminate |].
  intros Hl%list_elem_of_lookup_2%list_elem_of_In.
  apply filter_In in Hl as [_ Hp]. unfold playable in Hp. simpl in Hp.
  by apply Nat.ltb_lt.
Qed.

Lemma length_zero_nil {A} (l : list A) : (length l =? 0)%nat = true -> l = [].
Proof. destruct l; [reflexivity | discriminate]. Qed.

(** X7. With draws in [0, 1), as [Math.random()] gives them, a tick never
    throws; it is skipped in exactly two cases - no agent has an entry, or
    the agent that was picked has no configuration - and in every other case
    it writes an overlay for an agent that has a configuration. *)
Theorem tick_with_unit_draws entriesByAgent random now st c :
  unit_draw (random c) ->
  unit_draw (random (c + 1)%nat) ->
  unit_draw (random (c + 2)%nat) ->
  (tick entriesByAgent random now st c).1.1 <> Threw
  /\ ((tick entriesByAgent random now st c).1.1 = Skipped
      <-> List.filter playable entriesByAgent = []
          \/ exists agentId entries,
               index (List.filter playable entriesByAgent)
                 (floorScale (random c)
                    (length (List.filter playable entriesByAgent)))
               = Some (agentId, entries)
               /\ findConfig agentId = None)
  /\ (forall ev,
        (tick entriesByAgent random now st c).1.1 = Updated ev ->
        is_Some (findConfig (ev_agentId ev))).
Proof.
  intros H1 H2 H3.
  destruct (length (List.filter playable entriesByAgent) =? 0)%nat eqn:Hlen.
  { unfold tick. rewrite Hlen. simpl.
    split; [discriminate |]. split; [| discriminate].
    split; [intros _; left; by apply length_zero_nil | reflexivity]. }
  assert (Hpos : (0 < length (List.filter playable entriesByAgent))%nat).
  { apply Nat.eqb_neq in Hlen. lia. }
  destruct (index_in_range (List.filter playable entriesByAgent)
              (floorScale (random c)
                 (length (List.filter playable entriesByAgent))))
    as [[agentId entries] Hpick]; [by apply floorScale_range |].
  assert (Hnil : List.filter playable entriesByAgent <> []).
  { intros E. rewrite E in Hpos. simpl in Hpos. lia. }
  destruct (findConfig agentId) as [config |] eqn:Hcfg.
  - pose proof (filter_playable_nonempty _ _ _ _ Hpick) as Hentries.
    destruct (index_in_range entries
                (floorScale (random (c + 1)%nat) (length entries)))
      as [chosenEntry Hentry]; [by apply floorScale_range |].
    destruct (index_in_range (metrics config)
                (floorScale (random (c + 2)%nat) (length (metrics config))))
      as [chosenMetric Hmetric];
      [apply floorScale_range; [exact H3 | by eapply findConfig_metrics] |].
    destruct (tick_selects entriesByAgent random now st c agentId entries
                config chosenEntry chosenMetric Hpick Hcfg Hentry Hmetric)
      as (ev & st' & Ht & Hag & _).
    rewrite Ht. simpl. split; [discriminate |]. split.
    + split; [discriminate |].
      intros [E | (a & es & Ha & Hnone)]; [done |].
      rewrite Hpick in Ha. injection Ha as <- <-. congruence.
    + intros ev' [= <-]. rewrite Hag, Hcfg. eauto.
  - unfold tick. rewrite Hlen, Hpick, Hcfg. simpl.
    split; [discriminate |]. split; [| discriminate].
    split; [intros _; right; eauto | reflexivity].
Qed.

(** On the sample overview a tick with all draws 0.9 neither throws nor is
    skipped. *)
Lemma tick_with_unit_draws_witness :
  (tick entries0 drawsHigh (clock0 0) resetTicker 1).1.1 <> Threw
  /\ (tick entries0 drawsHigh (clock0 0) resetTicker 1).1.1 <> Skipped.
Proof.
  assert (Hd : unit_draw (9 # 10)) by (split; lra).
  destruct (tick_with_unit_draws entries0 drawsHigh (clock0 0) resetTicker 1
              Hd Hd Hd) as (Hthrow & _ & _).
  split; [exact Hthrow |]. vm_compute. discriminate.
Defined.

(** X8. A tick that updates writes one overlay and one highlight and
    nothing else: every other overlay and the highlight of every other
    agent are as before, the highlight of the agent names the athlete and
    the metric of the update, and at most one overlay is added. *)
Theorem tick_frame entriesByAgent random now st c ev st' c' :
  tick entriesByAgent random now st c = (Updated ev, st', c') ->
  (forall k,
      k <> overlayKeyOf (ev_agentId ev) (ev_athleteId ev) (ev_metricKey ev) ->
      agentOverlays st' !! k = agentOverlays st !! k)
  /\ (forall agentId,
        agentId <> ev_agentId ev ->
        agentHighlights st' !! agentId = agentHighlights st !! agentId)
  /\ agentHighlights st' !! ev_agentId ev
     = Some {| highlight_athleteId := ev_athleteId ev;
               metricKey := ev_metricKey ev;
               timestamp := now |}
  /\ (size (agentOverlays st') <= S (size (agentOverlays st)))%nat.
Proof.
  intros H.
  apply tick_updated in H
    as (entries & config & e & m & _ & _ & _ & _ & _ & _ & _ & _ & -> & _).
  simpl. split; [| split; [| split]].
  - intros k Hk. by rewrite lookup_insert_ne.
  - intros a Ha. by rewrite lookup_insert_ne.
  - by rewrite lookup_insert_eq.
  - destruct (agentOverlays st
                !! overlayKeyOf (ev_agentId ev) (ev_athleteId ev) (ev_metricKey ev))
      as [o |] eqn:Hl.
    + rewrite map_size_insert_Some by eauto. lia.
    + rewrite map_size_insert_None by exact Hl. lia.
Qed.

(** The first tick on the sample overview leaves the overlay of the other
    athlete unset. *)
Lemma tick_frame_witness :
  agentOverlays (tick entries0 drawsLow (clock0 0) resetTicker 1).1.2
    !! overlayKeyOf "social_media" "ath-2" "engagement_authenticity"
  = None.
Proof.
  destruct (tick entries0 drawsLow (clock0 0) resetTicker 1) as [[o st'] c']
    eqn:Ht.
  assert (Ho : exists ev, o = Updated ev /\ ev_athleteId ev = "ath-1"%string
                          /\ ev_agentId ev = "social_media"%string
                          /\ ev_metricKey ev = "engagement_authenticity"%string).
  { vm_compute in Ht. injection Ht as <- _ _. eexists. repeat split. }
  destruct Ho as (ev & -> & Hath & Hag & Hkey).
  destruct (tick_frame entries0 drawsLow (clock0 0) resetTicker 1 ev st' c' Ht)
    as (Hother & _).
  simpl. rewrite Hother; [reflexivity |].
  rewrite Hath, Hag, Hkey. discriminate.
Defined.

Lemma clamp01_cases x :
  (x <= 0 /\ clamp01 x == 0)
  \/ (0 <= x /\ x <= 1 /\ clamp01 x == x)
  \/ (1 <= x /\ clamp01 x == 1).
Proof.
  destruct (Qlt_le_dec x 0) as [H0 | H0].
  - left. split; [lra | apply clamp01_low; lra].
  - destruct (Qlt_le_dec 1 x) as [H1 | H1].
    + right; right. split; [lra | apply clamp01_high; lra].
    + right; left. split; [exact H0 |]. split; [exact H1 | by apply clamp01_mid].
Qed.

(** The clamp never stretches a distance. *)
Lemma clamp01_close x delta bound :
  - bound <= delta -> delta <= bound ->
  clamp01 x - bound <= clamp01 (x + delta)
  /\ clamp01 (x + delta) <= clamp01 x + bound.
Proof.
  intros Hlo Hhi.
  destruct (clamp01_cases x) as [[? E1] | [(? & ? & E1) | [? E1]]];
    destruct (clamp01_cases (x + delta)) as [[? E2] | [(? & ? & E2) | [? E2]]];
    rewrite E1, E2; split; lra.
Qed.

(** X9. The overlay does not drift. The outcome of a tick does not depend
    on the overlays written before: the new value is computed from the
    metric of the entry, never from an earlier overlay. With a draw in
    [0, 1) for the delta, the value is within 0.04 of the clamped metric. *)
Theorem tick_jitter_is_memoryless entriesByAgent random now c :
  (forall st1 st2,
      (tick entriesByAgent random now st1 c).1.1
      = (tick entriesByAgent random now st2 c).1.1)
  /\ (forall st ev st' c',
        tick entriesByAgent random now st c = (Updated ev, st', c') ->
        unit_draw (random (c + 3)%nat) ->
        exists entries chosenEntry,
          index (List.filter playable entriesByAgent)
            (floorScale (random c)
               (length (List.filter playable entriesByAgent)))
          = Some (ev_agentId ev, entries)
          /\ index entries (floorScale (random (c + 1)%nat) (length entries))
             = Some chosenEntry
          /\ athleteId chosenEntry = ev_athleteId ev
          /\ clamp01 (default 0 (entry_metrics chosenEntry !! ev_metricKey ev))
             - (1 # 25) <= ev_value ev
          /\ ev_value ev
             <= clamp01 (default 0 (entry_metrics chosenEntry !! ev_metricKey ev))
                + (1 # 25)).
Proof.
  split.
  - intros st1 st2. unfold tick. by repeat case_match.
  - intros st ev st' c' H [Hr0 Hr1].
    apply tick_updated in H
      as (entries & config & e & m & Hpick & _ & Hentry & _ & Hath & Hkey
          & Hv & _).
    exists entries, e. split; [exact Hpick |]. split; [exact Hentry |].
    split; [by symmetry |].
    rewrite Hv, Hkey.
    apply clamp01_close; lra.
Qed.

(** On the sample overview the metric is 0.5 and the draw 0.9 for the
    delta gives 0.532. *)
Lemma tick_jitter_is_memoryless_witness :
  exists ev,
    (tick entries0 (fun i => if (i =? 3)%nat then 0 else 9 # 10)
       (clock0 0) resetTicker 1).1.1 = Updated ev
    /\ (1 # 2) - (1 # 25) <= ev_value ev /\ ev_value ev <= (1 # 2) + (1 # 25).
Proof.
  set (random := fun i : nat => if (i =? 3)%nat then 0 else 9 # 10).
  destruct (tick entries0 random (clock0 0) resetTicker 1) as [[o st'] c'] eqn:Ht.
  assert (Ho : exists ev, o = Updated ev
                          /\ ev_metricKey ev = "engagement_authenticity"%string).
  { vm_compute in Ht. injection Ht as <- _ _. eexists. split; reflexivity. }
  destruct Ho as (ev & -> & Hkey).
  destruct (tick_jitter_is_memoryless entries0 random (clock0 0) 1) as [_ Hnear].
  destruct (Hnear resetTicker ev st' c' Ht) as (entries & e & Hpick & He & _ & Hlo & Hhi).
  { unfold random. simpl. split; lra. }
  exists ev. split; [reflexivity |].
  vm_compute in Hpick. injection Hpick as _ <-.
  vm_compute in He. injection He as <-.
  rewrite Hkey in Hlo, Hhi.
  split; [exact Hlo | exact Hhi].
Defined.

End TickFacts.

(** ** Expiry: the cleanup interval and what the cards show *)

Section Expiry.
Import Js Dashboard AgentCards Notions Samples.

Lemma cleanup_overlay_lookup now st k :
  agentOverlays (cleanup now st) !! k
  = match agentOverlays st !! k with
    | Some o => if (now <? expiresAt o)%Z then Some o else None
    | None => None
    end.
Proof.
  unfold cleanup. simpl.
  destruct (agentOverlays st !! k) as [o |] eqn:Hk.
  - destruct (Z.ltb_spec now (expiresAt o)) as [Hlt | Hge].
    + apply map_lookup_filter_Some. by split.
    + apply map_lookup_filter_None. right. intros o' Ho'. simpl.
      rewrite Hk in Ho'. injection Ho' as <-. lia.
  - apply map_lookup_filter_None. by left.
Qed.

Lemma cleanup_highlight_lookup now st a :
  agentHighlights (cleanup now st) !! a
  = match agentHighlights st !! a with
    | Some h => if (now - timestamp h <? 8000)%Z then Some h else None
    | None => None
    end.
Proof.
  unfold cleanup. simpl.
  destruct (agentHighlights st !! a) as [h |] eqn:Hk.
  - destruct (Z.ltb_spec (now - timestamp h) 8000) as [Hlt | Hge].
    + apply map_lookup_filter_Some. by split.
    + apply map_lookup_filter_None. right. intros h' Hh'. simpl.
      rewrite Hk in Hh'. injection Hh' as <-. lia.
  - apply map_lookup_filter_None. by left.
Qed.

Lemma TickerState_eq st1 st2 :
  (forall k, agentOverlays st1 !! k = agentOverlays st2 !! k) ->
  (forall a, agentHighlights st1 !! a = agentHighlights st2 !! a) ->
  st1 = st2.
Proof.
  destruct st1, st2. simpl. intros H1 H2. f_equal; by apply map_eq.
Qed.

(** X10. The cleanup only removes: it never adds or changes an entry. A
    later cleanup absorbs an earlier one - cleaning at [t1] and then at
    [t2], with [t1] not after [t2], leaves what cleaning at [t2] alone
    leaves - so in particular cleaning twice at the same instant is
    cleaning once; and what survives a cleanup at [t] is live at [t]. *)
Theorem cleanup_absorbs st t1 t2 :
  (forall k o,
      agentOverlays (cleanup t1 st) !! k = Some o ->
      agentOverlays st !! k = Some o /\ (t1 < expiresAt o)%Z)
  /\ (forall a h,
        agentHighlights (cleanup t1 st) !! a = Some h ->
        agentHighlights st !! a = Some h /\ (t1 - timestamp h < 8000)%Z)
  /\ ((t1 <= t2)%Z -> cleanup t2 (cleanup t1 st) = cleanup t2 st)
  /\ cleanup t1 (cleanup t1 st) = cleanup t1 st.
Proof.
  assert (Habs : forall a b, (a <= b)%Z -> cleanup b (cleanup a st) = cleanup b st).
  { intros a b Hab. apply TickerState_eq.
    - intros k. rewrite !cleanup_overlay_lookup.
      destruct (agentOverlays st !! k) as [o |]; [| reflexivity].
      destruct (Z.ltb_spec a (expiresAt o)); [reflexivity |].
      destruct (Z.ltb_spec b (expiresAt o)); [lia | reflexivity].
    - intros k. rewrite !cleanup_highlight_lookup.
      destruct (agentHighlights st !! k) as [h |]; [| reflexivity].
      destruct (Z.ltb_spec (a - timestamp h) 8000); [reflexivity |].
      destruct (Z.ltb_spec (b - timestamp h) 8000); [lia | reflexivity]. }
  split; [| split; [| split]].
  - intros k o. rewrite cleanup_overlay_lookup.
    destruct (agentOverlays st !! k) as [o' |]; [| discriminate].
    destruct (Z.ltb_spec t1 (expiresAt o')); [| discriminate].
    intros [= <-]. by split.
  - intros a h. rewrite cleanup_highlight_lookup.
    destruct (agentHighlights st !! a) as [h' |]; [| discriminate].
    destruct (Z.ltb_spec (t1 - timestamp h') 8000); [| discriminate].
    intros [= <-]. by split.
  - apply Habs.
  - apply Habs. lia.
Qed.

(** Cleaning the sample run after one tick at 1000 ms: a cleanup at 5 s
    followed by one at 25 s is the cleanup at 25 s. *)
Lemma cleanup_absorbs_witness :
  cleanup 25000 (cleanup 5000 (tick entries0 drawsLow 1000 resetTicker 1).1.2)
  = cleanup 25000 (tick entries0 drawsLow 1000 resetTicker 1).1.2.
Proof.
  destruct (cleanup_absorbs (tick entries0 drawsLow 1000 resetTicker 1).1.2
              5000 25000) as (_ & _ & Habs & _).
  apply Habs. lia.
Defined.

(** X11. The lifetime of an update. The overlay a tick writes at [now]
    survives every cleanup before [now + 20000] ms and is removed by every
    cleanup from then on; the highlight it writes survives every cleanup
    before [now + 8000] ms and is removed from then on. *)
Theorem update_lifetime entriesByAgent random now st c ev st' c' :
  tick entriesByAgent random now st c = (Updated ev, st', c') ->
  forall t,
    agentOverlays (cleanup t st')
      !! overlayKeyOf (ev_agentId ev) (ev_athleteId ev) (ev_metricKey ev)
    = (if (t <? now + 20000)%Z
       then Some {| value := ev_value ev; expiresAt := (now + 20000)%Z |}
       else None)
    /\ agentHighlights (cleanup t st') !! ev_agentId ev
       = (if (t - now <? 8000)%Z
          then Some {| highlight_athleteId := ev_athleteId ev;
                       metricKey := ev_metricKey ev;
                       timestamp := now |}
          else None).
Proof.
  intros H t.
  apply tick_updated in H
    as (entries & config & e & m & _ & _ & _ & _ & _ & _ & _ & _ & -> & _).
  rewrite cleanup_overlay_lookup, cleanup_highlight_lookup. simpl.
  by rewrite !lookup_insert_eq.
Qed.

(** The overlay of the first sample tick, written at 1000 ms, is gone
    after a cleanup at 21000 ms. *)
Lemma update_lifetime_witness :
  agentOverlays (cleanup 21000 (tick entries0 drawsLow 1000 resetTicker 1).1.2)
    !! overlayKeyOf "social_media" "ath-1" "engagement_authenticity"
  = None.
Proof.
  destruct (tick entries0 drawsLow 1000 resetTicker 1) as [[o st'] c'] eqn:Ht.
  assert (Ho : exists ev, o = Updated ev /\ ev_athleteId ev = "ath-1"%string
                          /\ ev_agentId ev = "social_media"%string
                          /\ ev_metricKey ev = "engagement_authenticity"%string).
  { vm_compute in Ht. injection Ht as <- _ _. eexists. repeat split. }
  destruct Ho as (ev & -> & Hath & Hag & Hkey).
  destruct (update_lifetime entries0 drawsLow 1000 resetTicker 1 ev st' c' Ht 21000)
    as [Hov _].
  rewrite Hath, Hag, Hkey in Hov. exact Hov.
Defined.

End Expiry.

(** ** What an agent card shows *)

Section Cards.
Import Js Dashboard AgentCards Notions Samples.

Lemma applyOverlay_lookup agentId athlete overlays now acc metric k :
  applyOverlay agentId athlete overlays now acc metric !! k
  = if bool_decide (k = key metric)
    then match liveValue overlays now (overlayKeyOf agentId athlete k) with
         | Some v => Some v
         | None => acc !! k
         end
    else acc !! k.
Proof.
  unfold applyOverlay, liveValue.
  case_bool_decide as Hk.
  - subst k.
    destruct (overlays !! overlayKeyOf agentId athlete (key metric)) as [o |];
      [| reflexivity].
    destruct (now <? expiresAt o)%Z; [by rewrite lookup_insert_eq | reflexivity].
  - destruct (overlays !! overlayKeyOf agentId athlete (key metric)) as [o |];
      [| reflexivity].
    destruct (now <? expiresAt o)%Z; [| reflexivity].
    by rewrite lookup_insert_ne.
Qed.

Lemma foldl_applyOverlay_lookup agentId athlete overlays now l k : forall acc,
  foldl (applyOverlay agentId athlete overlays now) acc l !! k
  = if bool_decide (k ∈ map key l)
    then match liveValue overlays now (overlayKeyOf agentId athlete k) with
         | Some v => Some v
         | None => acc !! k
         end
    else acc !! k.
Proof.
  induction l as [| m l IH]; intros acc; cbn [foldl map].
  - rewrite bool_decide_eq_false_2; [reflexivity | apply not_elem_of_nil].
  - rewrite IH, applyOverlay_lookup.
    destruct (decide (k = key m)) as [-> | Hne].
    + rewrite (bool_decide_eq_true_2 (key m = key m)) by reflexivity.
      rewrite (bool_decide_eq_true_2 (key m ∈ key m :: map key l))
        by apply list_elem_of_here.
      destruct (liveValue overlays now _); by case_bool_decide.
    + rewrite (bool_decide_eq_false_2 (k = key m)) by exact Hne.
      destruct (decide (k ∈ map key l)) as [Hin | Hin].
      * rewrite !bool_decide_eq_true_2;
          [reflexivity | by apply list_elem_of_further | exact Hin].
      * rewrite !bool_decide_eq_false_2; [reflexivity | | exact Hin].
        by intros [E | H]%elem_of_cons.
Qed.

(** The shown metric: the live overlay for a metric of the agent's table,
    the metric of the entry otherwise. *)
Lemma metricsWithOverlay_lookup config overlays now entry k :
  metricsWithOverlay config overlays now entry !! k
  = if bool_decide (k ∈ map key (metrics config))
    then match liveValue overlays now
                 (overlayKeyOf (id config) (athleteId entry) k) with
         | Some v => Some v
         | None => entry_metrics entry !! k
         end
    else entry_metrics entry !! k.
Proof. apply foldl_applyOverlay_lookup. Qed.

Lemma findConfig_id agentId config :
  findConfig agentId = Some config -> id config = agentId.
Proof.
  unfold findConfig. intros [_ H]%List.find_some. by apply String.eqb_eq.
Qed.

Lemma index_elem_of {A} (xs : list A) z x : index xs z = Some x -> x ∈ xs.
Proof.
  unfold index. case_match; [discriminate |]. apply list_elem_of_lookup_2.
Qed.

Lemma metricsWithOverlay_cleanup config st now t entry :
  (now <= t)%Z ->
  metricsWithOverlay config (agentOverlays (cleanup now st)) t entry
  = metricsWithOverlay config (agentOverlays st) t entry.
Proof.
  intros Hle. apply map_eq. intros k.
  rewrite !metricsWithOverlay_lookup.
  case_bool_decide; [| reflexivity].
  unfold liveValue. rewrite cleanup_overlay_lookup.
  destruct (agentOverlays st !! _) as [o |]; [| reflexivity].
  destruct (Z.ltb_spec now (expiresAt o)); [reflexivity |].
  destruct (Z.ltb_spec t (expiresAt o)); [lia | reflexivity].
Qed.

(** X13. The cleanup is invisible. Whatever the cleanup interval removes
    at [now] was already ignored by the cards: at every instant from [now]
    on, the metrics shown for every entry, the four ranked athletes of
    every agent and the active highlight of every agent are the same with
    and without the cleanup. *)
Theorem cleanup_is_invisible st now t :
  (now <= t)%Z ->
  (forall config entry,
      metricsWithOverlay config (agentOverlays (cleanup now st)) t entry
      = metricsWithOverlay config (agentOverlays st) t entry)
  /\ (forall config entriesByAgent,
        ranked config entriesByAgent (agentOverlays (cleanup now st)) t
        = ranked config entriesByAgent (agentOverlays st) t)
  /\ (forall agentId entry,
        highlightActive (agentHighlights (cleanup now st)) t agentId
        = highlightActive (agentHighlights st) t agentId
        /\ isHighlighted (agentHighlights (cleanup now st)) t agentId entry
           = isHighlighted (agentHighlights st) t agentId entry).
Proof.
  intros Hle.
  assert (Hm : forall config entry,
             metricsWithOverlay config (agentOverlays (cleanup now st)) t entry
             = metricsWithOverlay config (agentOverlays st) t entry).
  { intros. by apply metricsWithOverlay_cleanup. }
  split; [exact Hm |]. split.
  - intros config entriesByAgent. unfold ranked, candidates. do 3 f_equal.
    apply map_ext. intros entry. unfold enrich. by rewrite Hm.
  - intros agentId entry.
    assert (Ha : highlightActive (agentHighlights (cleanup now st)) t agentId
                 = highlightActive (agentHighlights st) t agentId).
    { unfold highlightActive. rewrite cleanup_highlight_lookup.
      destruct (agentHighlights st !! agentId) as [h |]; [| reflexivity].
      destruct (Z.ltb_spec (now - timestamp h) 8000); [reflexivity |].
      symmetry. apply Z.ltb_ge. lia. }
    split; [exact Ha |].
    unfold isHighlighted. rewrite Ha, cleanup_highlight_lookup.
    unfold highlightActive.
    destruct (agentHighlights st !! agentId) as [h |]; [| reflexivity].
    destruct (Z.ltb_spec (t - timestamp h) 6000) as [Hact | Hact];
      [| reflexivity].
    destruct (Z.ltb_spec (now - timestamp h) 8000); [reflexivity | lia].
Qed.

(** At 25 s the overlay of the first sample tick has expired: the card
    shows the metric of the entry with and without a cleanup at 21 s. *)
Lemma cleanup_is_invisible_witness :
  ranked {| id := "social_media"; emphasis := "engagement_authenticity";
            metrics := [ {| key := "engagement_authenticity";
                            label := "Engagement Authenticity" |} ] |}
    entries0
    (agentOverlays
       (cleanup 21000 (tick entries0 drawsLow 1000 resetTicker 1).1.2)) 25000
  = ranked {| id := "social_media"; emphasis := "engagement_authenticity";
              metrics := [ {| key := "engagement_authenticity";
                              label := "Engagement Authenticity" |} ] |}
      entries0
      (agentOverlays (tick entries0 drawsLow 1000 resetTicker 1).1.2) 25000.
Proof.
  destruct (cleanup_is_invisible (tick entries0 drawsLow 1000 resetTicker 1).1.2
              21000 25000) as (_ & Hranked & _); [lia |].
  apply Hranked.
Defined.

End Cards.

(** ** Sorting and ranking *)

Section Ranking.
Import Js Dashboard AgentCards Notions Samples.

Lemma insertDesc_perm {A} (score : A -> Q) x l :
  insertDesc score x l ≡ₚ x :: l.
Proof.
  induction l as [| y l IH]; simpl; [reflexivity |].
  destruct (Qle_bool (score x) (score y)); [| reflexivity].
  rewrite IH. apply Permutation_swap.
Qed.

Lemma foldl_insertDesc_perm {A} (score : A -> Q) l : forall acc,
  foldl (fun acc x => insertDesc score x acc) acc l ≡ₚ acc ++ l.
Proof.
  induction l as [| x l IH]; intros acc; simpl.
  - by rewrite app_nil_r.
  - rewrite IH, insertDesc_perm. simpl. apply Permutation_middle.
Qed.

Lemma sortDesc_perm {A} (score : A -> Q) l : sortDesc score l ≡ₚ l.
Proof. unfold sortDesc. by rewrite foldl_insertDesc_perm. Qed.

Lemma insertDesc_sorted {A} (score : A -> Q) x l :
  StronglySorted (descending score) l ->
  StronglySorted (descending score) (insertDesc score x l).
Proof.
  induction 1 as [| y l Hl IH Hy]; simpl.
  - repeat constructor.
  - destruct (Qle_bool (score x) (score y)) eqn:Hxy.
    + apply Qle_bool_iff in Hxy. constructor; [exact IH |].
      rewrite insertDesc_perm. constructor; [exact Hxy | exact Hy].
    + assert (Hyx : score y <= score x).
      { apply Qlt_le_weak, Qnot_le_lt. intros H. apply Qle_bool_iff in H.
        congruence. }
      constructor; [by constructor |].
      constructor; [exact Hyx |].
      eapply Forall_impl; [exact Hy |]. unfold descending. simpl.
      intros z Hz. by apply Qle_trans with (score y).
Qed.

Lemma sortDesc_sorted {A} (score : A -> Q) l :
  StronglySorted (descending score) (sortDesc score l).
Proof.
  unfold sortDesc.
  assert (H : forall acc, StronglySorted (descending score) acc ->
                          StronglySorted (descending score)
                            (foldl (fun acc x => insertDesc score x acc) acc l)).
  { induction l as [| x l IH]; intros acc Hacc; simpl; [exact Hacc |].
    apply IH. by apply insertDesc_sorted. }
  apply H. constructor.
Qed.

Lemma elem_of_drop_inv {A} n (l : list A) y : y ∈ drop n l -> y ∈ l.
Proof.
  intros H. rewrite <- (take_drop n l). apply elem_of_app. by right.
Qed.

Lemma sorted_take {A} (R : A -> A -> Prop) n l :
  StronglySorted R l -> StronglySorted R (take n l).
Proof.
  intros Hs. revert n. induction Hs as [| z l Hl IH Hz]; intros n.
  - rewrite take_nil. constructor.
  - destruct n as [| n]; simpl; constructor; [apply IH |].
    rewrite Forall_forall in Hz. apply Forall_forall. intros x Hx.
    apply Hz. rewrite <- (take_drop n l). apply elem_of_app. by left.
Qed.

(** In a list in descending order, whatever stands before is not smaller
    than whatever stands behind. *)
Lemma sorted_take_drop {A} (score : A -> Q) n l x y :
  StronglySorted (descending score) l ->
  x ∈ take n l -> y ∈ drop n l -> score y <= score x.
Proof.
  intros Hs. revert n. induction Hs as [| z l Hl IH Hz]; intros n Hx Hy.
  - rewrite take_nil in Hx. by apply not_elem_of_nil in Hx.
  - destruct n as [| n]; simpl in *; [by apply not_elem_of_nil in Hx |].
    apply elem_of_cons in Hx as [-> | Hx].
    + rewrite Forall_forall in Hz. apply Hz. by eapply elem_of_drop_inv.
    + by apply (IH n).
Qed.

(** X14. The athletes of an agent card. The card lists the first four
    candidates - the entries of that agent, shown with their overlays, that
    have at least one metric - or all of them when there are fewer. They
    stand in descending order of the emphasised metric (a missing one
    counting as zero), no candidate that was left out has a larger
    emphasised metric than one that is listed, and listed and left-out
    candidates together are exactly the candidates. *)
Theorem ranked_is_top_four config entriesByAgent agentOverlays now :
  length (ranked config entriesByAgent agentOverlays now)
  = Nat.min 4 (length (candidates config entriesByAgent agentOverlays now))
  /\ StronglySorted (descending (emphasisOf config))
       (ranked config entriesByAgent agentOverlays now)
  /\ (forall x y,
        x ∈ ranked config entriesByAgent agentOverlays now ->
        y ∈ drop 4 (sortDesc (emphasisOf config)
                      (candidates config entriesByAgent agentOverlays now)) ->
        emphasisOf config y <= emphasisOf config x)
  /\ ranked config entriesByAgent agentOverlays now
     ++ drop 4 (sortDesc (emphasisOf config)
                  (candidates config entriesByAgent agentOverlays now))
     ≡ₚ candidates config entriesByAgent agentOverlays now.
Proof.
  unfold ranked.
  set (cands := candidates config entriesByAgent agentOverlays now).
  pose proof (sortDesc_sorted (emphasisOf config) cands) as Hsorted.
  split; [| split; [| split]].
  - rewrite length_take, (Permutation_length (sortDesc_perm _ cands)). lia.
  - by apply sorted_take.
  - intros x y Hx Hy. by eapply sorted_take_drop.
  - rewrite take_drop. apply sortDesc_perm.
Qed.

End Ranking.

(** ** The live feeds *)

Section FeedFacts.
Import Dashboard AgentCards Notions Feeds.

Lemma bucketNames_not_inherited c :
  c ∈ bucketNames -> c ∉ objectPrototypeNames.
Proof.
  assert (H : Forall (fun c => c ∉ objectPrototypeNames) bucketNames)
    by (apply (bool_decide_unpack _); vm_compute; exact I).
  rewrite Forall_forall in H. apply H.
Qed.

Lemma emptyBuckets_lookup c :
  emptyBuckets !! c = if bool_decide (c ∈ bucketNames) then Some [] else None.
Proof.
  case_bool_decide as Hc.
  - unfold bucketNames in Hc.
    repeat (apply elem_of_cons in Hc as [-> | Hc]; [reflexivity |]).
    by apply not_elem_of_nil in Hc.
  - apply not_elem_of_list_to_map_1. exact Hc.
Qed.

Lemma place_lookup b d b' :
  (forall c, is_Some (b !! c) <-> c ∈ bucketNames) ->
  place b d = Some b' ->
  (forall c, is_Some (b' !! c) <-> c ∈ bucketNames)
  /\ forall c,
       b' !! c = if bool_decide (c = bucketOf d)
                 then Some (default [] (b !! c) ++ [d])
                 else b !! c.
Proof.
  intros Hdom. unfold place, bucketOf.
  destruct (b !! category (item d)) as [bucket |] eqn:Hb.
  - intros [= <-].
    assert (Hin : category (item d) ∈ bucketNames)
      by (apply Hdom; rewrite Hb; eauto).
    rewrite (bool_decide_eq_true_2 _ Hin). split; intros c.
    + destruct (decide (c = category (item d))) as [-> | Hne].
      * rewrite lookup_insert_eq. split; eauto.
      * rewrite lookup_insert_ne by done. apply Hdom.
    + case_bool_decide as Hc.
      * subst c. by rewrite lookup_insert_eq, Hb.
      * by rewrite lookup_insert_ne.
  - case_bool_decide as Hproto; [discriminate |]. intros [= <-].
    assert (Hout : category (item d) ∉ bucketNames).
    { intros Hin. apply Hdom in Hin. rewrite Hb in Hin. by destruct Hin. }
    rewrite (bool_decide_eq_false_2 _ Hout). split; intros c.
    + destruct (decide (c = "other"%string)) as [-> | Hne].
      * rewrite lookup_insert_eq. split; [intros _ | eauto].
        unfold bucketNames. do 6 apply list_elem_of_further.
        apply list_elem_of_here.
      * rewrite lookup_insert_ne by done. apply Hdom.
    + case_bool_decide as Hc.
      * subst c. by rewrite lookup_insert_eq.
      * by rewrite lookup_insert_ne.
Qed.

Lemma place_None b d :
  (forall c, is_Some (b !! c) <-> c ∈ bucketNames) ->
  place b d = None <-> category (item d) ∈ objectPrototypeNames.
Proof.
  intros Hdom. unfold place.
  destruct (b !! category (item d)) as [bucket |] eqn:Hb.
  - split; [discriminate |]. intros Hproto.
    assert (Hin : category (item d) ∈ bucketNames)
      by (apply Hdom; rewrite Hb; eauto).
    by apply bucketNames_not_inherited in Hin.
  - case_bool_decide; split; done.
Qed.

Lemma placeAll_spec ds : forall b,
  (forall c, is_Some (b !! c) <-> c ∈ bucketNames) ->
  (placeAll b ds = None
   <-> exists d, d ∈ ds /\ category (item d) ∈ objectPrototypeNames)
  /\ forall b', placeAll b ds = Some b' ->
       (forall c, is_Some (b' !! c) <-> c ∈ bucketNames)
       /\ forall c, c ∈ bucketNames ->
            b' !! c
            = Some (default [] (b !! c)
                    ++ List.filter (fun d => String.eqb (bucketOf d) c) ds).
Proof.
  induction ds as [| d ds IH]; intros b Hdom; simpl.
  - split.
    + split; [discriminate |]. intros (d & Hd & _). by apply not_elem_of_nil in Hd.
    + intros b' [= <-]. split; [exact Hdom |]. intros c Hc.
      apply Hdom in Hc as [l Hl]. by rewrite Hl, app_nil_r.
  - pose proof (place_None b d Hdom) as Hnone.
    destruct (place b d) as [b1 |] eqn:Hplace.
    + destruct (place_lookup b d b1 Hdom Hplace) as [Hdom1 Hb1].
      destruct (IH b1 Hdom1) as [IHnone IHsome]. split.
      * rewrite IHnone. split.
        -- intros (x & Hx & Hp). exists x. split; [by apply list_elem_of_further | done].
        -- intros (x & Hx & Hp). apply elem_of_cons in Hx as [-> | Hx].
           ++ apply Hnone in Hp. discriminate.
           ++ by exists x.
      * intros b' Hb'. destruct (IHsome b' Hb') as [Hdom' Hlook].
        split; [exact Hdom' |]. intros c Hc.
        rewrite (Hlook c Hc), Hb1.
        destruct (String.eqb_spec (bucketOf d) c) as [Heq | Hne].
        -- rewrite bool_decide_eq_true_2 by done. simpl.
           by rewrite <- app_assoc.
        -- rewrite bool_decide_eq_false_2 by done. reflexivity.
    + split.
      * split; [intros _ | done]. exists d. split; [apply list_elem_of_here |].
        by apply Hnone.
      * discriminate.
Qed.

Lemma emptyBuckets_dom c : is_Some (emptyBuckets !! c) <-> c ∈ bucketNames.
Proof.
  rewrite emptyBuckets_lookup. case_bool_decide; split; eauto; try done.
Qed.

(** What [feedBuckets] holds under each key. *)
Lemma feedBuckets_lookup feeds buckets c :
  feedBuckets feeds = Some buckets ->
  buckets !! c
  = if bool_decide (c ∈ bucketNames)
    then Some (newestFirst
                 (List.filter (fun d => String.eqb (bucketOf d) c)
                    (displayItems feeds)))
    else None.
Proof.
  unfold feedBuckets.
  destruct (placeAll emptyBuckets (displayItems feeds)) as [b |] eqn:Hb;
    [| discriminate].
  intros [= <-].
  destruct (placeAll_spec (displayItems feeds) emptyBuckets emptyBuckets_dom)
    as [_ Hsome].
  destruct (Hsome b Hb) as [Hdom Hlook].
  rewrite lookup_fmap. case_bool_decide as Hc.
  - rewrite (Hlook c Hc), emptyBuckets_lookup, bool_decide_eq_true_2 by done.
    reflexivity.
  - destruct (b !! c) as [l |] eqn:Hl; [| reflexivity].
    exfalso. apply Hc, Hdom. eauto.
Qed.

(** X15. Routing the feed items. [feedBuckets] throws exactly when some
    item's category is the name of a property every object inherits (such
    as [constructor] or [toString]). Otherwise it has exactly the seven
    buckets, every item lies in exactly one of them - the bucket of its
    category when that is one of the seven keys, ['other'] when it is not -
    and every bucket is in descending order of timestamp. *)
Theorem feedBuckets_routes feeds :
  (feedBuckets feeds = None
   <-> exists d, d ∈ displayItems feeds
                 /\ category (item d) ∈ objectPrototypeNames)
  /\ forall buckets, feedBuckets feeds = Some buckets ->
       (forall c, c ∉ bucketNames -> buckets !! c = None)
       /\ forall c, c ∈ bucketNames ->
            exists l,
              buckets !! c = Some l
              /\ l ≡ₚ List.filter (fun d => String.eqb (bucketOf d) c)
                        (displayItems feeds)
              /\ StronglySorted (descending (fun d => feed_timestamp (item d))) l.
Proof.
  split.
  - destruct (placeAll_spec (displayItems feeds) emptyBuckets emptyBuckets_dom)
      as [Hnone _].
    rewrite <- Hnone. unfold feedBuckets.
    by destruct (placeAll emptyBuckets (displayItems feeds)).
  - intros buckets Hb. split; intros c Hc.
    + rewrite (feedBuckets_lookup _ _ c Hb). by rewrite bool_decide_eq_false_2.
    + rewrite (feedBuckets_lookup _ _ c Hb), bool_decide_eq_true_2 by done.
      eexists. split; [reflexivity |]. split.
      * apply sortDesc_perm.
      * apply sortDesc_sorted.
Qed.

Lemma section_categories section c :
  section ∈ feedSections -> c ∈ categories section ->
  c ∈ bucketNames /\ c <> "other"%string.
Proof.
  assert (H : Forall (fun s => Forall (fun c => c ∈ bucketNames
                                             /\ c <> "other"%string)
                                 (categories s)) feedSections)
    by (apply (bool_decide_unpack _); vm_compute; exact I).
  intros Hs Hc. rewrite Forall_forall in H. specialize (H _ Hs).
  rewrite Forall_forall in H. by apply H.
Qed.

Lemma eqb_bucketOf c d :
  c ∈ bucketNames -> c <> "other"%string ->
  String.eqb (bucketOf d) c = String.eqb (category (item d)) c.
Proof.
  intros Hc Hother. unfold bucketOf. case_bool_decide as Hin; [reflexivity |].
  destruct (String.eqb_spec "other" c) as [Heq | _]; [by subst |].
  destruct (String.eqb_spec (category (item d)) c) as [Heq | _]; [| reflexivity].
  by subst.
Qed.

Lemma elem_of_take_inv {A} n (l : list A) y : y ∈ take n l -> y ∈ l.
Proof.
  intros H. rewrite <- (take_drop n l). apply elem_of_app. by left.
Qed.

(** The bucket of a category that some section shows. *)
Lemma section_bucket feeds buckets section c :
  feedBuckets feeds = Some buckets ->
  section ∈ feedSections -> c ∈ categories section ->
  default [] (buckets !! c)
  = newestFirst (List.filter (fun d => String.eqb (category (item d)) c)
                   (displayItems feeds)).
Proof.
  intros Hb Hs Hc. destruct (section_categories _ _ Hs Hc) as [Hin Hother].
  rewrite (feedBuckets_lookup _ _ c Hb), bool_decide_eq_true_2 by done.
  simpl. f_equal. apply List.filter_ext. intros d. by apply eqb_bucketOf.
Qed.

Lemma section_bucket_elem feeds c d :
  d ∈ newestFirst (List.filter (fun d => String.eqb (category (item d)) c)
                     (displayItems feeds)) ->
  d ∈ displayItems feeds /\ category (item d) = c.
Proof.
  unfold newestFirst. rewrite sortDesc_perm.
  intros [Hd Heq]%list_elem_of_In%filter_In.
  split; [by apply list_elem_of_In | by apply String.eqb_eq].
Qed.

(** X16. What a feed section shows: at most six items, each one an item
    of the overview whose category is one of the section's categories - so
    an item that was routed to ['other'] is shown nowhere. The items of the
    section's first category come first: when there are six or more of
    them, no item of another category is shown, however recent it is. *)
Theorem section_shows feeds buckets section :
  feedBuckets feeds = Some buckets ->
  section ∈ feedSections ->
  (length (topItems buckets section) <= 6)%nat
  /\ (forall d, d ∈ topItems buckets section ->
        d ∈ displayItems feeds /\ category (item d) ∈ categories section)
  /\ (forall c rest,
        categories section = c :: rest ->
        (6 <= length (List.filter (fun d => String.eqb (category (item d)) c)
                        (displayItems feeds)))%nat ->
        forall d, d ∈ topItems buckets section -> category (item d) = c).
Proof.
  intros Hb Hs. unfold topItems. split; [rewrite length_take; lia |]. split.
  - intros d Hd%elem_of_take_inv. unfold sectionItems in Hd.
    apply list_elem_of_In, in_flat_map in Hd as (c & Hc%list_elem_of_In & Hd).
    rewrite (section_bucket _ _ _ _ Hb Hs Hc) in Hd.
    apply list_elem_of_In, section_bucket_elem in Hd as [Hd <-]. by split.
  - intros c rest Hcats Hsix d. unfold sectionItems. rewrite Hcats.
    cbn [flat_map].
    rewrite (section_bucket _ _ section c Hb Hs)
      by (rewrite Hcats; apply list_elem_of_here).
    rewrite take_app_le.
    + intros Hd%elem_of_take_inv. by apply section_bucket_elem in Hd as [_ Hd].
    + unfold newestFirst.
      by rewrite (Permutation_length (sortDesc_perm _ _)).
Qed.

(** Six social posts fill the first section: the community post, although
    the most recent item of all, is not shown. *)
Lemma section_shows_witness :
  Forall (fun d => category (item d) = "social"%string)
    (topItems (default ∅ (feedBuckets FeedSamples.busyFeed))
       FeedSamples.socialSection).
Proof.
  apply Forall_forall. intros d Hd.
  destruct (section_shows FeedSamples.busyFeed
              (default ∅ (feedBuckets FeedSamples.busyFeed))
              FeedSamples.socialSection) as (_ & _ & Hcrowd).
  - vm_compute. reflexivity.
  - apply list_elem_of_here.
  - eapply Hcrowd; [reflexivity | vm_compute; lia | exact Hd].
Defined.

Lemma highlightAthleteIds_elem m a :
  a ∈ highlightAthleteIds m
  <-> a <> EmptyString
      /\ exists k h, m !! k = Some h /\ highlight_athleteId h = a.
Proof.
  unfold highlightAthleteIds.
  rewrite elem_of_list_to_set, list_elem_of_In, filter_In, in_map_iff.
  split.
  - intros [([k h] & Hh & Hin) Hne]. simpl in Hh.
    apply list_elem_of_In, elem_of_map_to_list in Hin. split.
    + intros ->. by rewrite String.eqb_refl in Hne.
    + by exists k, h.
  - intros [Hne (k & h & Hk & Hh)]. split.
    + exists (k, h). split; [exact Hh |].
      by apply list_elem_of_In, elem_of_map_to_list.
    + by destruct (String.eqb_spec a EmptyString).
Qed.

(** X17. The feed highlight outlasts the card highlight. After an update
    of an athlete (with a non-empty id) every feed item of that athlete is
    highlighted, at whatever time the feed is rendered, and it stays so
    through every cleanup before [now + 8000] ms; the card of the agent
    stops highlighting the athlete at [now + 6000] ms. *)
Theorem feed_highlight_outlasts_card entriesByAgent random now st c ev st' c' :
  tick entriesByAgent random now st c = (Updated ev, st', c') ->
  ev_athleteId ev <> EmptyString ->
  forall d t,
    athlete_id (item d) = Some (ev_athleteId ev) ->
    feedHighlighted (highlightAthleteIds (agentHighlights st')) d = true
    /\ ((t - now < 8000)%Z ->
        feedHighlighted
          (highlightAthleteIds (agentHighlights (cleanup t st'))) d = true)
    /\ ((6000 <= t - now)%Z ->
        forall entry,
          isHighlighted (agentHighlights st') t (ev_agentId ev) entry = false).
Proof.
  intros H Hne d t Hd.
  apply tick_updated in H
    as (entries & config & e & m & _ & _ & _ & _ & _ & _ & _ & _ & -> & _).
  assert (Hshown : forall ids,
             ev_athleteId ev ∈ ids -> feedHighlighted ids d = true).
  { intros ids Hin. unfold feedHighlighted. rewrite Hd.
    rewrite (bool_decide_eq_true_2 _ Hin).
    by destruct (String.eqb_spec (ev_athleteId ev) EmptyString). }
  split; [| split].
  - apply Hshown, highlightAthleteIds_elem. split; [exact Hne |].
    eexists _, _. split; [apply lookup_insert_eq | reflexivity].
  - intros Hlt. apply Hshown, highlightAthleteIds_elem. split; [exact Hne |].
    exists (ev_agentId ev),
      {| highlight_athleteId := ev_athleteId ev;
         metricKey := ev_metricKey ev; timestamp := now |}.
    split; [| reflexivity].
    rewrite cleanup_highlight_lookup. simpl. rewrite lookup_insert_eq. simpl.
    destruct (Z.ltb_spec (t - now) 8000); [reflexivity | lia].
  - intros Hge entry. unfold isHighlighted, highlightActive. simpl.
    rewrite lookup_insert_eq. simpl.
    destruct (Z.ltb_spec (t - now) 6000); [lia | reflexivity].
Qed.

(** One second after the first sample tick was due to lose its card
    highlight, a feed item of the updated athlete is still highlighted. *)
Lemma feed_highlight_outlasts_card_witness :
  feedHighlighted
    (highlightAthleteIds
       (agentHighlights
          (cleanup 7000
             (tick Samples.entries0 Samples.drawsLow 1000 resetTicker 1).1.2)))
    {| item := FeedSamples.post "s1" "social" 1;
       programName := "Auburn"; athleteName := "Guard" |}
  = true.
Proof.
  destruct (tick Samples.entries0 Samples.drawsLow 1000 resetTicker 1)
    as [[o st'] c'] eqn:Ht.
  assert (Ho : exists ev, o = Updated ev /\ ev_athleteId ev = "ath-1"%string).
  { vm_compute in Ht. injection Ht as <- _ _. eexists. repeat split. }
  destruct Ho as (ev & -> & Hath).
  destruct (feed_highlight_outlasts_card Samples.entries0 Samples.drawsLow
              1000 resetTicker 1 ev st' c' Ht) with
    (d := {| item := FeedSamples.post "s1" "social" 1;
             programName := "Auburn"; athleteName := "Guard" |})
    (t := 7000%Z) as (_ & Hfeed & _).
  - rewrite Hath. discriminate.
  - simpl. by rewrite Hath.
  - apply Hfeed. lia.
Defined.

End FeedFacts.

(** ** The prototype page: first render and selection *)

Section PageFacts.
Import Prototype.

Lemma find_first_program (p : Program) ps :
  List.find (fun q => String.eqb (program_id q) (program_id p)) (p :: ps) = Some p.
Proof. cbn [List.find]. by rewrite String.eqb_refl. Qed.

(** What [selectProgram] does to the data, the markers and the agent view
    when it finds the program. *)
Lemma selectProgram_views doc programId st program :
  List.find (fun p => String.eqb (program_id p) programId) (programs (data st))
  = Some program ->
  data (selectProgram doc programId st).1 = data st
  /\ constellationItems (views (selectProgram doc programId st).1)
     = constellationItems (views st)
  /\ revenueCards (views (selectProgram doc programId st).1)
     = revenueCards (views st)
  /\ activeConstellationItem (views (selectProgram doc programId st).1)
     = (if constellationItems (views st) then Some (program_id program)
        else activeConstellationItem (views st))
  /\ activeRevenueCard (views (selectProgram doc programId st).1)
     = (if revenueCards (views st) then Some (program_id program)
        else activeRevenueCard (views st))
  /\ agentsView (views (selectProgram doc programId st).1)
     = (if doc agentArena && doc agentTranscript
        then List.find (fun set => String.eqb (agents_programId set)
                                     (program_id program))
               (agents (data st))
        else agentsView (views st)).
Proof.
  intros Hfind. unfold selectProgram. rewrite Hfind.
  unfold updateProgramDetail, updateAthleteView, updateScenario.
  destruct (head _) as [a |]; destruct (List.find _ (scenarios (data st))) as [s |];
    destruct (doc constellationDetail);
    destruct (doc athleteCard && doc behaviorRings && doc compliancePanel);
    destruct (doc court && doc scenarioControls && doc momentumWave);
    cbn; repeat split.
Qed.

Lemma renderAll_cons doc st p ps :
  programs (data st) = p :: ps ->
  renderAll doc st
  = withViews
      (selectProgram doc (program_id p)
         (withViews st (renderPrograms doc (views st)))).1
      (renderRevenue doc
         (views (selectProgram doc (program_id p)
                   (withViews st (renderPrograms doc (views st)))).1)).
Proof. intros H. unfold renderAll. cbn [withViews data]. by rewrite H. Qed.

Lemma renderAll_nil doc st :
  programs (data st) = [] ->
  renderAll doc st
  = withViews (withViews st (renderPrograms doc (views st)))
      (renderRevenue doc (renderPrograms doc (views st))).
Proof. intros H. unfold renderAll. cbn [withViews data]. by rewrite H. Qed.

(** X18. The first render. [renderAll] keeps the loaded data and selects
    the first program of the roster (none when the roster is empty); its
    button is marked active when the constellation containers exist. No
    revenue card is marked after the first render, although a program is
    selected: the cards are created after the selection was made. *)
Theorem renderAll_first_render doc d :
  data (renderAll doc (loaded d)) = d
  /\ selectedProgram (renderAll doc (loaded d)) = head (programs d)
  /\ activeConstellationItem (views (renderAll doc (loaded d)))
     = (if doc constellation && doc constellationDetail
        then program_id <$> head (programs d) else None)
  /\ activeRevenueCard (views (renderAll doc (loaded d))) = None.
Proof.
  destruct (programs d) as [| p ps] eqn:Hp.
  - rewrite renderAll_nil by exact Hp.
    unfold renderRevenue, renderPrograms.
    destruct (doc constellation && doc constellationDetail);
      destruct (doc revenueStreams && doc expansionHorizon); cbn;
      repeat split.
  - rewrite (renderAll_cons doc (loaded d) p ps) by exact Hp.
    set (st1 := withViews (loaded d) (renderPrograms doc (views (loaded d)))).
    assert (Hfind : List.find (fun q => String.eqb (program_id q) (program_id p))
                      (programs (data st1)) = Some p).
    { cbn [st1 withViews loaded data]. rewrite Hp. apply find_first_program. }
    destruct (selectProgram_views doc (program_id p) st1 p Hfind)
      as (Hdata & Hitems & Hcards & Hactive & Hrev & _).
    pose proof (selectProgram_found doc _ _ _ Hfind) as Hsel.
    set (st2 := (selectProgram doc (program_id p) st1).1) in *.
    assert (Hst1 : views st1 = renderPrograms doc blankViews) by reflexivity.
    cbn [withViews data selectedProgram views head fmap option_fmap option_map].
    split; [exact Hdata |]. split; [exact Hsel |].
    assert (Hconst : activeConstellationItem (views st2)
                     = if doc constellation && doc constellationDetail
                       then Some (program_id p) else None).
    { rewrite Hactive, Hst1. unfold renderPrograms.
      by destruct (doc constellation && doc constellationDetail). }
    assert (Hnone : activeRevenueCard (views st2) = None).
    { rewrite Hrev, Hst1. unfold renderPrograms.
      by destruct (doc constellation && doc constellationDetail). }
    unfold renderRevenue.
    destruct (doc revenueStreams && doc expansionHorizon);
      cbn [activeConstellationItem activeRevenueCard].
    + split; [exact Hconst | reflexivity].
    + split; [exact Hconst | exact Hnone].
Qed.

(** [selectProgram] for a program of the roster, step by step. *)
Lemma selectProgram_steps doc programId st program :
  List.find (fun p => String.eqb (program_id p) programId) (programs (data st))
  = Some program ->
  selectProgram doc programId st
  = ({| data := data st;
        selectedProgram := Some program;
        selectedAthlete :=
          match head (List.filter
                        (fun a => String.eqb (athlete_programId a)
                                    (program_id program))
                        (athletes (data st))) with
          | Some a => Some a
          | None => selectedAthlete st
          end;
        selectedScenario :=
          match List.find (fun s => String.eqb (scenario_programId s)
                                      (program_id program))
                  (scenarios (data st)) with
          | Some s => Some s
          | None => selectedScenario st
          end;
        views :=
          focusProgram doc (data st) (program_id program)
            (match List.find (fun s => String.eqb (scenario_programId s)
                                         (program_id program))
                     (scenarios (data st)) with
             | Some s => updateScenario doc s
             | None => fun v => v
             end
               (match head (List.filter
                              (fun a => String.eqb (athlete_programId a)
                                          (program_id program))
                              (athletes (data st))) with
                | Some a => updateAthleteView doc (data st) a
                | None => fun v => v
                end (updateProgramDetail doc program (views st)))) |},
      ReturnsUndefined).
Proof.
  intros H. unfold selectProgram. rewrite H.
  by destruct (head _), (List.find _ (scenarios (data st))).
Qed.

(** The four writers of the views touch different containers, so they
    commute; and a writer overwrites what the same writer wrote before. *)
Lemma detail_focus doc d programId p v :
  updateProgramDetail doc p (focusProgram doc d programId v)
  = focusProgram doc d programId (updateProgramDetail doc p v).
Proof.
  unfold updateProgramDetail, focusProgram. destruct v. cbn.
  by destruct (doc constellationDetail).
Qed.

Lemma detail_scenario doc p s v :
  updateProgramDetail doc p (updateScenario doc s v)
  = updateScenario doc s (updateProgramDetail doc p v).
Proof.
  unfold updateProgramDetail, updateScenario. destruct v.
  by destruct (doc constellationDetail),
              (doc court && doc scenarioControls && doc momentumWave).
Qed.

Lemma detail_athlete doc d p a v :
  updateProgramDetail doc p (updateAthleteView doc d a v)
  = updateAthleteView doc d a (updateProgramDetail doc p v).
Proof.
  unfold updateProgramDetail, updateAthleteView. destruct v.
  by destruct (doc constellationDetail),
              (doc athleteCard && doc behaviorRings && doc compliancePanel).
Qed.

Lemma detail_detail doc p q v :
  updateProgramDetail doc p (updateProgramDetail doc q v)
  = updateProgramDetail doc p v.
Proof.
  unfold updateProgramDetail. destruct v. by destruct (doc constellationDetail).
Qed.

Lemma athlete_focus doc d programId a v :
  updateAthleteView doc d a (focusProgram doc d programId v)
  = focusProgram doc d programId (updateAthleteView doc d a v).
Proof.
  unfold updateAthleteView, focusProgram. destruct v. cbn.
  by destruct (doc athleteCard && doc behaviorRings && doc compliancePanel).
Qed.

Lemma athlete_scenario doc d a s v :
  updateAthleteView doc d a (updateScenario doc s v)
  = updateScenario doc s (updateAthleteView doc d a v).
Proof.
  unfold updateAthleteView, updateScenario. destruct v.
  by destruct (doc athleteCard && doc behaviorRings && doc compliancePanel),
              (doc court && doc scenarioControls && doc momentumWave).
Qed.

Lemma athlete_athlete doc d a v :
  updateAthleteView doc d a (updateAthleteView doc d a v)
  = updateAthleteView doc d a v.
Proof.
  unfold updateAthleteView. destruct v.
  destruct (doc athleteCard && doc behaviorRings && doc compliancePanel);
    [| reflexivity].
  cbn. by destruct (List.find _ (behaviors d)), (List.find _ (compliance d)).
Qed.

(** An athlete with a behaviour record and a compliance item overwrites
    all three athlete containers. *)
Lemma athlete_overwrites doc d a a' b ci v :
  List.find (fun b => String.eqb (behavior_id b) (behaviorId a)) (behaviors d)
  = Some b ->
  List.find (fun c => String.eqb (compliance_athleteId c) (athlete_id a))
    (compliance d) = Some ci ->
  updateAthleteView doc d a (updateAthleteView doc d a' v)
  = updateAthleteView doc d a v.
Proof.
  intros Hb Hc. unfold updateAthleteView. rewrite Hb, Hc. destruct v.
  by destruct (doc athleteCard && doc behaviorRings && doc compliancePanel).
Qed.

Lemma scenario_focus doc d programId s v :
  updateScenario doc s (focusProgram doc d programId v)
  = focusProgram doc d programId (updateScenario doc s v).
Proof.
  unfold updateScenario, focusProgram. destruct v. cbn.
  by destruct (doc court && doc scenarioControls && doc momentumWave).
Qed.

Lemma scenario_scenario doc s s' v :
  updateScenario doc s (updateScenario doc s' v) = updateScenario doc s v.
Proof.
  unfold updateScenario. destruct v.
  by destruct (doc court && doc scenarioControls && doc momentumWave).
Qed.

Lemma focus_focus doc d programId other v :
  focusProgram doc d programId (focusProgram doc d other v)
  = focusProgram doc d programId v.
Proof.
  unfold focusProgram. destruct v. cbn.
  destruct (doc agentArena && doc agentTranscript);
    by repeat case_match.
Qed.

(** X19. Selecting twice is selecting once: a second [selectProgram] with
    the same id, known or unknown, changes neither the selection nor any
    view, and ends the same way. *)
Theorem selectProgram_idempotent doc programId st :
  selectProgram doc programId (selectProgram doc programId st).1
  = selectProgram doc programId st.
Proof.
  destruct (List.find (fun p => String.eqb (program_id p) programId)
              (programs (data st))) as [program |] eqn:Hfind.
  - rewrite (selectProgram_steps doc programId st program Hfind). cbn [fst].
    rewrite (selectProgram_steps doc programId _ program) by exact Hfind.
    cbn [data selectedAthlete selectedScenario views].
    destruct (head _) as [a |];
      destruct (List.find _ (scenarios (data st))) as [s |];
      rewrite ?detail_focus, ?detail_scenario, ?detail_athlete, ?detail_detail,
        ?athlete_focus, ?athlete_scenario, ?athlete_athlete,
        ?scenario_focus, ?scenario_scenario, ?focus_focus;
      reflexivity.
  - unfold selectProgram. rewrite Hfind. cbn [fst]. by rewrite Hfind.
Qed.

(** X20. A complete program erases the previous selection. When the
    program has an athlete, that athlete has a behaviour record and a
    compliance item, and a scenario references the program, selecting it
    leaves the same state whatever was selected just before: the
    selection in between leaves no trace. *)
Theorem complete_program_erases_history doc programId st program a b ci s :
  List.find (fun p => String.eqb (program_id p) programId) (programs (data st))
  = Some program ->
  head (List.filter (fun a => String.eqb (athlete_programId a) (program_id program))
          (athletes (data st))) = Some a ->
  List.find (fun b => String.eqb (behavior_id b) (behaviorId a))
    (behaviors (data st)) = Some b ->
  List.find (fun c => String.eqb (compliance_athleteId c) (athlete_id a))
    (compliance (data st)) = Some ci ->
  List.find (fun s => String.eqb (scenario_programId s) (program_id program))
    (scenarios (data st)) = Some s ->
  forall other,
    selectProgram doc programId (selectProgram doc other st).1
    = selectProgram doc programId st.
Proof.
  intros Hfind Ha Hb Hc Hs other.
  rewrite (selectProgram_steps doc programId st program Hfind), Ha, Hs.
  destruct (List.find (fun p => String.eqb (program_id p) other)
              (programs (data st))) as [q |] eqn:Hq.
  - rewrite (selectProgram_steps doc other st q Hq). cbn [fst].
    rewrite (selectProgram_steps doc programId _ program) by exact Hfind.
    cbn [data selectedAthlete selectedScenario views]. rewrite Ha, Hs.
    destruct (head (List.filter
                      (fun a => String.eqb (athlete_programId a) (program_id q))
                      (athletes (data st)))) as [a' |];
      destruct (List.find
                  (fun s => String.eqb (scenario_programId s) (program_id q))
                  (scenarios (data st))) as [s' |];
      rewrite ?detail_focus, ?detail_scenario, ?detail_athlete, ?detail_detail,
        ?athlete_focus, ?athlete_scenario,
        ?(athlete_overwrites doc (data st) a _ b ci _ Hb Hc),
        ?scenario_focus, ?scenario_scenario, ?focus_focus;
      reflexivity.
  - unfold selectProgram at 2. rewrite Hq. cbn [fst].
    by rewrite (selectProgram_steps doc programId st program Hfind), Ha, Hs.
Qed.

(** Selecting the first sample program after the second one, which has
    neither athlete nor scenario, is selecting the first one directly. *)
Lemma complete_program_erases_history_witness :
  selectProgram Samples.fullPage "kansas"
    (selectProgram Samples.fullPage "stanford" (loaded PageSamples.data1)).1
  = selectProgram Samples.fullPage "kansas" (loaded PageSamples.data1).
Proof.
  apply (complete_program_erases_history Samples.fullPage "kansas"
           (loaded PageSamples.data1) Samples.kansas Samples.center
           {| behavior_id := "b-1" |}
           {| compliance_athleteId := "ks-5"; riskLevel := "low" |}
           Samples.homeGame); reflexivity.
Defined.

End PageFacts.

(** ** Which rejection is reported *)

Section Rejections.
Import Dashboard ModeLoader.

(** [earliest] returns the reason of a rejection that no other rejection
    preceded. *)
Lemma earliest_spec rest : forall best,
  exists x, x ∈ best :: rest /\ earliest best rest = x.2
            /\ Forall (fun y => (x.1 <= y.1)%nat) (best :: rest).
Proof.
  induction rest as [| y rest IH]; intros best; cbn [earliest].
  - exists best. split; [apply list_elem_of_here |]. split; [reflexivity |].
    repeat constructor.
  - destruct (Nat.ltb_spec y.1 best.1) as [Hlt | Hge].
    + destruct (IH y) as (x & Hx & Heq & Hmin). exists x.
      split; [by apply list_elem_of_further |]. split; [exact Heq |].
      inversion Hmin as [| ? ? Hy Hrest]; subst.
      constructor; [lia |]. by constructor.
    + destruct (IH best) as (x & Hx & Heq & Hmin). exists x. split.
      * apply elem_of_cons in Hx as [-> | Hx]; [apply list_elem_of_here |].
        by do 2 apply list_elem_of_further.
      * split; [exact Heq |].
        inversion Hmin as [| ? ? Hb Hrest]; subst.
        constructor; [exact Hb |]. constructor; [lia | exact Hrest].
Qed.

Lemma earliestRejection_spec l :
  l <> [] ->
  exists x, x ∈ l /\ earliestRejection l = x.2
            /\ Forall (fun y => (x.1 <= y.1)%nat) l.
Proof.
  destruct l as [| first rest]; [done |]. intros _. apply earliest_spec.
Qed.

(** X21. Which failure is reported. When requests that [Promise.all]
    waits for are rejected, [modeError] carries the reason of one of them
    that no other rejection preceded in time, behind the text
    [Unable to load <mode> data: ]. *)
Theorem modeError_names_first_rejection mode r s :
  rejections mode r <> [] ->
  exists x,
    x ∈ rejections mode r
    /\ Forall (fun y => (x.1 <= y.1)%nat) (rejections mode r)
    /\ modeError (loadModeData mode r s)
       = Some ("Unable to load " +:+ modeName mode +:+ " data: " +:+ x.2)%string.
Proof.
  intros Hne.
  destruct (earliestRejection_spec _ Hne) as (x & Hx & Heq & Hmin).
  exists x. split; [exact Hx |]. split; [exact Hmin |].
  rewrite loadModeData_rejected.
  - cbn [modeError]. by rewrite Heq.
  - unfold requiredFailed. by rewrite bool_decide_eq_false_2.
Qed.

(** The scenarios request of the first sample load is its only rejection. *)
Lemma modeError_names_first_rejection_witness :
  exists x,
    x ∈ rejections emulation Samples.scenariosDown
    /\ Forall (fun y => (x.1 <= y.1)%nat)
         (rejections emulation Samples.scenariosDown)
    /\ modeError (loadModeData emulation Samples.scenariosDown Samples.state0)
       = Some ("Unable to load " +:+ modeName emulation +:+ " data: " +:+ x.2)%string.
Proof.
  apply (modeError_names_first_rejection emulation Samples.scenariosDown
           Samples.state0).
  intros H. vm_compute in H. discriminate.
Defined.

End Rejections.

(** ** The narrative panel *)

Section NarrativeFacts.
Import ModeLoader Narrative.

Lemma fetchAll_snoc s answers a :
  fetchAll s (answers ++ [a]) = fetchNarrative a (fetchAll s answers).
Proof. unfold fetchAll. by rewrite foldl_app. Qed.

Lemma stories_snoc answers a :
  stories (answers ++ [a])
  = stories answers
    ++ match required "Failed to generate narrative" a with
       | inr story => [story]
       | inl _ => []
       end.
Proof.
  unfold stories. rewrite omap_app. f_equal. cbn.
  by destruct (required "Failed to generate narrative" a).
Qed.

(** X22. What the narrative panel shows after any sequence of requests:
    the story of the last request that succeeded - a failed request does
    not clear it - or what it showed before when none succeeded; the error
    of the last request when that one failed and no error otherwise; and
    [loading] is false once a request has ended. *)
Theorem narrative_keeps_last_story s answers :
  narrative (fetchAll s answers)
  = default (narrative s) (last (stories answers))
  /\ error (fetchAll s answers)
     = match last answers with Some a => failure a | None => error s end
  /\ loading (fetchAll s answers)
     = match answers with [] => loading s | _ => false end.
Proof.
  induction answers as [| a answers IH] using rev_ind; [done |].
  rewrite fetchAll_snoc, stories_snoc, last_snoc.
  destruct IH as (IHn & _ & _).
  unfold fetchNarrative, failure.
  destruct (required "Failed to generate narrative" a) as [message | story];
    cbn [narrative error loading].
  - rewrite app_nil_r, IHn. split; [reflexivity |]. split; [reflexivity |].
    by destruct answers.
  - rewrite last_snoc. split; [reflexivity |]. split; [reflexivity |].
    by destruct answers.
Qed.

End NarrativeFacts.

(** ** Loading the prototype page *)

Section BootFacts.
Import ModeLoader Prototype Boot.

Lemma loadSimulationData_cases files :
  match loadSimulationData files with
  | inr d =>
      fileRejections files = []
      /\ loadJSON "./data/programs.json" (programsFile files) = inr (programs d)
      /\ loadJSON "./data/athletes.json" (athletesFile files) = inr (athletes d)
      /\ loadJSON "./data/scenarios.json" (scenariosFile files) = inr (scenarios d)
  | inl message =>
      fileRejections files <> []
      /\ message = earliestRejection (fileRejections files)
  end.
Proof.
  unfold loadSimulationData, fileRejections.
  destruct (loadJSON "./data/leadership.json" (leadershipFile files)),
           (loadJSON "./data/programs.json" (programsFile files)),
           (loadJSON "./data/athletes.json" (athletesFile files)),
           (loadJSON "./data/behaviors.json" (behaviorsFile files)),
           (loadJSON "./data/compliance.json" (complianceFile files)),
           (loadJSON "./data/agent-evidence.json" (agentsFile files)),
           (loadJSON "./data/scenarios.json" (scenariosFile files)),
           (loadJSON "./data/revenue.json" (revenueFile files));
    cbn [rejectionOf omap]; try (split; [discriminate | reflexivity]).
  cbn. auto.
Qed.

(** X23. The page loads all or nothing. When all eight files load, the
    page is rendered from them, no notice is shown and nothing is logged.
    When at least one file fails, [state.data] stays null whatever the
    other files answered, the notice is shown exactly when the element
    [app] exists, and one error is logged: the reason of a rejection that
    no other rejection preceded. *)
Theorem boot_all_or_nothing doc hasApp files :
  (fileRejections files = [] ->
   exists d,
     loadSimulationData files = inr d
     /\ pageState (boot doc hasApp files) = Some (renderAll doc (loaded d))
     /\ notice (boot doc hasApp files) = false
     /\ errors (boot doc hasApp files) = [])
  /\ (fileRejections files <> [] ->
      pageState (boot doc hasApp files) = None
      /\ notice (boot doc hasApp files) = hasApp
      /\ exists x,
           x ∈ fileRejections files
           /\ Forall (fun y => (x.1 <= y.1)%nat) (fileRejections files)
           /\ errors (boot doc hasApp files) = [x.2]).
Proof.
  pose proof (loadSimulationData_cases files) as Hcases. unfold boot.
  destruct (loadSimulationData files) as [message | d]; cbn.
  - destruct Hcases as [Hne ->]. split; [done |]. intros _.
    split; [reflexivity |]. split; [reflexivity |].
    destruct (earliestRejection_spec _ Hne) as (x & Hx & Heq & Hmin).
    exists x. by rewrite Heq.
  - destruct Hcases as [Hnil _]. split; [| done]. intros _. by exists d.
Qed.

End BootFacts.

(** ** The ranges of the values on display *)

Section Bounds.
Import Js Dashboard Series Engine AgentCards Notions Samples.

(** The forward reading of [tick] with the value it writes. *)
Lemma tick_writes entriesByAgent random now st c
      agentId entries config chosenEntry chosenMetric :
  index (List.filter playable entriesByAgent)
    (floorScale (random c) (length (List.filter playable entriesByAgent)))
  = Some (agentId, entries) ->
  findConfig agentId = Some config ->
  index entries (floorScale (random (c + 1)%nat) (length entries))
  = Some chosenEntry ->
  index (metrics config)
    (floorScale (random (c + 2)%nat) (length (metrics config)))
  = Some chosenMetric ->
  tick entriesByAgent random now st c
  = (Updated
       {| ev_agentId := agentId;
          ev_athleteId := athleteId chosenEntry;
          ev_metricKey := key chosenMetric;
          ev_value :=
            clamp01 (default 0 (entry_metrics chosenEntry !! key chosenMetric)
                     + (random (c + 3)%nat - (1 # 2)) * (8 # 100));
          ev_now := now |},
     {| agentOverlays :=
          <[overlayKeyOf agentId (athleteId chosenEntry) (key chosenMetric)
            := {| value :=
                    clamp01
                      (default 0 (entry_metrics chosenEntry !! key chosenMetric)
                       + (random (c + 3)%nat - (1 # 2)) * (8 # 100));
                  expiresAt := (now + 20000)%Z |}]>
            (agentOverlays st);
        agentHighlights :=
          <[agentId := {| highlight_athleteId := athleteId chosenEntry;
                          metricKey := key chosenMetric;
                          timestamp := now |}]>
            (agentHighlights st) |},
     (c + 4)%nat).
Proof.
  intros Ha Hc He Hm. unfold tick.
  rewrite (index_Some_nonempty _ _ _ Ha), Ha, Hc.
  rewrite (index_Some_nonempty _ _ _ He), He.
  by rewrite (index_Some_nonempty _ _ _ Hm), Hm.
Qed.

(** What a card shows is an overlay value or a metric of the overview. *)
Lemma metricsWithOverlay_within config st now entry :
  overlaysBounded st ->
  map_Forall (fun (_ : string) v => within 0 1 v) (entry_metrics entry) ->
  map_Forall (fun (_ : string) v => within 0 1 v)
    (metricsWithOverlay config (agentOverlays st) now entry).
Proof.
  intros Hst Hentry k v. rewrite metricsWithOverlay_lookup.
  case_bool_decide; [| by apply Hentry].
  unfold liveValue.
  destruct (agentOverlays st !! _) as [o |] eqn:Ho; [| by apply Hentry].
  destruct (now <? expiresAt o)%Z; [| by apply Hentry].
  intros [= <-]. exact (Hst _ _ Ho).
Qed.

Lemma scoreValue_within raws : Forall (within 0 1) (map scoreValue raws).
Proof.
  apply Forall_fmap, Forall_forall. intros x _. apply clip_range. lra.
Qed.

(** The point that [advance] appends is the clip of the previous point
    plus the noise. *)
Lemma advanceSentiment_last series noise :
  last (advanceSentiment series noise)
  = Some (clip (-1) 1 (default 0 (last series) + noise)).
Proof.
  unfold advanceSentiment, appendPoint.
  destruct (WINDOW <? length (series ++ [_]))%nat eqn:Hlen;
    [| apply last_snoc].
  destruct series as [| x series]; [discriminate |].
  cbn [app drop]. apply last_snoc.
Qed.

(** C2 (bounds invariant, saturating clip). In every run of the ticker,
    whatever the draws and the schedule, each emitted metric value and each
    stored overlay value lies in [0, 1], also from any maps whose values
    are in range. An update writes exactly the clamp of the picked entry's
    metric (zero when it is missing) plus the drawn delta, and picks that
    succeed do update; the clamp saturates: it is 1 from 1 upwards, 0 from
    0 downwards, the value itself in between. A card shows only overlay
    values and metrics of the overview, so what it shows is in [0, 1]
    whenever the metrics of the overview are. In the generator as
    specified, a sentiment series that starts in [-1, 1] stays there under
    [advance], each new point being the clip of the previous point plus
    the noise, saturating in the same way; a score-type value is
    the saturating clip of its raw value to [0, 1]; a weighted sum of such
    sub-scores, or of any sub-scores in [0, 1], with non-negative weights
    of sum 1 is in [0, 1], the bound
    being reached when every sub-score is 1; and the valuation projection
    is never negative. *)
Theorem bounds_invariant :
  (forall dataMode syntheticOverview random schedule,
      Forall (fun ev => within 0 1 (ev_value ev))
        (events (runTicker dataMode syntheticOverview random schedule))
      /\ overlaysBounded
           (runTicker dataMode syntheticOverview random schedule).1.2)
  /\ (forall start dataMode syntheticOverview random schedule,
        overlaysBounded start ->
        Forall (fun ev => within 0 1 (ev_value ev))
          (events (runTickerFrom start dataMode syntheticOverview random schedule))
        /\ overlaysBounded
             (runTickerFrom start dataMode syntheticOverview random schedule).1.2)
  /\ (forall entriesByAgent random now st c ev st' c',
        tick entriesByAgent random now st c = (Updated ev, st', c') ->
        exists entries config chosenEntry chosenMetric,
          index (List.filter playable entriesByAgent)
            (floorScale (random c) (length (List.filter playable entriesByAgent)))
          = Some (ev_agentId ev, entries)
          /\ findConfig (ev_agentId ev) = Some config
          /\ index entries (floorScale (random (c + 1)%nat) (length entries))
             = Some chosenEntry
          /\ index (metrics config)
               (floorScale (random (c + 2)%nat) (length (metrics config)))
             = Some chosenMetric
          /\ ev_athleteId ev = athleteId chosenEntry
          /\ ev_metricKey ev = key chosenMetric
          /\ ev_value ev
             = clamp01 (default 0 (entry_metrics chosenEntry !! key chosenMetric)
                        + (random (c + 3)%nat - (1 # 2)) * (8 # 100))
          /\ agentOverlays st'
               !! overlayKeyOf (ev_agentId ev) (ev_athleteId ev) (ev_metricKey ev)
             = Some {| value := ev_value ev; expiresAt := (now + 20000)%Z |})
  /\ (forall entriesByAgent random now st c
             agentId entries config chosenEntry chosenMetric,
        index (List.filter playable entriesByAgent)
          (floorScale (random c) (length (List.filter playable entriesByAgent)))
        = Some (agentId, entries) ->
        findConfig agentId = Some config ->
        index entries (floorScale (random (c + 1)%nat) (length entries))
        = Some chosenEntry ->
        index (metrics config)
          (floorScale (random (c + 2)%nat) (length (metrics config)))
        = Some chosenMetric ->
        exists st',
          tick entriesByAgent random now st c
          = (Updated
               {| ev_agentId := agentId;
                  ev_athleteId := athleteId chosenEntry;
                  ev_metricKey := key chosenMetric;
                  ev_value :=
                    clamp01
                      (default 0 (entry_metrics chosenEntry !! key chosenMetric)
                       + (random (c + 3)%nat - (1 # 2)) * (8 # 100));
                  ev_now := now |},
             st', (c + 4)%nat)
          /\ agentOverlays st'
               !! overlayKeyOf agentId (athleteId chosenEntry) (key chosenMetric)
             = Some {| value :=
                         clamp01
                           (default 0
                              (entry_metrics chosenEntry !! key chosenMetric)
                            + (random (c + 3)%nat - (1 # 2)) * (8 # 100));
                       expiresAt := (now + 20000)%Z |})
  /\ (forall x,
        within 0 1 (clamp01 x)
        /\ (1 <= x -> clamp01 x == 1)
        /\ (x <= 0 -> clamp01 x == 0)
        /\ (0 <= x -> x <= 1 -> clamp01 x == x))
  /\ (forall config st now entry,
        overlaysBounded st ->
        map_Forall (fun (_ : string) v => within 0 1 v) (entry_metrics entry) ->
        map_Forall (fun (_ : string) v => within 0 1 v)
          (metricsWithOverlay config (agentOverlays st) now entry))
  /\ (forall series noises,
        Forall (within (-1) 1) series ->
        Forall (within (-1) 1) (foldl advanceSentiment series noises))
  /\ (forall series noise,
        last (advanceSentiment series noise)
        = Some (clip (-1) 1 (default 0 (last series) + noise)))
  /\ (forall x,
        within (-1) 1 (clip (-1) 1 x)
        /\ (1 <= x -> clip (-1) 1 x == 1)
        /\ (x <= -1 -> clip (-1) 1 x == -1)
        /\ (-1 <= x -> x <= 1 -> clip (-1) 1 x == x))
  /\ (forall raw,
        within 0 1 (scoreValue raw)
        /\ (1 <= raw -> scoreValue raw == 1)
        /\ (raw <= 0 -> scoreValue raw == 0)
        /\ (0 <= raw -> raw <= 1 -> scoreValue raw == raw))
  /\ (forall weights raws,
        Forall (Qle 0) weights -> total weights == 1 ->
        within 0 1 (weightedSum weights (map scoreValue raws)))
  /\ (forall weights subscores,
        Forall (Qle 0) weights -> total weights == 1 ->
        Forall (within 0 1) subscores ->
        within 0 1 (weightedSum weights subscores))
  /\ (forall weights,
        weightedSum weights (map (fun _ => 1) weights) == total weights)
  /\ (forall wR wA wF r a f baseline,
        0 <= computeValuation wR wA wF r a f baseline).
Proof.
  repeat match goal with |- _ /\ _ => split end.
  - intros.
    destruct (runTickerFrom_bounded resetTicker dataMode syntheticOverview
                random schedule resetTicker_bounded).
    by split.
  - intros * Hstart.
    destruct (runTickerFrom_bounded start dataMode syntheticOverview
                random schedule Hstart).
    by split.
  - intros * H.
    apply tick_updated in H
      as (entries & config & e & m & Ha & Hc & He & Hm & Hath & Hkey & Hv & _
          & -> & _).
    exists entries, config, e, m. repeat split; try assumption.
    simpl. by rewrite lookup_insert_eq.
  - intros * Ha Hc He Hm. eexists. split.
    + by apply (tick_writes _ _ _ _ _ agentId entries config).
    + simpl. by rewrite lookup_insert_eq.
  - intros x. split; [apply clamp01_range |].
    split; [apply clamp01_high |]. split; [apply clamp01_low | apply clamp01_mid].
  - intros *. apply metricsWithOverlay_within.
  - intros series noises. apply advanceSentiment_within.
  - intros series noise. apply advanceSentiment_last.
  - intros x. split; [apply clip_range; lra |].
    split; [apply clip_above; lra |].
    split; [apply clip_below; lra | apply clip_inside].
  - intros raw. unfold scoreValue. split; [apply clip_range; lra |].
    split; [apply clip_above; lra |].
    split; [apply clip_below; lra | apply clip_inside].
  - intros weights raws Hw Hsum.
    destruct (weightedSum_between weights (map scoreValue raws) Hw
                (scoreValue_within raws)) as [H0 H1].
    split; [exact H0 | by rewrite <- Hsum].
  - intros weights subscores Hw Hsum Hx.
    destruct (weightedSum_between weights subscores Hw Hx) as [H0 H1].
    split; [exact H0 | by rewrite <- Hsum].
  - intros weights. induction weights as [| w ws IH]; simpl; [reflexivity |].
    rewrite IH. ring.
  - apply computeValuation_nonneg.
Qed.

End Bounds.

(** ** An update on its card *)

Section CardUpdates.
Import Js Dashboard AgentCards Notions Samples.

(** Under distinct agents, the entries of an agent are those of its pair. *)
Lemma entriesOf_NoDup (m : list (string * list AgentEntry)) k v :
  NoDup (map fst m) -> (k, v) ∈ m -> entriesOf m k = v.
Proof.
  unfold entriesOf. induction m as [| [k' v'] m IH]; intros Hnd Hin.
  - by apply not_elem_of_nil in Hin.
  - cbn [List.find fst]. apply NoDup_cons in Hnd as [Hk' Hnd].
    apply elem_of_cons in Hin as [[= -> ->] | Hin].
    + by rewrite String.eqb_refl.
    + destruct (String.eqb_spec k' k) as [-> | _]; [| by apply IH].
      exfalso. apply Hk'. apply list_elem_of_fmap. by exists (k, v).
Qed.

(** Every row of a card is an entry of its agent, shown with the overlays. *)
Lemma ranked_elem config entriesByAgent overlays t shown :
  shown ∈ ranked config entriesByAgent overlays t ->
  exists entry,
    entry ∈ entriesOf entriesByAgent (id config)
    /\ shown = enrich config overlays t entry.
Proof.
  unfold ranked. intros H%elem_of_take_inv. rewrite sortDesc_perm in H.
  unfold candidates in H.
  apply list_elem_of_In, filter_In in H as [H _].
  apply in_map_iff in H as (entry & <- & Hentry).
  exists entry. split; [by apply list_elem_of_In | reflexivity].
Qed.

(** X12. What a tick writes, the card reads back - for the athletes it
    lists. A card lists at most four athletes; whenever the updated
    athlete is among them, its row is the entry of that athlete shown with
    the overlays, and there the updated metric reads the new value at every
    instant before [now + 20000] ms and the metric of the entry again from
    then on (as long as no later update replaces the overlay). When the
    agents of the map are distinct and the card has at most four
    candidates, the updated athlete is listed with the new value at every
    instant before [now + 20000] ms. *)
Theorem card_reads_update entriesByAgent random now st c ev st' c' :
  tick entriesByAgent random now st c = (Updated ev, st', c') ->
  exists config,
    findConfig (ev_agentId ev) = Some config
    /\ (forall t shown,
          shown ∈ ranked config entriesByAgent (agentOverlays st') t ->
          athleteId shown = ev_athleteId ev ->
          exists entry,
            entry ∈ entriesOf entriesByAgent (id config)
            /\ athleteId entry = ev_athleteId ev
            /\ shown = enrich config (agentOverlays st') t entry
            /\ entry_metrics shown !! ev_metricKey ev
               = if (t <? now + 20000)%Z then Some (ev_value ev)
                 else entry_metrics entry !! ev_metricKey ev)
    /\ (forall t,
          NoDup (map fst entriesByAgent) ->
          (t < now + 20000)%Z ->
          (length (candidates config entriesByAgent (agentOverlays st') t) <= 4)%nat ->
          exists shown,
            shown ∈ ranked config entriesByAgent (agentOverlays st') t
            /\ athleteId shown = ev_athleteId ev
            /\ entry_metrics shown !! ev_metricKey ev = Some (ev_value ev)).
Proof.
  intros H.
  apply tick_updated in H
    as (entries & config & e & m & Hpick & Hcfg & He & Hm & Hath & Hkey & _ & _
        & -> & _).
  exists config. split; [exact Hcfg |].
  assert (Hread : forall entry t,
             athleteId entry = ev_athleteId ev ->
             metricsWithOverlay config
               (<[overlayKeyOf (ev_agentId ev) (ev_athleteId ev) (ev_metricKey ev)
                  := {| value := ev_value ev; expiresAt := (now + 20000)%Z |}]>
                  (agentOverlays st)) t entry !! ev_metricKey ev
             = if (t <? now + 20000)%Z then Some (ev_value ev)
               else entry_metrics entry !! ev_metricKey ev).
  { intros entry t Hentry. rewrite metricsWithOverlay_lookup.
    rewrite bool_decide_eq_true_2.
    - unfold liveValue.
      rewrite (findConfig_id _ _ Hcfg), Hentry, lookup_insert_eq. simpl.
      by destruct (t <? now + 20000)%Z.
    - rewrite Hkey. apply list_elem_of_fmap_2, (index_elem_of _ _ _ Hm). }
  cbn [agentOverlays]. split.
  - intros t shown Hshown Hid.
    destruct (ranked_elem _ _ _ _ _ Hshown) as (entry & Hentry & ->).
    cbn [enrich athleteId] in Hid.
    exists entry. split; [exact Hentry |]. split; [exact Hid |].
    split; [reflexivity |]. cbn [enrich entry_metrics]. by apply Hread.
  - intros t Hnd Hlive Hfew.
    set (overlays := <[overlayKeyOf (ev_agentId ev) (ev_athleteId ev)
                         (ev_metricKey ev)
                       := {| value := ev_value ev;
                             expiresAt := (now + 20000)%Z |}]>
                       (agentOverlays st)) in *.
    assert (Hentries : entriesOf entriesByAgent (id config) = entries).
    { rewrite (findConfig_id _ _ Hcfg). apply entriesOf_NoDup; [exact Hnd |].
      apply index_elem_of, list_elem_of_In, filter_In in Hpick as [Hin _].
      by apply list_elem_of_In. }
    assert (Hval : entry_metrics (enrich config overlays t e) !! ev_metricKey ev
                   = Some (ev_value ev)).
    { cbn [enrich entry_metrics]. unfold overlays. rewrite Hread by done.
      destruct (Z.ltb_spec t (now + 20000)); [reflexivity | lia]. }
    exists (enrich config overlays t e).
    split; [| split; [cbn [enrich athleteId]; by rewrite Hath | exact Hval]].
    unfold ranked. rewrite take_ge.
    + rewrite sortDesc_perm. unfold candidates. rewrite Hentries.
      apply list_elem_of_In, filter_In. split.
      * apply in_map, list_elem_of_In, (index_elem_of _ _ _ He).
      * apply Nat.ltb_lt.
        destruct (decide (size (entry_metrics (enrich config overlays t e)) = 0%nat))
          as [Hz | Hz]; [| lia].
        apply map_size_empty_iff in Hz. rewrite Hz in Hval.
        by rewrite lookup_empty in Hval.
    + by rewrite (Permutation_length (sortDesc_perm _ _)).
Qed.

(** After the first sample tick at 1000 ms the card of the social-media
    agent, which has two candidates, lists the first athlete with 0.46 at
    2000 ms. *)
Lemma card_reads_update_witness :
  exists config shown,
    findConfig "social_media" = Some config
    /\ shown ∈ ranked config entries0
                 (agentOverlays (tick entries0 drawsLow 1000 resetTicker 1).1.2)
                 2000
    /\ athleteId shown = "ath-1"%string
    /\ entry_metrics shown !! "engagement_authenticity"%string
       = Some (184 # 400).
Proof.
  destruct (tick entries0 drawsLow 1000 resetTicker 1) as [[o st'] c'] eqn:Ht.
  assert (Hst : st' = (tick entries0 drawsLow 1000 resetTicker 1).1.2)
    by (by rewrite Ht).
  assert (Ho : exists ev, o = Updated ev /\ ev_athleteId ev = "ath-1"%string
                          /\ ev_agentId ev = "social_media"%string
                          /\ ev_metricKey ev = "engagement_authenticity"%string
                          /\ ev_value ev = 184 # 400).
  { vm_compute in Ht. injection Ht as <- _ _. eexists. repeat split. }
  destruct Ho as (ev & -> & Hath & Hag & Hkey & Hval).
  destruct (card_reads_update entries0 drawsLow 1000 resetTicker 1 ev st' c' Ht)
    as (config & Hcfg & _ & Hlisted).
  rewrite Hag in Hcfg.
  destruct (Hlisted 2000%Z) as (shown & Hshown & Hid & Hmetric).
  - apply (bool_decide_unpack _). vm_compute. exact I.
  - lia.
  - vm_compute in Hcfg. injection Hcfg as <-. rewrite Hst. vm_compute. lia.
  - exists config, shown. rewrite <- Hath, <- Hkey, <- Hval. cbn [fst snd].
    repeat split; assumption.
Defined.

End CardUpdates.
